(** * gocker: image acquisition, root-filesystem assembly and launch

    A shallow embedding of the Go packages [dockerfile], [image],
    [filesystem], [build] and [container] of gocker, with the properties
    of its design document stated over that embedding.

    The Go code is sequential and talks to the operating system, to the
    registry and to a few libraries.  The embedding keeps the code and
    replaces its surroundings by an explicit [world]:

    - the directory tree is a finite map from cleaned absolute paths
      (lists of components) to nodes; regular files point to an inode that
      carries permission bits and bytes, so that hard links alias;
    - [stdout] collects what [fmt.Printf] writes, [requests] what is sent
      to the registry;
    - Go's [(T, error)] results and panics are an [outcome]; a function
      that returns an error leaves the effects it already had in place.

    Limits of the model, chosen once and used everywhere: relative paths
    are resolved from "/" (every path the program builds starts with
    "/tmp/gocker"); a symbolic link is a leaf, no lookup traverses one,
    so a statement about a path that could lead through a link is made
    for a file system without symbolic links; the white space of a
    Dockerfile is that of ASCII text; the only file-system failures are structural (a missing parent, a
    file where a directory is needed, ...), plus the read errors an
    archive carries itself; setuid, setgid and sticky bits are left out
    of permissions. *)

From stdpp Require Import gmap strings list fin_maps sorting pretty.
From Stdlib Require Import ZArith Ascii String.

Open Scope string_scope.
Open Scope list_scope.

(** ** Errors and outcomes *)

Inductive errno :=
  | ENOENT | ENOTDIR | EISDIR | EEXIST | ENOTEMPTY | EPERM | ELOOP | EBUSY.

(** [Errorf] is [fmt.Errorf] without a wrapped cause, [Wrapf ctx e] is
    [fmt.Errorf(ctx + ": %w", e)], [Lib] an error value produced inside a
    library (net/http, encoding/json, compress/gzip, archive/tar). *)
Inductive error :=
  | Errno (e : errno)
  | Lib (msg : string)
  | Errorf (msg : string)
  | Wrapf (ctx : string) (cause : error).

Inductive outcome (A : Type) :=
  | Ok (a : A)
  | Err (e : error)
  | Panic (msg : string).
Arguments Ok {A} a.
Arguments Err {A} e.
Arguments Panic {A} msg.

(** The [error] a call returns next to its value; [None] is [nil]. *)
Definition error_of {A} (r : outcome A) : option error :=
  match r with
  | Err e => Some e
  | _ => None
  end.

(** [os.IsNotExist]: true for the bare ENOENT the os package reports. *)
Definition IsNotExist (err : option error) : bool :=
  match err with
  | Some (Errno ENOENT) => true
  | _ => false
  end.

Definition is_ok {A} (r : outcome A) : bool :=
  match r with Ok _ => true | _ => false end.

#[global] Instance errno_eq_dec : EqDecision errno.
Proof. solve_decision. Defined.

(** ** Paths *)

(** A cleaned absolute path, root first; [[]] is "/". *)
Abbreviation path := (list string).

Fixpoint split_slash (s : string) : list string :=
  match s with
  | EmptyString => [EmptyString]
  | String c s' =>
      if Ascii.eqb c "/" then EmptyString :: split_slash s'
      else match split_slash s' with
           | [] => [String c EmptyString]
           | x :: xs => String c x :: xs
           end
  end.

(** One step of [filepath.Clean] on a rooted path: empty and "."
    elements vanish, ".." drops the element before it and is itself
    dropped at the root. *)
Definition clean_step (stack : path) (c : string) : path :=
  if (c =? "")%string || (c =? ".")%string then stack
  else if (c =? "..")%string then removelast stack
  else stack ++ [c].

(** [filepath.Join]: the elements are joined by "/" and the result is
    cleaned. *)
Definition Join (elems : list string) : path :=
  fold_left clean_step (List.concat (List.map split_slash elems)) [].

(** [filepath.Dir] of a cleaned path. *)
Definition Dir (p : path) : path := removelast p.

Arguments Join : simpl never.
Arguments Dir : simpl never.

Fixpoint ext_scan (s : string) : option string :=
  match s with
  | EmptyString => None
  | String c rest =>
      match ext_scan rest with
      | Some e => Some e
      | None =>
          if Ascii.eqb c "." then Some (String c rest)
          else if Ascii.eqb c "/" then Some EmptyString
          else None
      end
  end.

(** [filepath.Ext]: the suffix that starts at the last dot of the last
    element, empty when there is none. *)
Definition Ext (name : string) : string := default EmptyString (ext_scan name).

Fixpoint join_slash (p : list string) : string :=
  match p with
  | [] => EmptyString
  | [c] => c
  | c :: rest => c +:+ "/" +:+ join_slash rest
  end.

(** The text of a cleaned absolute path, as [%s] prints it. *)
Definition path_string (p : path) : string := "/" +:+ join_slash p.

(** ** The world *)

Inductive node :=
  | NDir (perm : Z)
  | NFile (ino : nat)
  | NSymlink (target : string).

Record inode := Inode { i_perm : Z; i_data : string }.

Record request := Request {
  req_url : string;
  req_authorization : option string;
  req_accept : option string
}.

Record world := World {
  names : gmap path node;
  inodes : gmap nat inode;
  next_ino : nat;
  umask : Z;
  stdout : list string;
  requests : list request
}.

#[global] Instance node_eq_dec : EqDecision node.
Proof. solve_decision. Defined.
#[global] Instance inode_eq_dec : EqDecision inode.
Proof. solve_decision. Defined.
#[global] Instance request_eq_dec : EqDecision request.
Proof. solve_decision. Defined.

Definition set_names (ns : gmap path node) (w : world) : world :=
  World ns (inodes w) (next_ino w) (umask w) (stdout w) (requests w).
Definition set_inodes (ins : gmap nat inode) (w : world) : world :=
  World (names w) ins (next_ino w) (umask w) (stdout w) (requests w).
Definition set_next_ino (n : nat) (w : world) : world :=
  World (names w) (inodes w) n (umask w) (stdout w) (requests w).
Definition set_stdout (out : list string) (w : world) : world :=
  World (names w) (inodes w) (next_ino w) (umask w) out (requests w).
Definition set_requests (rs : list request) (w : world) : world :=
  World (names w) (inodes w) (next_ino w) (umask w) (stdout w) rs.

(** ** Computations: state, errors and panics *)

Definition M (A : Type) : Type := world → outcome A * world.

Definition ret {A} (a : A) : M A := λ w, (Ok a, w).
Definition fail {A} (e : error) : M A := λ w, (Err e, w).
Definition panic {A} (msg : string) : M A := λ w, (Panic msg, w).

Definition bind {A B} (m : M A) (k : A → M B) : M B :=
  λ w, match m w with
       | (Ok a, w') => k a w'
       | (Err e, w') => (Err e, w')
       | (Panic s, w') => (Panic s, w')
       end.

Notation "'let*' x := m 'in' k" := (bind m (λ x, k))
  (at level 10, x name, m at level 100, k at level 200, only parsing).
Notation "'do*' m 'in' k" := (bind m (λ _, k))
  (at level 10, m at level 100, k at level 200, only parsing).

(** [if err != nil { return fmt.Errorf(ctx + ": %w", err) }] *)
Definition wrap {A} (ctx : string) (m : M A) : M A :=
  λ w, match m w with
       | (Err e, w') => (Err (Wrapf ctx e), w')
       | r => r
       end.

(** [_ = f()]: the error is dropped, the effects stay. *)
Definition ignore_err {A} (m : M A) : M unit :=
  λ w, match m w with
       | (Panic s, w') => (Panic s, w')
       | (_, w') => (Ok tt, w')
       end.

(** [fmt.Printf] / [fmt.Println] *)
Definition print (line : string) : M unit :=
  λ w, (Ok tt, set_stdout (stdout w ++ [line]) w).

(** ** Operating-system primitives *)

(** Lookup from the root, one component at a time: ENOENT for a missing
    component, ENOTDIR for a component below something that is not a
    directory. *)
Fixpoint walk (ns : gmap path node) (seen : path) (todo : list string)
  : outcome node :=
  match ns !! seen with
  | None => Err (Errno ENOENT)
  | Some n =>
      match todo with
      | [] => Ok n
      | c :: todo' =>
          match n with
          | NDir _ => walk ns (seen ++ [c]) todo'
          | _ => Err (Errno ENOTDIR)
          end
      end
  end.

Definition os_Stat (p : path) : M node := λ w, (walk (names w) [] p, w).

(** [os.MkdirAll]: every missing directory on the way is created with
    [perm &^ umask]; an existing directory is left as it is; anything
    else on the way is ENOTDIR. *)
Fixpoint mkdir_walk (perm : Z) (seen : path) (todo : list string)
    (ns : gmap path node) : outcome unit * gmap path node :=
  match ns !! seen with
  | Some (NDir _) =>
      match todo with
      | [] => (Ok tt, ns)
      | c :: todo' => mkdir_walk perm (seen ++ [c]) todo' ns
      end
  | Some _ => (Err (Errno ENOTDIR), ns)
  | None =>
      let ns' := <[seen := NDir perm]> ns in
      match todo with
      | [] => (Ok tt, ns')
      | c :: todo' => mkdir_walk perm (seen ++ [c]) todo' ns'
      end
  end.

Definition os_MkdirAll (p : path) (perm : Z) : M unit :=
  λ w, let '(r, ns) := mkdir_walk (Z.ldiff perm (umask w)) [] p (names w) in
       (r, set_names ns w).

Definition get_inode (w : world) (i : nat) : inode :=
  default (Inode 0 EmptyString) (inodes w !! i).

(** The error a path operation reports when the parent of [p] is not a
    directory. *)
Definition parent_check (w : world) (p : path) : option error :=
  match names w !! Dir p with
  | Some (NDir _) => None
  | Some _ => Some (Errno ENOTDIR)
  | None => Some (Errno ENOENT)
  end.

(** [os.Create]: open for writing, create with [0666 &^ umask] or
    truncate.  The handle is the inode. *)
Definition os_Create (p : path) : M nat := λ w,
  match parent_check w p with
  | Some e => (Err e, w)
  | None =>
      match names w !! p with
      | Some (NFile i) =>
          (Ok i, set_inodes
                   (<[i := Inode (i_perm (get_inode w i)) EmptyString]> (inodes w)) w)
      | Some (NDir _) => (Err (Errno EISDIR), w)
      | Some (NSymlink _) => (Err (Errno ELOOP), w)
      | None =>
          let i := next_ino w in
          (Ok i, set_next_ino (S i)
                   (set_inodes
                      (<[i := Inode (Z.ldiff 438 (umask w)) EmptyString]> (inodes w))
                      (set_names (<[p := NFile i]> (names w)) w)))
      end
  end.

(** [os.FileMode(m)]: conversion of the header's int64 to uint32. *)
Definition FileMode (m : Z) : Z := m mod 2 ^ 32.

(** [os.Chmod]: the permission bits of the mode. *)
Definition os_Chmod (p : path) (mode : Z) : M unit := λ w,
  match names w !! p with
  | Some (NFile i) =>
      (Ok tt, set_inodes
                (<[i := Inode (Z.land mode 511) (i_data (get_inode w i))]> (inodes w)) w)
  | Some (NDir _) => (Ok tt, set_names (<[p := NDir (Z.land mode 511)]> (names w)) w)
  | Some (NSymlink _) => (Err (Errno ELOOP), w)
  | None => (Err (Errno ENOENT), w)
  end.

(** What a reader delivers: its bytes, then end of file or an error. *)
Record reader := Reader { r_bytes : string; r_err : option error }.

(** [io.Copy(file, r)] into a file that was just created or truncated. *)
Definition io_Copy (handle : nat) (r : reader) : M unit := λ w,
  let w' := set_inodes
              (<[handle := Inode (i_perm (get_inode w handle)) (r_bytes r)]> (inodes w)) w in
  match r_err r with
  | None => (Ok tt, w')
  | Some e => (Err e, w')
  end.

(** Names of the entries of directory [p]. *)
Definition child_name (p : path) (q : path) : option string :=
  if decide (q ≠ [] ∧ Dir q = p) then last q else None.

Definition children (ns : gmap path node) (p : path) : list string :=
  omap (λ kv, child_name p kv.1) (map_to_list ns).

(** A directory without entries. *)
Definition is_empty_dir (ns : gmap path node) (p : path) : Prop :=
  map_Forall (λ q _, child_name p q = None) ns.

#[global] Instance is_empty_dir_dec ns p : Decision (is_empty_dir ns p).
Proof. unfold is_empty_dir. apply _. Defined.

(** [os.Remove]: unlink a file or link, remove an empty directory. *)
Definition os_Remove (p : path) : M unit := λ w,
  match names w !! p with
  | None => (Err (Errno ENOENT), w)
  | Some (NDir _) =>
      match p with
      | [] => (Err (Errno EBUSY), w)
      | _ => if decide (is_empty_dir (names w) p)
             then (Ok tt, set_names (delete p (names w)) w)
             else (Err (Errno ENOTEMPTY), w)
      end
  | Some _ => (Ok tt, set_names (delete p (names w)) w)
  end.

(** [os.Symlink(oldname, newname)]: the text of [oldname] is stored; an
    empty text is refused with ENOENT before anything else is looked at. *)
Definition os_Symlink (oldname : string) (newname : path) : M unit := λ w,
  match oldname with
  | EmptyString => (Err (Errno ENOENT), w)
  | _ =>
      match parent_check w newname with
      | Some e => (Err e, w)
      | None =>
          match names w !! newname with
          | Some _ => (Err (Errno EEXIST), w)
          | None => (Ok tt, set_names (<[newname := NSymlink oldname]> (names w)) w)
          end
      end
  end.

(** [os.Link(oldname, newname)]: a second name for what [oldname] names;
    directories cannot be linked. *)
Definition os_Link (oldname newname : path) : M unit := λ w,
  match names w !! oldname with
  | None => (Err (Errno ENOENT), w)
  | Some (NDir _) => (Err (Errno EPERM), w)
  | Some n =>
      match parent_check w newname with
      | Some e => (Err e, w)
      | None =>
          match names w !! newname with
          | Some _ => (Err (Errno EEXIST), w)
          | None => (Ok tt, set_names (<[newname := n]> (names w)) w)
          end
      end
  end.

(** Byte-wise order of Go strings. *)
Definition str_le (a b : string) : Prop := String.leb a b = true.

#[global] Instance str_le_dec a b : Decision (str_le a b).
Proof. unfold str_le. apply _. Defined.

(** [os.ReadDir]: the entry names of a directory, sorted by file name. *)
Definition os_ReadDir (p : path) : M (list string) := λ w,
  match walk (names w) [] p with
  | Ok (NDir _) => (Ok (merge_sort str_le (children (names w) p)), w)
  | Ok _ => (Err (Errno ENOTDIR), w)
  | Err e => (Err e, w)
  | Panic s => (Panic s, w)
  end.

(** An open file seen by a reader. *)
Inductive handle :=
  | HFile (data : string)
  | HDir.

(** [os.Open]: a directory opens too, reading it is what fails. *)
Definition os_Open (p : path) : M handle := λ w,
  match names w !! p with
  | Some (NFile i) => (Ok (HFile (i_data (get_inode w i))), w)
  | Some (NDir _) => (Ok HDir, w)
  | Some (NSymlink _) => (Err (Errno ELOOP), w)
  | None => (Err (Errno ENOENT), w)
  end.

(** ** Libraries at their interface *)

(** archive/tar: a header as [Reader.Next] returns it, and a reader as the
    sequence of entries still to come, each with the bytes of its body,
    closed by end of file or by a read error. *)
Module tar.
Record Header := {
  Typeflag : ascii;
  Name : string;
  Linkname : string;
  Mode : Z
}.
Definition TypeReg : ascii := "0".
Definition TypeLink : ascii := "1".
Definition TypeSymlink : ascii := "2".
Definition TypeDir : ascii := "5".

Record Entry := { hdr : Header; body : reader }.
Record Reader := { entries : list Entry; trailer : option error }.
End tar.

(** compress/gzip followed by [tar.NewReader]: what the bytes of a layer
    file decode to, or the error of [gzip.NewReader]. *)
Class Archives := { gunzip : string → error + tar.Reader }.

(** ** Package filesystem *)

Module filesystem.
Section filesystem.
Context `{Archives}.

Definition layerFileExt : string := ".gz".
Definition dirPerm : Z := 493.   (* 0o755 *)

Definition handleSymlink (hdr : tar.Header) (r : reader) (root : string) : M unit :=
  let target := Join [root; tar.Name hdr] in
  do* os_MkdirAll (Dir target) dirPerm in
  do* ignore_err (os_Remove target) in
  os_Symlink (tar.Linkname hdr) target.

Definition handleLink (hdr : tar.Header) (r : reader) (root : string) : M unit :=
  let target := Join [root; tar.Name hdr] in
  do* os_MkdirAll (Dir target) dirPerm in
  let linkTarget := Join [root; tar.Linkname hdr] in
  do* ignore_err (os_Remove target) in
  os_Link linkTarget target.

Definition handleReg (hdr : tar.Header) (r : reader) (root : string) : M unit :=
  let target := Join [root; tar.Name hdr] in
  do* os_MkdirAll (Dir target) dirPerm in
  let* outFile := os_Create target in
  do* os_Chmod target (FileMode (tar.Mode hdr)) in
  io_Copy outFile r.

Definition handleDir (hdr : tar.Header) (r : reader) (root : string) : M unit :=
  let target := Join [root; tar.Name hdr] in
  os_MkdirAll target dirPerm.

(** The map from entry kind to handler. *)
Definition handlers (flag : ascii)
  : option (tar.Header → reader → string → M unit) :=
  if Ascii.eqb flag tar.TypeDir then Some handleDir
  else if Ascii.eqb flag tar.TypeReg then Some handleReg
  else if Ascii.eqb flag tar.TypeSymlink then Some handleSymlink
  else if Ascii.eqb flag tar.TypeLink then Some handleLink
  else None.

(** The loop over [tarReader.Next()], by recursion on the entries that
    are left. *)
Fixpoint handle_entries (es : list tar.Entry) (trailer : option error)
    (targetRoot : string) : M unit :=
  match es with
  | [] =>
      match trailer with
      | None => ret tt
      | Some e => fail (Wrapf "failed to read tar entry" e)
      end
  | e :: rest =>
      let header := tar.hdr e in
      match handlers (tar.Typeflag header) with
      | None =>
          fail (Errorf ("unknown tar entry type: "
                        +:+ String (tar.Typeflag header) EmptyString))
      | Some handler =>
          do* wrap ("failed to handle tar entry " +:+ tar.Name header)
               (handler header (tar.body e) targetRoot) in
          handle_entries rest trailer targetRoot
      end
  end.

Definition handleTarHeader (tarReader : tar.Reader) (targetRoot : string) : M unit :=
  handle_entries (tar.entries tarReader) (tar.trailer tarReader) targetRoot.

(** [gzip.NewReader] on an open file. *)
Definition gzip_NewReader (file : handle) : M tar.Reader :=
  match file with
  | HFile data =>
      match gunzip data with
      | inl err => fail err
      | inr tarReader => ret tarReader
      end
  | HDir => fail (Errno EISDIR)
  end.

Definition extractLayer (layerPath : path) (targetRoot : string) : M unit :=
  do* print ("Extracting layer " +:+ path_string layerPath +:+ "...") in
  let* file := wrap "failed to open layer file" (os_Open layerPath) in
  let* tarReader := wrap "failed to create gzip reader" (gzip_NewReader file) in
  do* wrap "failed to handle tar header" (handleTarHeader tarReader targetRoot) in
  do* print ("Layer " +:+ path_string layerPath +:+ " extracted successfully.") in
  ret tt.

(** The body of the loop of [BuildFromLayers]: the result of
    [extractLayer] is not looked at. *)
Fixpoint build_loop (files : list string) (layersDir targetRoot : string) : M unit :=
  match files with
  | [] => ret tt
  | name :: rest =>
      if decide (Ext name ≠ layerFileExt) then build_loop rest layersDir targetRoot
      else
        let layerPath := Join [layersDir; name] in
        do* ignore_err (extractLayer layerPath targetRoot) in
        build_loop rest layersDir targetRoot
  end.

Definition BuildFromLayers (layersDir targetRoot : string) : M unit :=
  let* files := os_ReadDir (Join [layersDir]) in
  build_loop files layersDir targetRoot.

End filesystem.
End filesystem.

(** ** Package image *)

Module image.

Definition authURL_prefix : string :=
  "https://auth.docker.io/token?service=registry.docker.io&scope=repository:".
Definition authURL_suffix : string := ":pull".
Definition dockerManifestUrl (image ref : string) : string :=
  "https://registry-1.docker.io/v2/" +:+ image +:+ "/manifests/" +:+ ref.
Definition dockerManifestByDigestURL (image ref : string) : string :=
  "https://registry-1.docker.io/v2/" +:+ image +:+ "/manifests/" +:+ ref.
Definition dockerImageUrl (image digest : string) : string :=
  "https://registry-1.docker.io/v2/" +:+ image +:+ "/blobs/" +:+ digest.
Definition manifestMediaType : string :=
  "application/vnd.docker.distribution.manifest.v2+json".
Definition manifestListMediaType : string :=
  "application/vnd.docker.distribution.manifest.list.v2+json".
Definition fileExt : string := ".tar.gz".

Record AuthResponse := { Token : string }.
Record Layer := { Digest : string }.
Record Manifest := { Layers : list Layer }.
Record Platform := { Architecture : string; OS : string }.
Record PlatformDescriptor := { pd_Digest : string; pd_Platform : Platform }.
Record ManifestList := { Manifests : list PlatformDescriptor }.

(** The registry, the JSON decoder and the Go runtime, at their
    interface.  [http_Do] is the answer to a request: a transport error
    or a body; [NewRequest_ok] tells whether [http.NewRequest] accepts a
    URL. *)
Class Registry := {
  GOOS : string;
  GOARCH : string;
  NewRequest_ok : string → bool;
  http_Do : request → outcome reader;
  json_AuthResponse : reader → outcome AuthResponse;
  json_ManifestList : string → outcome ManifestList;
  json_Manifest : string → outcome Manifest
}.

(** *** base64.URLEncoding *)

Definition b64_alphabet : string :=
  "ABCDEFGHIJKLMNOPQRSTUVWXYZabcdefghijklmnopqrstuvwxyz0123456789-_".

Definition b64_digit (n : N) : ascii :=
  default "="%char (String.get (N.to_nat n) b64_alphabet).

Fixpoint b64_encode (s : string) : string :=
  match s with
  | EmptyString => EmptyString
  | String a EmptyString =>
      let x := N_of_ascii a in
      String (b64_digit (N.shiftr x 2))
        (String (b64_digit (N.shiftl (N.land x 3) 4)) "==")
  | String a (String b EmptyString) =>
      let x := N_of_ascii a in
      let y := N_of_ascii b in
      String (b64_digit (N.shiftr x 2))
        (String (b64_digit (N.lor (N.shiftl (N.land x 3) 4) (N.shiftr y 4)))
           (String (b64_digit (N.shiftl (N.land y 15) 2)) "="))
  | String a (String b (String c rest)) =>
      let x := N_of_ascii a in
      let y := N_of_ascii b in
      let z := N_of_ascii c in
      String (b64_digit (N.shiftr x 2))
        (String (b64_digit (N.lor (N.shiftl (N.land x 3) 4) (N.shiftr y 4)))
           (String (b64_digit (N.lor (N.shiftl (N.land y 15) 2) (N.shiftr z 6)))
              (String (b64_digit (N.land z 63)) (b64_encode rest))))
  end.

Definition digestToFilename (digest : string) : string :=
  b64_encode digest +:+ fileExt.

Section image.
Context `{Registry}.

(** A request leaves the process: it is recorded, then answered. *)
Definition http_send (req : request) : M reader :=
  λ w, (http_Do req, set_requests (requests w ++ [req]) w).

Definition lift {A} (r : outcome A) : M A := λ w, (r, w).

(** [http.Get]: a URL that does not parse is an error, nothing is sent. *)
Definition http_Get (url : string) : M reader :=
  if NewRequest_ok url then http_send (Request url None None)
  else fail (Lib "net/url: invalid URL").

Definition authenticate (imageName : string) : M string :=
  let url := authURL_prefix +:+ imageName +:+ authURL_suffix in
  let* response := http_Get url in
  let* authResponse := lift (json_AuthResponse response) in
  ret (Token authResponse).

Fixpoint find_platform (ms : list PlatformDescriptor) : option string :=
  match ms with
  | [] => None
  | m :: rest =>
      if (OS (pd_Platform m) =? GOOS)%string
         && (Architecture (pd_Platform m) =? GOARCH)%string
      then Some (pd_Digest m)
      else find_platform rest
  end.

Definition selectPlatformDigest (imageName tag token : string) : M string :=
  let url := dockerManifestUrl imageName tag in
  (* req, _ := http.NewRequest(...): a nil request is dereferenced *)
  do* (if NewRequest_ok url then ret tt
   else panic "invalid memory address or nil pointer dereference") in
  let* resp := http_send (Request url (Some ("Bearer " +:+ token))
                             (Some manifestListMediaType)) in
  let body := r_bytes resp in
  let* manifestList := lift (json_ManifestList body) in
  let currentOS := GOOS in
  let currentArch := GOARCH in
  match find_platform (Manifests manifestList) with
  | Some digest => ret digest
  | None =>
      fail (Errorf ("no manifest found for platform "
                    +:+ currentOS +:+ "/" +:+ currentArch))
  end.

Definition fetchManifest (imageName digest authToken : string) : M Manifest :=
  let manifestURL := dockerManifestByDigestURL imageName digest in
  do* (if NewRequest_ok manifestURL then ret tt
   else fail (Lib "net/url: invalid URL")) in
  let* response := http_send (Request manifestURL (Some ("Bearer " +:+ authToken))
                                 (Some manifestMediaType)) in
  let body := r_bytes response in
  lift (json_Manifest body).

Definition downloadLayer (digest imageName authToken dest : string) : M unit :=
  let layerURL := dockerImageUrl imageName digest in
  do* (if NewRequest_ok layerURL then ret tt
   else fail (Lib "net/url: invalid URL")) in
  let* response := http_send (Request layerURL (Some ("Bearer " +:+ authToken)) None) in
  let filePath := Join [dest; digestToFilename digest] in
  let* outFile := os_Create filePath in
  io_Copy outFile response.

Fixpoint download_loop (i total : nat) (layers : list Layer)
    (imageName auth dest : string) : M unit :=
  match layers with
  | [] => ret tt
  | layer :: rest =>
      do* print ("Downloading layer " +:+ pretty (i + 1) +:+ "/" +:+ pretty total
             +:+ ": " +:+ Digest layer) in
      do* downloadLayer (Digest layer) imageName auth dest in
      download_loop (i + 1) total rest imageName auth dest
  end.

Definition DownloadImage (imageName tag dest : string) : M unit :=
  let* auth := authenticate imageName in
  do* print ("Using authentication token for image " +:+ imageName) in
  let* digest := selectPlatformDigest imageName tag auth in
  do* print ("Selected digest for image " +:+ imageName +:+ ": " +:+ digest) in
  let* manifest := fetchManifest imageName digest auth in
  do* print ("Fetched manifest for image " +:+ imageName +:+ " with "
         +:+ pretty (List.length (Layers manifest)) +:+ " layers") in
  do* download_loop 0 (List.length (Layers manifest)) (Layers manifest) imageName auth dest in
  do* print ("Downloaded all layers for image " +:+ imageName +:+ " to " +:+ dest) in
  ret tt.

End image.
End image.


(** ** Package dockerfile *)

Module dockerfile.

Inductive Instruction :=
  | FromInstruction (Image Tag : string)
  | CopyInstruction (Src Dst : string)
  | EntryPointInstruction (Entrypoint : list string).

(** White space of ASCII text: tab, line feed, vertical tab, form feed,
    carriage return, space. *)
Definition isSpace (c : ascii) : bool :=
  let n := N_of_ascii c in
  ((9 <=? n) && (n <=? 13) || (n =? 32))%N.

Fixpoint trim_left (keep : ascii → bool) (s : string) : string :=
  match s with
  | EmptyString => EmptyString
  | String c rest => if keep c then s else trim_left keep rest
  end.

Fixpoint trim_right (keep : ascii → bool) (s : string) : string :=
  match s with
  | EmptyString => EmptyString
  | String c rest =>
      match trim_right keep rest with
      | EmptyString => if keep c then String c EmptyString else EmptyString
      | rest' => String c rest'
      end
  end.

(** [strings.TrimSpace] *)
Definition TrimSpace (s : string) : string :=
  trim_right (λ c, negb (isSpace c)) (trim_left (λ c, negb (isSpace c)) s).

Fixpoint contains (c : ascii) (cutset : string) : bool :=
  match cutset with
  | EmptyString => false
  | String d rest => Ascii.eqb c d || contains c rest
  end.

(** [strings.Trim(s, cutset)] *)
Definition Trim (s cutset : string) : string :=
  trim_right (λ c, negb (contains c cutset))
             (trim_left (λ c, negb (contains c cutset)) s).

(** [strings.Fields]: the maximal runs of non-space characters. *)
Fixpoint fields_go (cur : string) (s : string) : list string :=
  match s with
  | EmptyString => match cur with EmptyString => [] | _ => [cur] end
  | String c rest =>
      if isSpace c then
        match cur with
        | EmptyString => fields_go EmptyString rest
        | _ => cur :: fields_go EmptyString rest
        end
      else fields_go (cur +:+ String c EmptyString) rest
  end.
Definition Fields (s : string) : list string := fields_go EmptyString s.

(** [strings.HasPrefix] *)
Definition HasPrefix (s pre : string) : bool := String.prefix pre s.

(** [strings.Split(s, sep)] for a separator of one character. *)
Fixpoint Split (s : string) (sep : ascii) : list string :=
  match s with
  | EmptyString => [EmptyString]
  | String c s' =>
      if Ascii.eqb c sep then EmptyString :: Split s' sep
      else match Split s' sep with
           | [] => [String c EmptyString]
           | x :: xs => String c x :: xs
           end
  end.

(** The lines [bufio.Scanner] delivers: the text between line feeds,
    nothing after a final line feed. *)
Definition scan_lines (content : string) : list string :=
  match content with
  | EmptyString => []
  | _ =>
      let ls := Split content "010"%char in
      match last ls with
      | Some EmptyString => removelast ls
      | _ => ls
      end
  end.

(** A line loses one trailing carriage return. *)
Fixpoint dropCR (line : string) : string :=
  match line with
  | EmptyString => EmptyString
  | String c EmptyString =>
      if Ascii.eqb c "013"%char then EmptyString else line
  | String c rest => String c (dropCR rest)
  end.

(** [bufio.MaxScanTokenSize] *)
Definition MaxScanTokenSize : N := 65536.

Definition parseFrom (parts : list string) : outcome Instruction :=
  if negb (List.length parts =? 2)%nat then Err (Errorf "invalid FROM instruction")
  else
    match parts !! 1%nat with
    | None => Panic "index out of range [1]"
    | Some arg =>
        let image := Split arg ":"%char in
        match image !! 0%nat, image !! 1%nat with
        | Some name, Some tag => Ok (FromInstruction name tag)
        | None, _ => Panic "index out of range [0]"
        | _, None => Panic "index out of range [1] with length 1"
        end
    end.

Definition parseCopy (parts : list string) : outcome Instruction :=
  if negb (List.length parts =? 3)%nat then Err (Errorf "invalid COPY instruction")
  else
    match parts !! 1%nat, parts !! 2%nat with
    | Some src, Some dst => Ok (CopyInstruction src dst)
    | _, _ => Panic "index out of range"
    end.

Fixpoint entrypoint_parts (parts : list string) : list string :=
  match parts with
  | [] => []
  | part :: rest =>
      let part := Trim part (String "034"%char "'[],") in
      if (part =? "")%string then entrypoint_parts rest
      else part :: entrypoint_parts rest
  end.

Definition parseEntrypoint (parts : list string) : outcome Instruction :=
  match parts with
  | [] => Panic "slice bounds out of range [1:0]"
  | _ :: parts => Ok (EntryPointInstruction (entrypoint_parts parts))
  end.

Definition lookup (keyword : string)
  : option (list string → outcome Instruction) :=
  if (keyword =? "FROM")%string then Some parseFrom
  else if (keyword =? "COPY")%string then Some parseCopy
  else if (keyword =? "ENTRYPOINT")%string then Some parseEntrypoint
  else None.

(** The loop over [scanner.Scan()], followed by [scanner.Err()]. *)
Fixpoint parse_lines (lines : list string) (instructions : list Instruction)
  : outcome (list Instruction) :=
  match lines with
  | [] => Ok instructions
  | text :: rest =>
      if (MaxScanTokenSize <=? N.of_nat (String.length text))%N then
        Err (Wrapf "error reading Dockerfile" (Lib "bufio.Scanner: token too long"))
      else
        let line := TrimSpace (dropCR text) in
        if (line =? "")%string || HasPrefix line "#" then parse_lines rest instructions
        else
          let parts := Fields line in
          match parts with
          | [] => Panic "index out of range [0] with length 0"
          | keyword :: _ =>
              match lookup keyword with
              | None => Err (Errorf ("unknown instruction: " +:+ keyword))
              | Some parseFn =>
                  match parseFn parts with
                  | Ok instruction => parse_lines rest (instructions ++ [instruction])
                  | Err e =>
                      Err (Wrapf ("error parsing instruction '" +:+ line +:+ "'") e)
                  | Panic msg => Panic msg
                  end
              end
          end
  end.

Definition Parse (path : string) : M (list Instruction) :=
  let* file := wrap "failed to open Dockerfile" (os_Open (Join [path])) in
  match file with
  | HDir => fail (Wrapf "error reading Dockerfile" (Errno EISDIR))
  | HFile content => λ w, (parse_lines (scan_lines content) [], w)
  end.

End dockerfile.

(** ** Package build *)

Module build.
Section build.
Context `{Archives} `{image.Registry}.

Record Runner := {
  instructions : list dockerfile.Instruction;
  rootfsPath : string;
  entrypoint : list string
}.

Definition NewRunner (instructions : list dockerfile.Instruction) : Runner :=
  {| instructions := instructions; rootfsPath := EmptyString; entrypoint := [] |}.

Definition set_rootfsPath (p : string) (r : Runner) : Runner :=
  {| instructions := instructions r; rootfsPath := p; entrypoint := entrypoint r |}.

(** The receiver is updated in place; the embedding returns it. *)
Definition handleFrom (r : Runner) (inst : dockerfile.Instruction) : M Runner :=
  match inst with
  | dockerfile.FromInstruction imageName tag =>
      do* print ("Building root filesystem for image " +:+ imageName
                 +:+ " tag:" +:+ tag +:+ "...") in
      let downloadPath := "/tmp/gocker/layers/" +:+ imageName +:+ "/" +:+ tag in
      let rootfsPath := "/tmp/gocker/rootfs/" +:+ imageName +:+ "/" +:+ tag in
      λ w,
        let '(err, w) := os_Stat (Join [rootfsPath]) w in
        if negb (IsNotExist (error_of err)) then (Ok (set_rootfsPath rootfsPath r), w)
        else
          (do* ignore_err (os_MkdirAll (Join [downloadPath]) 493) in
           do* ignore_err (os_MkdirAll (Join [rootfsPath]) 493) in
           do* wrap ("failed to download image " +:+ imageName +:+ ":" +:+ tag)
                    (image.DownloadImage ("library/" +:+ imageName) tag downloadPath) in
           do* wrap "failed to build root filesystem"
                    (filesystem.BuildFromLayers downloadPath rootfsPath) in
           ret (set_rootfsPath rootfsPath r)) w
  | _ => panic "interface conversion: interface {} is not dockerfile.FromInstruction"
  end.

End build.
End build.

(** ** Package container *)

Module container.

Definition initEnv : string := "GOCKER_INIT".

(** [cgroup2.Resources] as far as it is filled in. *)
Record Resources := { MemoryMax : Z; CPUQuota : Z; CPUPeriod : Z }.

(** What the process does to the host, in order. *)
Inductive event :=
  | Start (argv env : list string)
  | NewSystemd (slice group : string) (pid : Z) (res : Resources)
  | AddProc (pid : Z)
  | Kill (pid : Z)
  | Wait (pid : Z)
  | Chroot (root : string)
  | Chdir (dir : string)
  | Mount (source target fstype : string)
  | Stat (name : string)
  | Println (line : string)
  | Exec (argv0 : string) (argv envv : list string).

(** How a call ends: it returns an error or nil, the process image is
    replaced, or the goroutine panics. *)
Inductive finish :=
  | Return (err : option error)
  | Replaced
  | Panicked (msg : string).

(** [cmd.Start]: the child runs under a process id, or nothing was
    started. *)
Inductive started :=
  | Spawned (pid : Z)
  | NotStarted (err : error).

(** The host of one launch: the answer each call gets; [None] is [nil].
    [syscall_Exec] answers [None] when the image is replaced. *)
Class Host := {
  Getenv : string → string;
  Args : list string;
  Environ : list string;
  cmd_Start : started;
  cgroup_NewSystemd : option error;
  cgroup_AddProc : Z → option error;
  cmd_Wait : option error;
  syscall_Chroot : string → option error;
  syscall_Chdir : string → option error;
  syscall_Mount : option error;
  os_Stat : string → option error;
  syscall_Exec : string → list string → list string → option error
}.

Section container.
Context `{Host}.

(** [uint64(pid)] *)
Definition uint64 (n : Z) : Z := n mod 2 ^ 64.

Definition attachToCgroup (pid : Z) : list event * option error :=
  let maxMemory := (1024 * 1024 * 1024)%Z in
  let quota := 10000%Z in
  let period := 100000%Z in
  let res := {| MemoryMax := maxMemory; CPUQuota := quota; CPUPeriod := period |} in
  let created := [NewSystemd "/" "gocker-container.slice" (-1) res] in
  match cgroup_NewSystemd with
  | Some err => (created, Some (Wrapf "failed to create cgroup" err))
  | None =>
      match cgroup_AddProc pid with
      | Some err =>
          (created ++ [AddProc pid],
           Some (Wrapf "failed to add process to cgroup" err))
      | None => (created ++ [AddProc pid], None)
      end
  end.

Definition startInitProcess (rootfs : string) (command : list string)
  : list event * finish :=
  match syscall_Chroot rootfs with
  | Some err => ([Chroot rootfs], Return (Some (Wrapf "chroot failed" err)))
  | None =>
  match syscall_Chdir "/" with
  | Some err =>
      ([Chroot rootfs; Chdir "/"], Return (Some (Wrapf "chdir failed" err)))
  | None =>
  let setup := [Chroot rootfs; Chdir "/"; Mount "proc" "/proc" "proc"] in
  match syscall_Mount with
  | Some err => (setup, Return (Some (Wrapf "mount /proc failed" err)))
  | None =>
  match command with
  | [] => (setup, Panicked "index out of range [0] with length 0")
  | entrypoint :: command =>
      let err := os_Stat entrypoint in
      if IsNotExist err then
        (setup ++ [Stat entrypoint],
         Return (Some (Errorf ("entrypoint command does not exist: "
                               +:+ entrypoint))))
      else
        let line := "Running entrypoint: " +:+ entrypoint in
        let args := [entrypoint] ++ command in
        let trace := setup ++ [Stat entrypoint; Println line;
                               Exec entrypoint args Environ] in
        match syscall_Exec entrypoint args Environ with
        | None => (trace, Replaced)
        | Some errno => (trace, Return (Some errno))
        end
  end end end end.

Definition Run (rootfs : string) (command : list string) : list event * finish :=
  if (Getenv initEnv =? "1")%string then startInitProcess rootfs command
  else
    let argv := ["/proc/self/exe"] ++ tail Args in
    let env := Environ ++ [initEnv +:+ "=1"] in
    match cmd_Start with
    | NotStarted err =>
        ([Start argv env], Return (Some (Wrapf "failed to start container" err)))
    | Spawned pid =>
        let '(attach, err) := attachToCgroup (uint64 pid) in
        match err with
        | Some err =>
            ([Start argv env] ++ attach ++ [Kill pid],
             Return (Some (Wrapf "failed to apply cgroup" err)))
        | None =>
            ([Start argv env] ++ attach ++ [Wait pid], Return cmd_Wait)
        end
    end.

End container.
End container.

(** ** Vocabulary of the properties *)

(** What is stored under a name that is a regular file: permission bits
    and bytes. *)
Definition file_at (w : world) (p : path) : option (Z * string) :=
  match names w !! p with
  | Some (NFile i) =>
      match inodes w !! i with
      | Some n => Some (i_perm n, i_data n)
      | None => None
      end
  | _ => None
  end.

Definition is_dir_at (w : world) (p : path) : Prop :=
  ∃ perm, names w !! p = Some (NDir perm).


(** An archive of directory and regular-file entries only. *)
Definition dir_reg_only (es : list tar.Entry) : Prop :=
  Forall (λ e, tar.Typeflag (tar.hdr e) = tar.TypeDir
               ∨ tar.Typeflag (tar.hdr e) = tar.TypeReg) es.

#[global] Instance dir_reg_only_dec es : Decision (dir_reg_only es).
Proof. unfold dir_reg_only. apply _. Defined.


(** What copying the body of an entry returns. *)
Definition copy_result (r : reader) : outcome unit :=
  match r_err r with
  | None => Ok tt
  | Some e => Err e
  end.





(** The permission bits a header mode leaves on a file. *)
Definition perm_bits (mode : Z) : Z := Z.land (FileMode mode) 511.

(** What may stand at the destination of a link entry and be replaced:
    nothing, a file, a link, or a directory without entries. *)
Definition replaceable (w : world) (p : path) : Prop :=
  ∀ perm, names w !! p = Some (NDir perm) → is_empty_dir (names w) p.

Definition is_dir (n : node) : bool :=
  match n with NDir _ => true | _ => false end.

(** A tree of directories only. *)
Definition only_dirs (w : world) : Prop :=
  map_Forall (λ _ n, is_dir n = true) (names w).

#[global] Instance only_dirs_dec w : Decision (only_dirs w).
Proof. unfold only_dirs. apply _. Defined.

(** A computation that touches the file system only: it does not panic,
    prints nothing and sends nothing. *)
Definition fs_only {A} (m : M A) : Prop :=
  ∀ w r w', m w = (r, w') →
    (∀ msg, r ≠ Panic msg) ∧ stdout w' = stdout w ∧ requests w' = requests w.

Definition is_symlink (n : node) : bool :=
  match n with NSymlink _ => true | _ => false end.

(** A file system without symbolic links.  Where there is none, looking
    up a path element by element is what the operating system does. *)
Definition symlink_free (w : world) : Prop :=
  map_Forall (λ _ n, is_symlink n = false) (names w).

#[global] Instance symlink_free_dec w : Decision (symlink_free w).
Proof. unfold symlink_free. apply _. Defined.


(** In the words of the specification: a hard-link entry whose link
    target exists leaves the destination as a name of that target,
    whatever stood at the destination. *)
Definition links_whatever_is_there (hdr : tar.Header) (root : string)
    (w : world) (res : outcome unit) (w' : world) : Prop :=
  ∀ n, names w !! Join [root; tar.Linkname hdr] = Some n →
       (∀ perm, n ≠ NDir perm) →
       res = Ok tt ∧ names w' !! Join [root; tar.Name hdr] = Some n.

(** ** Sample data *)

Module sample.

(** A host where only "/" exists, with the usual umask 022. *)
Definition empty_root : world :=
  World {[ [] := NDir 493 ]} ∅ 0 18 [] [].

Definition entry (flag : ascii) (name linkname : string) (mode : Z)
    (bytes : string) : tar.Entry :=
  {| tar.hdr := {| tar.Typeflag := flag; tar.Name := name;
                   tar.Linkname := linkname; tar.Mode := mode |};
     tar.body := Reader bytes None |}.

Definition archive (es : list tar.Entry) : tar.Reader :=
  {| tar.entries := es; tar.trailer := None |}.

(** Layer A: directory app, file app/index.js with mode 0644. *)
Definition layerA : tar.Reader :=
  archive [entry tar.TypeDir "app/" "" 493 "";
           entry tar.TypeReg "app/index.js" "" 420 "console.log('A')"].

(** Layer B: file app/index.js again, other bytes, mode 0600. *)
Definition layerB : tar.Reader :=
  archive [entry tar.TypeReg "app/index.js" "" 384 "console.log('B')"].

(** A layer with a hard link to a file of its own. *)
Definition layerL : tar.Reader :=
  archive [entry tar.TypeReg "bin/busybox" "" 493 "ELF";
           entry tar.TypeReg "bin/sh" "" 420 "old";
           entry tar.TypeLink "bin/sh" "bin/busybox" 493 ""].

(** A layer with a character device, a kind without handler. *)
Definition layerDev : tar.Reader :=
  archive [entry "3" "dev/null" "" 438 ""].

(** gzip and tar as a table from file bytes to archives. *)
Fixpoint table_lookup (table : list (string * tar.Reader)) (data : string)
  : error + tar.Reader :=
  match table with
  | [] => inl (Lib "gzip: invalid header")
  | (k, v) :: rest => if (k =? data)%string then inr v else table_lookup rest data
  end.

Definition archives (table : list (string * tar.Reader)) : Archives :=
  {| gunzip := table_lookup table |}.

(** A layers directory with one layer file, which holds [layerDev]. *)
Definition one_bad_layer : world :=
  World (<[ ["layers"; "dev.tar.gz"] := NFile 0 ]>
          (<[ ["layers"] := NDir 493 ]>
            (<[ ["rootfs"] := NDir 493 ]> {[ [] := NDir 493 ]})))
        {[ 0 := Inode 420 "DEV" ]} 1 18 [] [].

(** A root file system where bin/sh is a file of its own, before a
    link entry turns it into a second name of bin/busybox. *)
Definition two_files : world :=
  World (<[ ["rootfs"; "bin"; "sh"] := NFile 1 ]>
          (<[ ["rootfs"; "bin"; "busybox"] := NFile 0 ]>
            (<[ ["rootfs"; "bin"] := NDir 493 ]>
              (<[ ["rootfs"] := NDir 493 ]> {[ [] := NDir 493 ]}))))
        (<[ 1 := Inode 420 "old" ]> {[ 0 := Inode 493 "ELF" ]}) 2 18 [] [].

Definition link_sh : tar.Header :=
  {| tar.Typeflag := tar.TypeLink; tar.Name := "bin/sh";
     tar.Linkname := "bin/busybox"; tar.Mode := 493 |}.

(** A host whose /Dockerfile names an image without a tag. *)
Definition untagged_dockerfile : world :=
  World (<[ ["Dockerfile"] := NFile 0 ]> {[ [] := NDir 493 ]})
        {[ 0 := Inode 420 "FROM ubuntu" ]} 1 18 [] [].

(** A host of a launch: [env] is the value of GOCKER_INIT, [start],
    [create] and [add] are the answers of [cmd.Start], [NewSystemd] and
    [AddProc], and [present] the paths of the new root that exist. *)
Definition host (env : string) (start : container.started)
    (create add : option error) (present : list string) : container.Host :=
  {| container.Getenv := λ k, if (k =? "GOCKER_INIT")%string then env else "";
     container.Args := ["gocker"; "Dockerfile"];
     container.Environ := ["PATH=/usr/bin"];
     container.cmd_Start := start;
     container.cgroup_NewSystemd := create;
     container.cgroup_AddProc := λ _, add;
     container.cmd_Wait := None;
     container.syscall_Chroot := λ _, None;
     container.syscall_Chdir := λ _, None;
     container.syscall_Mount := None;
     container.os_Stat := λ name,
       if bool_decide (name ∈ present) then None else Some (Errno ENOENT);
     container.syscall_Exec := λ _ _ _, None |}.

Fixpoint assoc {A} (table : list (string * A)) (key : string) : option A :=
  match table with
  | [] => None
  | (k, v) :: rest => if (k =? key)%string then Some v else assoc rest key
  end.

(** A registry given by tables: [pages] from URL to response body,
    [lists] and [manifests] from response body to the decoded value;
    the token of an authentication response is its body. *)
Definition registry (goos goarch : string) (pages : list (string * string))
    (lists : list (string * image.ManifestList))
    (manifests : list (string * image.Manifest)) : image.Registry :=
  {| image.GOOS := goos;
     image.GOARCH := goarch;
     image.NewRequest_ok := λ _, true;
     image.http_Do := λ req,
       match assoc pages (req_url req) with
       | Some body => Ok (Reader body None)
       | None => Err (Lib "dial tcp: no route to host")
       end;
     image.json_AuthResponse := λ r, Ok {| image.Token := r_bytes r |};
     image.json_ManifestList := λ body,
       match assoc lists body with
       | Some v => Ok v
       | None => Err (Lib "unexpected end of JSON input")
       end;
     image.json_Manifest := λ body,
       match assoc manifests body with
       | Some v => Ok v
       | None => Err (Lib "unexpected end of JSON input")
       end |}.

Definition descriptor (os arch digest : string) : image.PlatformDescriptor :=
  {| image.pd_Digest := digest;
     image.pd_Platform := {| image.Architecture := arch; image.OS := os |} |}.

(** A registry whose image library/node is built for linux on amd64 and
    arm64 only, seen from a host that runs linux on riscv64. *)
Definition no_riscv : image.Registry :=
  registry "linux" "riscv64"
    [(image.authURL_prefix +:+ "library/node" +:+ image.authURL_suffix, "tok");
     (image.dockerManifestUrl "library/node" "alpine", "LIST")]
    [("LIST", {| image.Manifests :=
                   [descriptor "linux" "amd64" "sha256:1";
                    descriptor "linux" "arm64" "sha256:2"] |})]
    [].

(** A host where the root file system of node:alpine is an empty
    directory, and nothing was downloaded. *)
Definition empty_rootfs : world :=
  World (<[ ["tmp"; "gocker"; "rootfs"; "node"; "alpine"] := NDir 493 ]>
          (<[ ["tmp"; "gocker"; "rootfs"; "node"] := NDir 493 ]>
            (<[ ["tmp"; "gocker"; "rootfs"] := NDir 493 ]>
              (<[ ["tmp"; "gocker"] := NDir 493 ]>
                (<[ ["tmp"] := NDir 493 ]> {[ [] := NDir 493 ]})))))
        ∅ 0 18 [] [].

(** An image whose manifest lists the layer sha256:b before the layer
    sha256:a; both layers write app/index.js. *)
Definition b_before_a : image.Registry :=
  registry "linux" "amd64"
    [(image.authURL_prefix +:+ "library/app" +:+ image.authURL_suffix, "tok");
     (image.dockerManifestUrl "library/app" "v1", "LIST");
     (image.dockerManifestByDigestURL "library/app" "sha256:m", "MANIFEST");
     (image.dockerImageUrl "library/app" "sha256:b", "B");
     (image.dockerImageUrl "library/app" "sha256:a", "A")]
    [("LIST", {| image.Manifests := [descriptor "linux" "amd64" "sha256:m"] |})]
    [("MANIFEST", {| image.Layers := [{| image.Digest := "sha256:b" |};
                                       {| image.Digest := "sha256:a" |}] |})].

(** A layers directory as [DownloadImage] leaves it for the manifest
    sha256:a, sha256:b. *)
Definition two_layers : world :=
  World (<[ ["layers"; "c2hhMjU2OmI=.tar.gz"] := NFile 1 ]>
          (<[ ["layers"; "c2hhMjU2OmE=.tar.gz"] := NFile 0 ]>
            (<[ ["layers"] := NDir 493 ]>
              (<[ ["rootfs"] := NDir 493 ]> {[ [] := NDir 493 ]}))))
        (<[ 1 := Inode 420 "B" ]> {[ 0 := Inode 420 "A" ]}) 2 18 [] [].



(** A root file system where bin/busybox is a file and bin/sh is a
    directory that holds a file. *)
Definition sh_is_a_directory : world :=
  World (<[ ["rootfs"; "bin"; "sh"; "rc"] := NFile 1 ]>
          (<[ ["rootfs"; "bin"; "sh"] := NDir 493 ]>
            (<[ ["rootfs"; "bin"; "busybox"] := NFile 0 ]>
              (<[ ["rootfs"; "bin"] := NDir 493 ]>
                (<[ ["rootfs"] := NDir 493 ]> {[ [] := NDir 493 ]})))))
        (<[ 1 := Inode 420 "set -e" ]> {[ 0 := Inode 493 "ELF" ]}) 2 18 [] [].

End sample.

(** The line [extractLayer] prints when it starts on a layer file. *)
Definition extracting_line (layerPath : path) : string :=
  "Extracting layer " +:+ path_string layerPath +:+ "...".

(** The lines of an output that announce the start of an extraction. *)
Definition extracting_lines (out : list string) : list string :=
  List.filter (String.prefix "Extracting layer ") out.

(** The names of a listing that [BuildFromLayers] takes for layer files. *)
Definition layer_files (files : list string) : list string :=
  List.filter (λ name, bool_decide (Ext name = filesystem.layerFileExt)) files.

(** The path [handleFrom] gives the root file system of an image. *)
Definition rootfs_of (imageName tag : string) : string :=
  "/tmp/gocker/rootfs/" +:+ imageName +:+ "/" +:+ tag.

(** [handleFrom] reuses what is there: it returns nil with the path set,
    sends nothing and leaves the file system as it was. *)
Definition reuses `{Archives} `{image.Registry} (r : build.Runner)
    (imageName tag : string) (w : world) : Prop :=
  ∃ w', build.handleFrom r (dockerfile.FromInstruction imageName tag) w
        = (Ok (build.set_rootfsPath (rootfs_of imageName tag) r), w')
        ∧ requests w' = requests w
        ∧ names w' = names w
        ∧ inodes w' = inodes w.

(** In the words of the specification: a directory is there and holds
    something. *)
Definition present_and_non_empty (w : world) (p : path) : Prop :=
  is_dir_at w p ∧ ¬ is_empty_dir (names w) p.

(** In the words of the specification: the extractions start in the
    order of the manifest. *)
Definition extracted_in_manifest_order (layersDir : string)
    (digests : list string) (out : list string) : Prop :=
  extracting_lines out
  = List.map (λ digest,
                extracting_line (Join [layersDir; image.digestToFilename digest]))
             digests.

(** An event of one kind is not in a trace made of events of other kinds. *)
Ltac no_such_event Hin :=
  simpl in Hin;
  repeat (apply elem_of_cons in Hin as [Hin|Hin]; [discriminate Hin|]);
  by apply elem_of_nil in Hin.

(** ** More sample data *)

Module cases.

(** bin/sh and bin/busybox are two names of one file. *)
Definition linked : world :=
  World (<[ ["rootfs"; "bin"; "sh"] := NFile 0 ]>
          (<[ ["rootfs"; "bin"; "busybox"] := NFile 0 ]>
            (<[ ["rootfs"; "bin"] := NDir 493 ]>
              (<[ ["rootfs"] := NDir 493 ]> {[ [] := NDir 493 ]}))))
        {[ 0 := Inode 493 "ELF" ]} 1 18 [] [].

Definition header (flag : ascii) (name linkname : string) (mode : Z)
  : tar.Header :=
  {| tar.Typeflag := flag; tar.Name := name; tar.Linkname := linkname;
     tar.Mode := mode |}.

(** A registry whose connection breaks while a body is read: every
    request is answered, and every body ends in an error after the
    bytes "part". *)
Definition broken_body : image.Registry :=
  {| image.GOOS := "linux";
     image.GOARCH := "amd64";
     image.NewRequest_ok := λ _, true;
     image.http_Do := λ _, Ok (Reader "part" (Some (Lib "unexpected EOF")));
     image.json_AuthResponse := λ r, Ok {| image.Token := r_bytes r |};
     image.json_ManifestList := λ _, Err (Lib "unexpected end of JSON input");
     image.json_Manifest := λ _, Err (Lib "unexpected end of JSON input") |}.

End cases.

(** What [handleTarHeader] returns at the end of the archive. *)
Definition end_of_archive (trailer : option error) : outcome unit :=
  match trailer with
  | None => Ok tt
  | Some e => Err (Wrapf "failed to read tar entry" e)
  end.

(** The characters [parseEntrypoint] strips from both ends of an
    argument: double quote, quote, brackets and comma. *)
Definition entrypoint_cutset : string := String "034"%char "'[],".

(** A string without path separator. *)
Fixpoint slash_free (s : string) : bool :=
  match s with
  | EmptyString => true
  | String c rest => negb (Ascii.eqb c "/") && slash_free rest
  end.

(** The requests of [DownloadImage], as they are built. *)
Definition auth_request (imageName : string) : request :=
  Request (image.authURL_prefix +:+ imageName +:+ image.authURL_suffix) None None.

Definition list_request (imageName tag token : string) : request :=
  Request (image.dockerManifestUrl imageName tag)
    (Some ("Bearer " +:+ token)) (Some image.manifestListMediaType).

Definition manifest_request (imageName digest token : string) : request :=
  Request (image.dockerManifestByDigestURL imageName digest)
    (Some ("Bearer " +:+ token)) (Some image.manifestMediaType).

Definition layer_request (imageName token : string) (layer : image.Layer)
  : request :=
  Request (image.dockerImageUrl imageName (image.Digest layer))
    (Some ("Bearer " +:+ token)) None.

(** ** Package build, the other methods of the Runner *)

(** [os.RemoveAll]: the path and everything below it go; the root itself
    cannot be removed. A path that does not exist is no error. *)
Definition os_RemoveAll (p : path) : M unit := λ w,
  match p with
  | [] =>
      (Err (Errno EBUSY),
       set_names (filter (λ kv, kv.1 = []) (names w)) w)
  | _ =>
      (Ok tt, set_names (filter (λ kv, ¬ p `prefix_of` kv.1) (names w)) w)
  end.

Module runner.

(** The process, as far as the Runner asks: the answer of [os.Getwd]. *)
Class Process := { os_Getwd : error + string }.

Section runner.
Context `{Archives} `{image.Registry} `{Process}.

Definition set_entrypoint (e : list string) (r : build.Runner) : build.Runner :=
  {| build.instructions := build.instructions r;
     build.rootfsPath := build.rootfsPath r;
     build.entrypoint := e |}.

Definition handleEntrypoint (r : build.Runner) (inst : dockerfile.Instruction)
  : M build.Runner :=
  match inst with
  | dockerfile.EntryPointInstruction entry =>
      if (List.length entry =? 0)%nat then
        fail (Errorf "entrypoint instruction is empty or not set")
      else ret (set_entrypoint entry r)
  | _ =>
      panic "interface conversion: interface {} is not dockerfile.EntryPointInstruction"
  end.

(** The errors built with the verb v carry the text of their cause; the
    embedding keeps the cause itself, as for the verb w. *)
Definition handleCopy (r : build.Runner) (inst : dockerfile.Instruction)
  : M build.Runner :=
  match inst with
  | dockerfile.CopyInstruction src dst =>
      let rootfsPath := build.rootfsPath r in
      if (rootfsPath =? "")%string || (src =? "")%string || (dst =? "")%string
      then
        fail (Errorf ("invalid rootfs path or source/destination for copy instruction (src: "
                      +:+ src +:+ ", dst: " +:+ dst +:+ ", rootfs: "
                      +:+ rootfsPath +:+ ")"))
      else
        match os_Getwd with
        | inl err =>
            fail (Wrapf "failed to get current working directory" err)
        | inr cwd =>
            let srcPath := Join [cwd; src] in
            let dstPath := Join [rootfsPath; dst] in
            λ w,
              let '(err, w) := os_Stat dstPath w in
              let '(_, w) :=
                if negb (IsNotExist (error_of err)) then os_RemoveAll dstPath w
                else (Ok tt, w) in
              let '(err, w) := os_Stat srcPath w in
              if IsNotExist (error_of err) then
                (Err (Errorf ("source file " +:+ path_string srcPath
                              +:+ " does not exist")), w)
              else
                (do* wrap ("failed to create destination directory "
                           +:+ path_string (Dir dstPath))
                          (os_MkdirAll (Dir dstPath) 493) in
                 do* wrap ("failed to copy " +:+ path_string srcPath +:+ " to "
                           +:+ path_string dstPath)
                          (os_Link srcPath dstPath) in
                 ret r) w
        end
  | _ => panic "interface conversion: interface {} is not dockerfile.CopyInstruction"
  end.

(** [fmt.Sprintf("%T", instruction)] *)
Definition typeName_of (inst : dockerfile.Instruction) : string :=
  match inst with
  | dockerfile.FromInstruction _ _ => "dockerfile.FromInstruction"
  | dockerfile.CopyInstruction _ _ => "dockerfile.CopyInstruction"
  | dockerfile.EntryPointInstruction _ => "dockerfile.EntryPointInstruction"
  end.

(** The package prefix is cut off when the name is longer than it. *)
Definition strip_package (typeName : string) : string :=
  let idx := String.length "dockerfile." in
  if (idx <? String.length typeName)%nat
     && (String.substring 0 idx typeName =? "dockerfile.")%string
  then String.substring idx (String.length typeName - idx) typeName
  else typeName.

Definition lookup (typeName : string)
  : option (build.Runner → dockerfile.Instruction → M build.Runner) :=
  if (typeName =? "FromInstruction")%string then Some build.handleFrom
  else if (typeName =? "CopyInstruction")%string then Some handleCopy
  else if (typeName =? "EntryPointInstruction")%string then Some handleEntrypoint
  else None.

(** The loop of [Prepare] over the instructions that are left. *)
Fixpoint prepare_loop (r : build.Runner) (ins : list dockerfile.Instruction)
  : M build.Runner :=
  match ins with
  | [] => ret r
  | instruction :: rest =>
      let typeName := strip_package (typeName_of instruction) in
      match lookup typeName with
      | None =>
          fail (Errorf ("unsupported instruction type: "
                        +:+ typeName_of instruction))
      | Some handler =>
          let* r := handler r instruction in
          prepare_loop r rest
      end
  end.

(** [Prepare] returns the path of the root file system and the
    entrypoint; on an error the empty string and nil come with it. *)
Definition Prepare (r : build.Runner) : M (string * list string) :=
  let* r := prepare_loop r (build.instructions r) in
  ret (build.rootfsPath r, build.entrypoint r).

End runner.
End runner.

(** The path of the last FROM instruction, the arguments of the last
    ENTRYPOINT instruction. *)
Fixpoint last_from (ins : list dockerfile.Instruction) (start : string) : string :=
  match ins with
  | [] => start
  | dockerfile.FromInstruction imageName tag :: rest =>
      last_from rest (rootfs_of imageName tag)
  | _ :: rest => last_from rest start
  end.

Fixpoint last_entrypoint (ins : list dockerfile.Instruction)
    (start : list string) : list string :=
  match ins with
  | [] => start
  | dockerfile.EntryPointInstruction entry :: rest => last_entrypoint rest entry
  | _ :: rest => last_entrypoint rest start
  end.

Module hosts.

(** A process whose working directory is /work. *)
Definition in_work : runner.Process := {| runner.os_Getwd := inr "/work" |}.

(** The root file system of node:alpine is there, and /work holds the
    file app.js and the directory src. *)
Definition project : world :=
  World (<[ ["work"; "src"] := NDir 493 ]>
          (<[ ["work"; "app.js"] := NFile 0 ]>
            (<[ ["work"] := NDir 493 ]>
              (<[ ["tmp"; "gocker"; "rootfs"; "node"; "alpine"; "app"; "main.js"]
                    := NFile 1 ]>
                (<[ ["tmp"; "gocker"; "rootfs"; "node"; "alpine"; "app"]
                      := NDir 493 ]>
                  (names sample.empty_rootfs))))))
        (<[ 1 := Inode 420 "old" ]> {[ 0 := Inode 420 "console.log(1)" ]})
        2 18 [] [].

End hosts.

(** The events of an init process that gets as far as replacing its
    image. *)
Definition init_events `{container.Host} (rootfs entrypoint : string)
    (args : list string) : list container.event :=
  [container.Chroot rootfs; container.Chdir "/";
   container.Mount "proc" "/proc" "proc"; container.Stat entrypoint;
   container.Println ("Running entrypoint: " +:+ entrypoint);
   container.Exec entrypoint (entrypoint :: args) container.Environ].

(** A name without an element "..". *)
Definition dotdot_free (name : string) : Prop := ".." ∉ split_slash name.

#[global] Instance dotdot_free_dec name : Decision (dotdot_free name).
Proof. unfold dotdot_free. apply _. Defined.

(** Every inode that has a name was handed out by the file system. *)
Definition handed_out (w : world) : Prop :=
  ∀ p i, names w !! p = Some (NFile i) → i < next_ino w.

(** No file with a name at or below [root] has a name anywhere else. *)
Definition kept_apart (root : path) (w : world) : Prop :=
  ∀ p q i, names w !! p = Some (NFile i) → names w !! q = Some (NFile i) →
           root `prefix_of` p → root `prefix_of` q.

Definition ino_below (k : nat) (n : node) : Prop :=
  match n with NFile i => i < k | _ => True end.

#[global] Instance ino_below_dec k n : Decision (ino_below k n).
Proof. destruct n; simpl; apply _. Defined.

Definition same_file (n m : node) : Prop :=
  match n, m with NFile i, NFile j => i = j | _, _ => False end.

#[global] Instance same_file_dec n m : Decision (same_file n m).
Proof. destruct n, m; simpl; apply _. Defined.

#[global] Instance handed_out_dec w : Decision (handed_out w).
Proof.
  refine (cast_if (decide (map_Forall (λ _ n, ino_below (next_ino w) n) (names w)))).
  - intros p i Hp. exact (m p (NFile i) Hp).
  - intros Hall. apply n. intros p [perm|i|l] Hp; [exact I| |exact I].
    exact (Hall p i Hp).
Defined.

#[global] Instance kept_apart_dec root w : Decision (kept_apart root w).
Proof.
  refine (cast_if (decide (map_Forall (λ p n,
            map_Forall (λ q m, same_file n m → root `prefix_of` p
                               → root `prefix_of` q) (names w)) (names w)))).
  - intros p q i Hp Hq. exact (m p (NFile i) Hp q (NFile i) Hq eq_refl).
  - intros Hall. apply n. intros p [?|i|?] Hp q [?|j|?] Hq; try (by intros []).
    intros Hij. simpl in Hij. subst j. exact (Hall p q i Hp Hq).
Defined.

(** What a handler may do to the entry at path [q] when its destination
    is [target]: leave it, work at the destination itself, or make a
    directory that was missing on the way to the destination. *)
Definition step_at (w w' : world) (target q : path) : Prop :=
  names w' !! q = names w !! q
  ∨ q = target
  ∨ (names w !! q = None ∧ is_dir_at w' q ∧ q `prefix_of` target).

(** ** base64, six bits at a time *)

(** The four indices into the alphabet that three bytes give. *)
Definition sextet1 (a : ascii) : N := N.shiftr (N_of_ascii a) 2.
Definition sextet2 (a b : ascii) : N :=
  N.lor (N.shiftl (N.land (N_of_ascii a) 3) 4) (N.shiftr (N_of_ascii b) 4).
Definition sextet3 (b c : ascii) : N :=
  N.lor (N.shiftl (N.land (N_of_ascii b) 15) 2) (N.shiftr (N_of_ascii c) 6).
Definition sextet4 (c : ascii) : N := N.land (N_of_ascii c) 63.

(** Every byte. *)
Definition all_ascii : list ascii := List.map ascii_of_nat (seq 0 256).

(** A property of one or of two bytes, checked on all of them. *)
Definition for_all_bytes (P : ascii → bool) : bool := forallb P all_ascii.
Definition for_all_byte_pairs (P : ascii → ascii → bool) : bool :=
  forallb (λ a, forallb (P a) all_ascii) all_ascii.

(** The characters of a string, as a list. *)
Fixpoint chars (s : string) : list ascii :=
  match s with
  | EmptyString => []
  | String c rest => c :: chars rest
  end.

(** Text of ASCII characters only: every byte is below 128.  On such
    text the white space of Go's strings package is the ASCII white
    space. *)
Fixpoint ascii_only (s : string) : bool :=
  match s with
  | EmptyString => true
  | String c rest => (N_of_ascii c <? 128)%N && ascii_only rest
  end.

(** * Facts about the model *)


Section mkdir_walk.
Implicit Types ns nt : gmap path node.

Lemma mkdir_walk_mono perm seen todo ns r ns' :
  mkdir_walk perm seen todo ns = (r, ns') → ns ⊆ ns'.
Proof.
  revert seen ns. induction todo as [|c todo IH]; intros seen ns; simpl.
  - destruct (ns !! seen) as [[]|] eqn:E; intros [= <- <-]; try done.
    by apply insert_subseteq.
  - destruct (ns !! seen) as [[]|] eqn:E; try (by intros [= <- <-]).
    + apply IH.
    + intros Hw. apply IH in Hw. etrans; [|exact Hw]. by apply insert_subseteq.
Qed.

(** A directory that was made is there afterwards. *)
Lemma mkdir_walk_ok perm seen todo ns ns' :
  mkdir_walk perm seen todo ns = (Ok tt, ns') →
  ∃ p, ns' !! (seen ++ todo) = Some (NDir p).
Proof.
  revert seen ns. induction todo as [|c todo IH]; intros seen ns; simpl.
  - rewrite app_nil_r.
    destruct (ns !! seen) as [[]|] eqn:E; intros [= <-]; eauto.
    eexists. apply lookup_insert_eq.
  - replace (seen ++ c :: todo) with ((seen ++ [c]) ++ todo)
      by (by rewrite <- app_assoc).
    destruct (ns !! seen) as [[]|] eqn:E; try done; apply IH.
Qed.


Lemma mkdir_walk_no_panic perm seen todo ns msg ns' :
  mkdir_walk perm seen todo ns ≠ (Panic msg, ns').
Proof.
  revert seen ns. induction todo as [|c todo IH]; intros seen ns; simpl;
    destruct (ns !! seen) as [[]|]; try done; apply IH.
Qed.

(** Only directories are made, and only where nothing was. *)
Lemma mkdir_walk_new perm seen todo ns r ns' q n :
  mkdir_walk perm seen todo ns = (r, ns') → ns' !! q = Some n →
  ns !! q = Some n ∨ (ns !! q = None ∧ n = NDir perm).
Proof.
  revert seen ns. induction todo as [|c todo IH]; intros seen ns; simpl.
  - destruct (ns !! seen) as [[]|] eqn:E; intros [= <- <-] Hq; eauto.
    destruct (decide (seen = q)) as [->|Hne].
    + rewrite lookup_insert_eq in Hq. injection Hq as <-. eauto.
    + rewrite lookup_insert_ne in Hq by done. eauto.
  - destruct (ns !! seen) as [[]|] eqn:E; try (intros [= <- <-]; eauto; fail).
    + apply IH.
    + intros Hw Hq. destruct (IH _ _ Hw Hq) as [H1|[H1 ->]].
      * destruct (decide (seen = q)) as [->|Hne].
        -- rewrite lookup_insert_eq in H1. injection H1 as <-. eauto.
        -- rewrite lookup_insert_ne in H1 by done. eauto.
      * right. split; [|done].
        destruct (decide (seen = q)) as [->|Hne]; [done|].
        by rewrite lookup_insert_ne in H1.
Qed.

Lemma mkdir_walk_file perm seen todo ns r ns' q i :
  mkdir_walk perm seen todo ns = (r, ns') →
  ns' !! q = Some (NFile i) ↔ ns !! q = Some (NFile i).
Proof.
  intros Hw. split.
  - intros Hq. by destruct (mkdir_walk_new _ _ _ _ _ _ _ _ Hw Hq) as [?|[_ ?]].
  - intros Hq. eapply lookup_weaken; [exact Hq|]. by eapply mkdir_walk_mono.
Qed.
End mkdir_walk.

Section handlers.
Import filesystem.

Lemma handleDir_unfold hdr r root w :
  handleDir hdr r root w =
  let '(res, ns) := mkdir_walk (Z.ldiff dirPerm (umask w)) []
                      (Join [root; tar.Name hdr]) (names w) in
  (res, set_names ns w).
Proof. reflexivity. Qed.

Lemma handleReg_unfold hdr r root w :
  let target := Join [root; tar.Name hdr] in
  let m := Z.land (FileMode (tar.Mode hdr)) 511 in
  handleReg hdr r root w =
  match mkdir_walk (Z.ldiff dirPerm (umask w)) [] (Dir target) (names w) with
  | (Ok _, ns) =>
      match ns !! target with
      | Some (NFile i) =>
          (copy_result r,
           World ns (<[i := Inode m (r_bytes r)]> (inodes w)) (next_ino w)
                 (umask w) (stdout w) (requests w))
      | Some (NDir _) => (Err (Errno EISDIR), set_names ns w)
      | Some (NSymlink _) => (Err (Errno ELOOP), set_names ns w)
      | None =>
          (copy_result r,
           World (<[target := NFile (next_ino w)]> ns)
                 (<[next_ino w := Inode m (r_bytes r)]> (inodes w))
                 (S (next_ino w)) (umask w) (stdout w) (requests w))
      end
  | (Err e, ns) => (Err e, set_names ns w)
  | (Panic s, ns) => (Panic s, set_names ns w)
  end.
Proof.
  intros target m. unfold handleReg, bind, os_MkdirAll. fold target.
  destruct (mkdir_walk _ _ _ _) as [[[]|e|s] ns] eqn:Hmk; try done.
  apply mkdir_walk_ok in Hmk as [p Hp]. simpl in Hp.
  unfold os_Create, parent_check. cbn -[Z.ldiff Z.land]. rewrite Hp.
  destruct (ns !! target) as [[q|i|l]|] eqn:Ht; try done.
  - unfold os_Chmod, io_Copy, copy_result, get_inode.
    cbn -[Z.ldiff Z.land]. rewrite Ht. cbn -[Z.ldiff Z.land].
    rewrite !lookup_insert_eq. cbn -[Z.ldiff Z.land]. rewrite !insert_insert_eq.
    by destruct (r_err r).
  - unfold os_Chmod, io_Copy, copy_result, get_inode.
    cbn -[Z.ldiff Z.land]. rewrite lookup_insert_eq. cbn -[Z.ldiff Z.land].
    rewrite !lookup_insert_eq. cbn -[Z.ldiff Z.land]. rewrite !insert_insert_eq.
    by destruct (r_err r).
Qed.
End handlers.




Section replay.
Import filesystem.
















End replay.

Section last_write.
Import filesystem.






End last_write.

Section hard_links.
Import filesystem.

(** Where [mkdir_walk] makes something, it is on the way to the
    directory asked for. *)
Lemma mkdir_walk_keys perm seen todo ns r ns' q n :
  mkdir_walk perm seen todo ns = (r, ns') →
  ns' !! q = Some n → ns !! q = None →
  ∃ k, q = seen ++ take k todo.
Proof.
  revert seen ns. induction todo as [|c todo IH]; intros seen ns; simpl.
  - destruct (ns !! seen) as [[]|] eqn:E; intros [= <- <-] Hq Hnone;
      try congruence.
    destruct (decide (seen = q)) as [<-|Hne].
    + exists 0. by rewrite app_nil_r.
    + rewrite lookup_insert_ne in Hq by done. congruence.
  - assert (∀ ns0, mkdir_walk perm (seen ++ [c]) todo ns0 = (r, ns') →
                   ns' !! q = Some n → ns0 !! q = None →
                   ∃ k, q = seen ++ take k (c :: todo)) as Hrec.
    { intros ns0 Hw Hq Hnone. destruct (IH _ _ Hw Hq Hnone) as [k ->].
      exists (S k). by rewrite <- app_assoc. }
    destruct (ns !! seen) as [[]|] eqn:E;
      try (intros [= <- <-] Hq Hnone; congruence).
    + apply Hrec.
    + intros Hw Hq Hnone. destruct (decide (seen = q)) as [<-|Hne].
      * exists 0. by rewrite app_nil_r.
      * apply (Hrec _ Hw Hq). by rewrite lookup_insert_ne.
Qed.

Lemma length_Dir (p : path) : List.length (Dir p) = pred (List.length p).
Proof.
  unfold Dir. rewrite removelast_firstn_len, length_take. lia.
Qed.

(** [os.Remove] touches nothing but the name it is given. *)
Lemma os_Remove_names p w r w' :
  os_Remove p w = (r, w') →
  (∀ msg, r ≠ Panic msg)
  ∧ (w' = w ∨ w' = set_names (delete p (names w)) w).
Proof.
  unfold os_Remove. destruct (names w !! p) as [[]|]; try (intros [= <- <-]; eauto).
  destruct p; [intros [= <- <-]; eauto|].
  case_decide; intros [= <- <-]; eauto.
Qed.

(** A link entry whose target is not there fails. *)
Lemma handleLink_missing_target hdr r root w res w' :
  handleLink hdr r root w = (res, w') →
  names w !! Join [root; tar.Linkname hdr] = None →
  ∃ e, res = Err e.
Proof.
  unfold handleLink, bind, ignore_err, os_MkdirAll.
  destruct (mkdir_walk _ _ _ _) as [r0 ns] eqn:Hmk.
  destruct r0 as [[]|e|msg]; [|intros [= <- <-]; eauto|].
  - destruct (os_Remove _ _) as [r1 w1] eqn:Hrm.
    apply os_Remove_names in Hrm as [Hnp Hw1].
    intros Hlink Hnone.
    assert (names w1 !! Join [root; tar.Linkname hdr] = None
            ∨ ∃ perm, names w1 !! Join [root; tar.Linkname hdr] = Some (NDir perm))
      as Hl.
    { destruct (ns !! Join [root; tar.Linkname hdr]) as [n|] eqn:El.
      - destruct (mkdir_walk_new _ _ _ _ _ _ _ _ Hmk El) as [?|[_ ->]];
          [congruence|].
        destruct Hw1 as [->| ->]; simpl; [eauto|].
        destruct (decide (Join [root; tar.Name hdr] = Join [root; tar.Linkname hdr]))
          as [->|Hne].
        + left. apply lookup_delete_eq.
        + right. rewrite lookup_delete_ne by done. eauto.
      - left. destruct Hw1 as [->| ->]; simpl; [done|].
        apply lookup_delete_None. by right. }
    assert (os_Link (Join [root; tar.Linkname hdr]) (Join [root; tar.Name hdr]) w1
            = (res, w')) as Hlk.
    { destruct r1; try done. by destruct (Hnp msg). }
    unfold os_Link in Hlk.
    destruct Hl as [Hl|[perm Hl]]; rewrite Hl in Hlk; injection Hlk as <- <-; eauto.
  - by apply mkdir_walk_no_panic in Hmk.
Qed.

(** A link entry that is extracted leaves the destination and the link
    target as two names of the same thing. *)
Lemma handleLink_ok hdr r root w w' :
  handleLink hdr r root w = (Ok tt, w') →
  let target := Join [root; tar.Name hdr] in
  let linkTarget := Join [root; tar.Linkname hdr] in
  ∃ n, names w !! linkTarget = Some n
       ∧ (∀ perm, n ≠ NDir perm)
       ∧ names w' !! target = Some n
       ∧ names w' !! linkTarget = Some n
       ∧ inodes w' = inodes w
       ∧ target ≠ linkTarget.
Proof.
  intros Hrun target linkTarget. revert Hrun.
  unfold handleLink, bind, ignore_err, os_MkdirAll.
  fold target. fold linkTarget.
  destruct (mkdir_walk _ _ _ _) as [r0 ns] eqn:Hmk.
  destruct r0 as [[]|e|msg]; [|done..].
  destruct (os_Remove _ _) as [r1 w1] eqn:Hrm.
  apply os_Remove_names in Hrm as [Hnp Hw1].
  intros Hlink.
  assert (os_Link linkTarget target w1 = (Ok tt, w')) as Hlk.
  { by destruct r1. }
  clear Hlink. unfold os_Link, parent_check in Hlk.
  destruct (names w1 !! linkTarget) as [n|] eqn:El; [|done].
  assert (∀ perm, n ≠ NDir perm) as Hnd by (intros perm ->; done).
  assert (match
      match names w1 !! Dir target with
      | Some (NDir _) => None
      | Some _ => Some (Errno ENOTDIR)
      | None => Some (Errno ENOENT)
      end
    with
    | Some e => (Err e, w1)
    | None =>
        match names w1 !! target with
        | Some _ => (Err (Errno EEXIST), w1)
        | None => (Ok tt, set_names (<[target:=n]> (names w1)) w1)
        end
    end = (Ok tt, w')) as Hlk' by (by destruct n).
  clear Hlk.
  destruct (match names w1 !! Dir target with
            | Some (NDir _) => None
            | Some _ => Some (Errno ENOTDIR)
            | None => Some (Errno ENOENT)
            end); [done|].
  destruct (names w1 !! target) eqn:Et; [done|]. injection Hlk' as <-.
  assert (target ≠ linkTarget) as Hne by congruence.
  assert (ns !! linkTarget = Some n) as Hns.
  { destruct Hw1 as [->| ->]; simpl in El; [done|].
    by apply lookup_delete_Some in El as [_ ?]. }
  exists n. split.
  { destruct (mkdir_walk_new _ _ _ _ _ _ _ _ Hmk Hns) as [?|[_ ->]]; [done|].
    by destruct (Hnd (Z.ldiff dirPerm (umask w))). }
  split; [done|]. simpl. split; [apply lookup_insert_eq|].
  split; [by rewrite lookup_insert_ne|]. split; [|done].
  by destruct Hw1 as [->| ->].
Qed.

(** What stands at the destination of a link entry is replaced. *)
Lemma handleLink_replaces hdr r root w n :
  let target := Join [root; tar.Name hdr] in
  let linkTarget := Join [root; tar.Linkname hdr] in
  target ≠ [] → target ≠ linkTarget →
  names w !! linkTarget = Some n → (∀ perm, n ≠ NDir perm) →
  (os_MkdirAll (Dir target) dirPerm w).1 = Ok tt →
  replaceable w target →
  (handleLink hdr r root w).1 = Ok tt.
Proof.
  intros target linkTarget Hroot Hne Hl Hnd Hmk Hrep.
  unfold handleLink, bind, ignore_err. fold target. fold linkTarget.
  unfold os_MkdirAll in *.
  destruct (mkdir_walk _ _ _ _) as [r0 ns] eqn:Emk. simpl in Hmk. subst r0.
  pose proof (mkdir_walk_mono _ _ _ _ _ _ Emk) as Hmono.
  assert (Dir target ≠ target) as Hdt.
  { intros Heq. apply (f_equal List.length) in Heq. rewrite length_Dir in Heq.
    destruct target; [done|]. simpl in Heq. lia. }
  assert (∀ q n', ns !! q = Some n' → names w !! q = None →
                  List.length q < List.length target) as Hnew.
  { intros q n' Hq Hnone.
    destruct (mkdir_walk_keys _ _ _ _ _ _ _ _ Emk Hq Hnone) as [k ->].
    simpl. rewrite length_take, length_Dir.
    destruct target; [done|]. simpl. lia. }
  assert (ns !! target = names w !! target) as Ht.
  { destruct (names w !! target) as [x|] eqn:E.
    - by eapply lookup_weaken.
    - destruct (ns !! target) as [x|] eqn:E'; [|done].
      pose proof (Hnew _ _ E' E). lia. }
  assert (∀ perm, ns !! target = Some (NDir perm) → is_empty_dir ns target) as Hemp.
  { intros perm Hd. rewrite Ht in Hd. specialize (Hrep _ Hd).
    intros q n' Hq. destruct (names w !! q) as [x|] eqn:E.
    - by eapply Hrep.
    - pose proof (Hnew _ _ Hq E) as Hlen. unfold child_name.
      rewrite decide_False; [done|]. intros [Hq0 Hdq].
      apply (f_equal List.length) in Hdq. rewrite length_Dir in Hdq.
      destruct q; [done|]. simpl in *. lia. }
  destruct (os_Remove target (set_names ns w)) as [r1 w1] eqn:Hrm.
  assert ((∀ msg, r1 ≠ Panic msg) ∧ names w1 !! target = None
          ∧ ∀ q, q ≠ target → names w1 !! q = ns !! q) as (Hnp & Hgone & Hrest).
  { revert Hrm. unfold os_Remove. simpl.
    destruct (ns !! target) as [[perm|i|l]|] eqn:E.
    - destruct target eqn:Etg; [done|]. rewrite <- Etg in *.
      rewrite decide_True by eauto. intros [= <- <-]. simpl.
      split; [done|]. split; [apply lookup_delete_eq|].
      intros q Hq. by rewrite lookup_delete_ne.
    - intros [= <- <-]. simpl. split; [done|]. split; [apply lookup_delete_eq|].
      intros q Hq. by rewrite lookup_delete_ne.
    - intros [= <- <-]. simpl. split; [done|]. split; [apply lookup_delete_eq|].
      intros q Hq. by rewrite lookup_delete_ne.
    - by intros [= <- <-]. }
  assert ((os_Link linkTarget target w1).1 = Ok tt) as Hlk.
  { unfold os_Link, parent_check.
    rewrite (Hrest linkTarget) by done.
    rewrite (lookup_weaken _ _ _ _ Hl Hmono).
    rewrite (Hrest (Dir target)) by done.
    destruct (mkdir_walk_ok _ _ _ _ _ Emk) as [perm Hp]. simpl in Hp.
    rewrite Hp, Hgone. destruct n; try done. by destruct (Hnd perm0). }
  destruct r1; try done. by destruct (Hnp msg).
Qed.
(** A directory that holds something is not removed, and the link
    fails on it. *)
Lemma handleLink_full_directory hdr r root w perm n :
  let target := Join [root; tar.Name hdr] in
  let linkTarget := Join [root; tar.Linkname hdr] in
  names w !! target = Some (NDir perm) →
  ¬ is_empty_dir (names w) target →
  names w !! linkTarget = Some n → (∀ p, n ≠ NDir p) →
  (os_MkdirAll (Dir target) dirPerm w).1 = Ok tt →
  ∃ w', handleLink hdr r root w = (Err (Errno EEXIST), w')
        ∧ names w' !! target = Some (NDir perm)
        ∧ inodes w' = inodes w
        ∧ ∀ q x, names w !! q = Some x → names w' !! q = Some x.
Proof.
  intros target linkTarget Ht Hfull Hl Hnd Hmk.
  unfold handleLink, bind, ignore_err. fold target. fold linkTarget.
  unfold os_MkdirAll in *.
  destruct (mkdir_walk _ _ _ _) as [r0 ns] eqn:Emk. cbn [fst] in Hmk. subst r0.
  pose proof (mkdir_walk_mono _ _ _ _ _ _ Emk) as Hmono.
  pose proof (lookup_weaken _ _ _ _ Ht Hmono) as Hnt.
  assert (os_Remove target (set_names ns w)
          = (Err (Errno (match target with [] => EBUSY | _ => ENOTEMPTY end)),
             set_names ns w)) as ->.
  { unfold os_Remove. cbn [names set_names]. rewrite Hnt.
    destruct target eqn:Etg; [done|]. rewrite <- Etg in *.
    rewrite decide_False; [done|]. intros Hemp. apply Hfull.
    intros q x Hq. apply (Hemp q x). by eapply lookup_weaken. }
  exists (set_names ns w). split.
  - unfold os_Link, parent_check. cbn [names set_names].
    rewrite (lookup_weaken _ _ _ _ Hl Hmono), Hnt.
    destruct (mkdir_walk_ok _ _ _ _ _ Emk) as [p Hp]. simpl in Hp. rewrite Hp.
    destruct n; try done. by destruct (Hnd perm0).
  - cbn [names set_names inodes]. split; [done|]. split; [done|].
    intros q x Hq. by eapply lookup_weaken.
Qed.

(** An entry that links a path to itself removes the file that is
    there, and fails. *)
Lemma handleLink_to_itself hdr r root w i :
  let target := Join [root; tar.Name hdr] in
  Join [root; tar.Linkname hdr] = target →
  names w !! target = Some (NFile i) →
  (os_MkdirAll (Dir target) dirPerm w).1 = Ok tt →
  ∃ w', handleLink hdr r root w = (Err (Errno ENOENT), w')
        ∧ names w' !! target = None.
Proof.
  intros target Hself Hfile Hmk.
  unfold handleLink, bind, ignore_err. fold target. rewrite Hself.
  unfold os_MkdirAll in *.
  destruct (mkdir_walk _ _ _ _) as [r0 ns] eqn:Emk. cbn [fst] in Hmk. subst r0.
  pose proof (mkdir_walk_mono _ _ _ _ _ _ Emk) as Hmono.
  pose proof (lookup_weaken _ _ _ _ Hfile Hmono) as Hns.
  unfold os_Remove. cbn [names set_names]. rewrite Hns.
  unfold os_Link. cbn [names set_names]. rewrite lookup_delete_eq.
  eexists. split; [done|]. cbn [names set_names]. apply lookup_delete_eq.
Qed.
End hard_links.


Section fs_only.
Import filesystem.

Lemma fs_only_ret {A} (a : A) : fs_only (ret a).
Proof. by intros w r w' [= <- <-]. Qed.

Lemma fs_only_fail {A} e : fs_only (@fail A e).
Proof. by intros w r w' [= <- <-]. Qed.

Lemma fs_only_bind {A B} (m : M A) (k : A → M B) :
  fs_only m → (∀ a, fs_only (k a)) → fs_only (bind m k).
Proof.
  intros Hm Hk w r w'. unfold bind. destruct (m w) as [r1 w1] eqn:E.
  destruct (Hm _ _ _ E) as (Hnp & Hout & Hreq).
  destruct r1 as [a|e|msg].
  - intros E2. destruct (Hk a _ _ _ E2) as (? & ? & ?).
    repeat split; [done|congruence..].
  - by intros [= <- <-].
  - by destruct (Hnp msg).
Qed.

Lemma fs_only_wrap {A} ctx (m : M A) : fs_only m → fs_only (wrap ctx m).
Proof.
  intros Hm w r w'. unfold wrap. destruct (m w) as [r1 w1] eqn:E.
  destruct (Hm _ _ _ E) as (Hnp & Hout & Hreq).
  destruct r1; intros [= <- <-]; done.
Qed.

Lemma fs_only_ignore_err {A} (m : M A) : fs_only m → fs_only (ignore_err m).
Proof.
  intros Hm w r w'. unfold ignore_err. destruct (m w) as [r1 w1] eqn:E.
  destruct (Hm _ _ _ E) as (Hnp & Hout & Hreq).
  destruct r1 as [a|e|msg]; intros [= <- <-]; try done. by destruct (Hnp msg).
Qed.

Lemma fs_only_MkdirAll p perm : fs_only (os_MkdirAll p perm).
Proof.
  intros w r w'. unfold os_MkdirAll.
  destruct (mkdir_walk _ _ _ _) as [r0 ns] eqn:E. intros [= <- <-].
  split; [|done]. intros msg ->. by apply mkdir_walk_no_panic in E.
Qed.

Lemma fs_only_Create p : fs_only (os_Create p).
Proof.
  intros w r w'. unfold os_Create.
  destruct (parent_check w p); [by intros [= <- <-]|].
  by destruct (names w !! p) as [[]|]; intros [= <- <-].
Qed.

Lemma fs_only_Chmod p mode : fs_only (os_Chmod p mode).
Proof.
  intros w r w'. unfold os_Chmod.
  by destruct (names w !! p) as [[]|]; intros [= <- <-].
Qed.

Lemma fs_only_Copy i r : fs_only (io_Copy i r).
Proof.
  intros w res w'. unfold io_Copy. by destruct (r_err r); intros [= <- <-].
Qed.

Lemma fs_only_Remove p : fs_only (os_Remove p).
Proof.
  intros w r w' E. destruct (os_Remove_names _ _ _ _ E) as [Hnp [->| ->]]; done.
Qed.

Lemma fs_only_Symlink old new : fs_only (os_Symlink old new).
Proof.
  intros w r w'. unfold os_Symlink. destruct old; [by intros [= <- <-]|].
  destruct (parent_check w new); [by intros [= <- <-]|].
  by destruct (names w !! new); intros [= <- <-].
Qed.

Lemma fs_only_Link old new : fs_only (os_Link old new).
Proof.
  intros w r w'. unfold os_Link.
  destruct (names w !! old) as [[]|]; try (by intros [= <- <-]);
    destruct (parent_check w new); try (by intros [= <- <-]);
    by destruct (names w !! new); intros [= <- <-].
Qed.

Lemma fs_only_Open p : fs_only (os_Open p).
Proof.
  intros w r w'. unfold os_Open.
  by destruct (names w !! p) as [[]|]; intros [= <- <-].
Qed.

Lemma fs_only_handler flag h hdr r root :
  handlers flag = Some h → fs_only (h hdr r root).
Proof.
  unfold handlers. repeat case_match; intros [= <-].
  - apply fs_only_MkdirAll.
  - apply fs_only_bind; [apply fs_only_MkdirAll|intros _].
    apply fs_only_bind; [apply fs_only_Create|intros i].
    apply fs_only_bind; [apply fs_only_Chmod|intros _]. apply fs_only_Copy.
  - apply fs_only_bind; [apply fs_only_MkdirAll|intros _].
    apply fs_only_bind; [apply fs_only_ignore_err, fs_only_Remove|intros _].
    apply fs_only_Symlink.
  - apply fs_only_bind; [apply fs_only_MkdirAll|intros _].
    apply fs_only_bind; [apply fs_only_ignore_err, fs_only_Remove|intros _].
    apply fs_only_Link.
Qed.

Lemma fs_only_handle_entries es trailer root :
  fs_only (handle_entries es trailer root).
Proof.
  induction es as [|e es IH]; simpl.
  - destruct trailer; [apply fs_only_fail|apply fs_only_ret].
  - destruct (handlers _) as [h|] eqn:Hh; [|apply fs_only_fail].
    apply fs_only_bind; [|by intros _].
    apply fs_only_wrap. by eapply fs_only_handler.
Qed.

Context `{Archives}.

(** What [extractLayer] prints: the line that announces the layer, and
    a second line when it returns nil. *)
Lemma extractLayer_stdout layerPath targetRoot w r w' :
  extractLayer layerPath targetRoot w = (r, w') →
  (∀ msg, r ≠ Panic msg)
  ∧ requests w' = requests w
  ∧ ∃ done_line,
      stdout w' = stdout w ++ extracting_line layerPath :: done_line
      ∧ extracting_lines done_line = [].
Proof.
  unfold extractLayer, bind at 1, print at 1.
  set (w0 := set_stdout _ w).
  assert (fs_only (wrap "failed to open layer file" (os_Open layerPath))) as Hopen
    by apply fs_only_wrap, fs_only_Open.
  unfold bind at 1.
  destruct (wrap _ (os_Open layerPath) w0) as [r1 w1] eqn:E1.
  destruct (Hopen _ _ _ E1) as (Hnp1 & Ho1 & Hr1).
  destruct r1 as [file|e|msg]; [|intros [= <- <-]|by destruct (Hnp1 msg)].
  2:{ split; [done|]. split; [by rewrite Hr1|].
      exists []. by rewrite Ho1. }
  assert (fs_only (wrap "failed to create gzip reader" (gzip_NewReader file)))
    as Hgz.
  { apply fs_only_wrap. unfold gzip_NewReader.
    destruct file; [|apply fs_only_fail].
    destruct (gunzip data); [apply fs_only_fail|apply fs_only_ret]. }
  unfold bind at 1.
  destruct (wrap _ (gzip_NewReader file) w1) as [r2 w2] eqn:E2.
  destruct (Hgz _ _ _ E2) as (Hnp2 & Ho2 & Hr2).
  destruct r2 as [tarReader|e|msg]; [|intros [= <- <-]|by destruct (Hnp2 msg)].
  2:{ split; [done|]. split; [by rewrite Hr2, Hr1|].
      exists []. by rewrite Ho2, Ho1. }
  unfold bind at 1.
  destruct (wrap _ (handleTarHeader tarReader targetRoot) w2) as [r3 w3] eqn:E3.
  destruct (fs_only_wrap _ _ (fs_only_handle_entries _ _ _) _ _ _ E3)
    as (Hnp3 & Ho3 & Hr3).
  destruct r3 as [[]|e|msg]; [|intros [= <- <-]|by destruct (Hnp3 msg)].
  2:{ split; [done|]. split; [by rewrite Hr3, Hr2, Hr1|].
      exists []. by rewrite Ho3, Ho2, Ho1. }
  unfold bind, print, ret. intros [= <- <-]. simpl.
  split; [done|]. split; [by rewrite Hr3, Hr2, Hr1|].
  eexists [_]. rewrite Ho3, Ho2, Ho1. simpl. rewrite <- app_assoc. split; [done|].
  reflexivity.
Qed.

(** The loop of [BuildFromLayers] returns nil whatever [extractLayer]
    returned, and starts the layer files of the listing in order. *)
Lemma build_loop_trace files layersDir targetRoot w r w' :
  build_loop files layersDir targetRoot w = (r, w') →
  r = Ok tt
  ∧ requests w' = requests w
  ∧ ∃ out, stdout w' = stdout w ++ out
           ∧ extracting_lines out
             = List.map (λ name, extracting_line (Join [layersDir; name]))
                        (layer_files files).
Proof.
  revert w. induction files as [|name files IH]; intros w; simpl.
  - intros [= <- <-]. repeat split. exists []. by rewrite app_nil_r.
  - unfold layer_files. simpl. case_decide as Hext.
    + rewrite bool_decide_false by done. apply IH.
    + rewrite bool_decide_true by done. unfold bind, ignore_err.
      destruct (extractLayer _ _ w) as [r1 w1] eqn:E1.
      apply extractLayer_stdout in E1 as (Hnp & Hreq & tail & Hout & Htail).
      intros E2.
      assert (build_loop files layersDir targetRoot w1 = (r, w')) as E2'.
      { destruct r1; try done. by destruct (Hnp msg). }
      destruct (IH _ E2') as (-> & Hreq' & out & Hout' & Hlines).
      split; [done|]. split; [congruence|].
      exists (extracting_line (Join [layersDir; name]) :: tail ++ out).
      split.
      * rewrite Hout', Hout. by rewrite <- app_assoc.
      * unfold extracting_lines in *. cbn [List.filter].
        change (String.prefix "Extracting layer "
                  (extracting_line (Join [layersDir; name]))) with true.
        cbn [List.map]. f_equal. rewrite List.filter_app, Htail. exact Hlines.
Qed.
End fs_only.

(** * Package filesystem: the claims *)

Lemma perm_bits_small mode : (0 ≤ mode ≤ 511)%Z → perm_bits mode = mode.
Proof.
  intros Hm. unfold perm_bits, FileMode.
  rewrite Z.mod_small by lia.
  change 511%Z with (Z.ones 9). rewrite Z.land_ones by lia.
  apply Z.mod_small. lia.
Qed.





(** C8 as stated, refuted: not every entry at the destination is
    removed.  bin/busybox is a file and bin/sh a directory that holds a
    file; the entry that links bin/sh to bin/busybox leaves the directory
    where it is and fails with EEXIST, although its link target exists. *)
Lemma C8_counterexample :
  let out := filesystem.handleLink sample.link_sh (Reader "" None) "/rootfs"
               sample.sh_is_a_directory in
  names sample.sh_is_a_directory !! ["rootfs"; "bin"; "busybox"] = Some (NFile 0)
  ∧ out.1 = Err (Errno EEXIST)
  ∧ names out.2 !! ["rootfs"; "bin"; "sh"] = Some (NDir 493)
  ∧ ¬ links_whatever_is_there sample.link_sh "/rootfs"
        sample.sh_is_a_directory out.1 out.2.
Proof.
  intros out. split; [by vm_compute|]. split; [by vm_compute|].
  split; [by vm_compute|].
  intros Hlink. destruct (Hlink (NFile 0)) as [Hres _]; [by vm_compute|done|].
  by vm_compute in Hres.
Qed.

(** C8, amended: in a file system without symbolic links, the handler of
    a hard-link entry links the destination [targetRoot/Name] to
    [targetRoot/Linkname].  It fails when nothing stands at
    [targetRoot/Linkname].  When it returns nil, the destination and the
    link target are two names of the same file, and no file content was
    touched.  What stood at the destination before is removed rather
    than making the link fail when it is a file, a link or an empty
    directory; a directory that holds something is not removed, and the
    link fails on it with EEXIST.  An entry whose name and link name lead
    to the same path removes the file there and fails. *)
Theorem C8_hard_link_replaces_destination (hdr : tar.Header) (r : reader)
    (root : string) (w w' : world) (res : outcome unit) :
  symlink_free w →
  filesystem.handleLink hdr r root w = (res, w') →
  let target := Join [root; tar.Name hdr] in
  let linkTarget := Join [root; tar.Linkname hdr] in
  (names w !! linkTarget = None → ∃ e, res = Err e)
  ∧ (res = Ok tt →
       ∃ n, names w !! linkTarget = Some n
            ∧ names w' !! target = Some n
            ∧ names w' !! linkTarget = Some n
            ∧ inodes w' = inodes w)
  ∧ (∀ n, target ≠ [] → target ≠ linkTarget →
          names w !! linkTarget = Some n → (∀ perm, n ≠ NDir perm) →
          (os_MkdirAll (Dir target) filesystem.dirPerm w).1 = Ok tt →
          replaceable w target →
          res = Ok tt)
  ∧ (∀ perm n, names w !! target = Some (NDir perm) →
          ¬ is_empty_dir (names w) target →
          names w !! linkTarget = Some n → (∀ p, n ≠ NDir p) →
          (os_MkdirAll (Dir target) filesystem.dirPerm w).1 = Ok tt →
          res = Err (Errno EEXIST) ∧ names w' !! target = Some (NDir perm))
  ∧ (∀ i, linkTarget = target → names w !! target = Some (NFile i) →
          (os_MkdirAll (Dir target) filesystem.dirPerm w).1 = Ok tt →
          res = Err (Errno ENOENT) ∧ names w' !! target = None).
Proof.
  intros _ Hrun target linkTarget. split; [|split; [|split; [|split]]].
  - intros Hnone. by eapply handleLink_missing_target.
  - intros ->. destruct (handleLink_ok _ _ _ _ _ Hrun) as (n & ? & ? & ? & ? & ? & ?).
    by exists n.
  - intros n Hroot Hne Hl Hnd Hmk Hrep.
    pose proof (handleLink_replaces hdr r root w n Hroot Hne Hl Hnd Hmk Hrep) as Hok.
    by rewrite Hrun in Hok.
  - intros perm n Ht Hfull Hl Hnd Hmk.
    destruct (handleLink_full_directory hdr r root w perm n Ht Hfull Hl Hnd Hmk)
      as (w2 & Hrun2 & Hdir & _).
    rewrite Hrun in Hrun2. by injection Hrun2 as -> ->.
  - intros i Hself Hfile Hmk.
    destruct (handleLink_to_itself hdr r root w i Hself Hfile Hmk)
      as (w2 & Hrun2 & Hgone).
    rewrite Hrun in Hrun2. by injection Hrun2 as -> ->.
Qed.

Lemma C8_witness :
  let out := filesystem.handleLink sample.link_sh (Reader "" None) "/rootfs"
               sample.two_files in
  out.1 = Ok tt
  ∧ names out.2 !! ["rootfs"; "bin"; "sh"] = Some (NFile 0)
  ∧ names out.2 !! ["rootfs"; "bin"; "busybox"] = Some (NFile 0)
  ∧ inodes out.2 = inodes sample.two_files.
Proof.
  intros out.
  destruct (C8_hard_link_replaces_destination sample.link_sh (Reader "" None)
              "/rootfs" sample.two_files out.2 out.1) as (_ & Hok & Hrep & _).
  { apply (bool_decide_unpack _). by vm_compute. }
  { unfold out. by destruct (filesystem.handleLink _ _ _ _). }
  assert (out.1 = Ok tt) as Hres.
  { apply (Hrep (NFile 0)).
    - by vm_compute.
    - by vm_compute.
    - by vm_compute.
    - done.
    - by vm_compute.
    - intros perm Hd. by vm_compute in Hd. }
  split; [exact Hres|].
  destruct (Hok Hres) as (n & Hn & Ht & Hl & Hi).
  assert (n = NFile 0) as -> by (vm_compute in Hn; congruence).
  done.
Defined.

(** C1 (as the code behaves): once the layers directory has been listed,
    [BuildFromLayers] returns nil whatever [extractLayer] returned for
    the layer files: an extraction error never reaches the caller. *)
Theorem C1_extraction_errors_dropped `{Archives} (layersDir targetRoot : string)
    (w w0 : world) (files : list string) :
  os_ReadDir (Join [layersDir]) w = (Ok files, w0) →
  (filesystem.BuildFromLayers layersDir targetRoot w).1 = Ok tt.
Proof.
  intros Hls. unfold filesystem.BuildFromLayers, bind. rewrite Hls.
  destruct (filesystem.build_loop _ _ _ _) as [r w'] eqn:E.
  by apply build_loop_trace in E as [-> _].
Qed.

Lemma C1_witness :
  let A := sample.archives [("DEV", sample.layerDev)] in
  (@filesystem.extractLayer A ["layers"; "dev.tar.gz"] "/rootfs"
     sample.one_bad_layer).1
  = Err (Wrapf "failed to handle tar header"
           (Errorf "unknown tar entry type: 3"))
  ∧ (@filesystem.BuildFromLayers A "/layers" "/rootfs" sample.one_bad_layer).1
    = Ok tt.
Proof.
  intros A. split; [by vm_compute|].
  apply (@C1_extraction_errors_dropped A "/layers" "/rootfs"
           sample.one_bad_layer sample.one_bad_layer ["dev.tar.gz"]).
  by vm_compute.
Defined.

(** * Package dockerfile *)

Section dockerfile.
Import dockerfile.

Lemma Split_no_sep s sep : contains sep s = false → Split s sep = [s].
Proof.
  induction s as [|c s IH]; [done|]. simpl.
  rewrite (Ascii.eqb_sym sep c).
  destruct (Ascii.eqb c sep); [done|]. simpl. intros Hc. by rewrite IH.
Qed.

Lemma parseFrom_untagged kw img :
  contains ":" img = false →
  parseFrom [kw; img] = Panic "index out of range [1] with length 1".
Proof. intros Hc. unfold parseFrom. simpl. by rewrite Split_no_sep. Qed.

Lemma append_empty_r (s : string) : s +:+ "" = s.
Proof.
  induction s as [|c s IH]; [done|].
  change (String c (s +:+ "") = String c s). by rewrite IH.
Qed.

Lemma append_cons_r (s : string) c x :
  (s +:+ String c "") +:+ x = s +:+ String c x.
Proof.
  induction s as [|d s IH]; [done|].
  change (String d ((s +:+ String c "") +:+ x) = String d (s +:+ String c x)).
  by rewrite IH.
Qed.

Lemma fields_go_cur cur s :
  cur ≠ "" → ∃ x l, fields_go cur s = (cur +:+ x) :: l.
Proof.
  revert cur. induction s as [|c s IH]; intros cur Hcur; simpl.
  - destruct cur as [|a cur]; [done|]. exists "", [].
    by rewrite append_empty_r.
  - destruct (isSpace c).
    + destruct cur as [|a cur]; [done|]. exists "", (fields_go "" s).
      by rewrite append_empty_r.
    + destruct (IH (cur +:+ String c "")) as (x & l & ->).
      { by destruct cur. }
      exists (String c x), l. by rewrite append_cons_r.
Qed.

Lemma Fields_comment line kw l :
  HasPrefix line "#" = true → Fields line = kw :: l → kw ≠ "FROM".
Proof.
  destruct line as [|c line]; [done|]. unfold HasPrefix, Fields.
  change (String.prefix "#" (String c line))
    with (if Ascii.ascii_dec "#" c then String.prefix "" line else false).
  destruct (Ascii.ascii_dec "#" c) as [<-|]; [|done].
  intros _. cbn [fields_go]. change (isSpace "#") with false. cbv iota.
  destruct (fields_go_cur ("" +:+ "#") line) as (x & l' & ->); [done|].
  by intros [= <- _].
Qed.
(** A FROM line without tag separator makes the loop of [Parse] panic,
    whatever was parsed before it and whatever follows. *)
Lemma parse_lines_untagged text rest acc img :
  (N.of_nat (String.length text) < MaxScanTokenSize)%N →
  Fields (TrimSpace (dropCR text)) = ["FROM"; img] →
  contains ":" img = false →
  parse_lines (text :: rest) acc = Panic "index out of range [1] with length 1".
Proof.
  intros Hlen Hf Hc. cbn [parse_lines].
  destruct (N.leb_spec MaxScanTokenSize (N.of_nat (String.length text)));
    [lia|].
  destruct (String.eqb_spec (TrimSpace (dropCR text)) "") as [He|_].
  { by rewrite He in Hf. }
  destruct (HasPrefix (TrimSpace (dropCR text)) "#") eqn:Hp.
  { by destruct (Fields_comment _ _ _ Hp Hf). }
  cbn [orb]. rewrite Hf.
  change (lookup "FROM") with (Some parseFrom). cbv beta iota.
  by rewrite parseFrom_untagged.
Qed.
End dockerfile.

(** C10 (as the code behaves): [Parse] is not total. On a Dockerfile
    whose first line is FROM with an image name that holds no ':', it
    neither returns instructions nor an error: [parseFrom] indexes the
    second element of a one-element slice, and the panic leaves [Parse]. *)
Theorem C10_Parse_panics_on_untagged_FROM (path : string) (w : world)
    (content text img : string) (rest : list string) :
  (os_Open (Join [path]) w).1 = Ok (HFile content) →
  dockerfile.scan_lines content = text :: rest →
  (N.of_nat (String.length text) < dockerfile.MaxScanTokenSize)%N →
  dockerfile.Fields (dockerfile.TrimSpace (dockerfile.dropCR text))
    = ["FROM"; img] →
  dockerfile.contains ":" img = false →
  (dockerfile.Parse path w).1 = Panic "index out of range [1] with length 1".
Proof.
  intros Hopen Hscan Hlen Hf Hc. unfold dockerfile.Parse, bind, wrap.
  destruct (os_Open (Join [path]) w) as [r w']. simpl in Hopen. subst r.
  simpl. rewrite Hscan. by eapply parse_lines_untagged.
Qed.

Lemma C10_witness :
  (dockerfile.Parse "/Dockerfile" sample.untagged_dockerfile).1
  = Panic "index out of range [1] with length 1".
Proof.
  apply (C10_Parse_panics_on_untagged_FROM "/Dockerfile"
           sample.untagged_dockerfile "FROM ubuntu" "FROM ubuntu" "ubuntu" []).
  - by vm_compute.
  - by vm_compute.
  - by vm_compute.
  - by vm_compute.
  - by vm_compute.
Defined.

(** * Package container *)

Section container.
Import container.
Context `{Host}.

(** What [attachToCgroup] does: one group is created, with the fixed
    limits, and at most one process is added, the one it was given. *)
Lemma attachToCgroup_trace pid :
  ∃ tail,
    (attachToCgroup pid).1
    = NewSystemd "/" "gocker-container.slice" (-1)
        {| MemoryMax := 1073741824; CPUQuota := 10000; CPUPeriod := 100000 |}
      :: tail
    ∧ (tail = [] ∨ tail = [AddProc pid])
    ∧ (cgroup_NewSystemd = None → tail = [AddProc pid]).
Proof.
  unfold attachToCgroup.
  destruct cgroup_NewSystemd.
  - exists []. split; [done|]. split; [by left|done].
  - destruct (cgroup_AddProc pid); exists [AddProc pid];
      (split; [done|]; split; [by right|done]).
Qed.
End container.

(** C3: when the entrypoint does not exist in the new root, the init
    branch never replaces the process image, and once the root is set up
    it returns the error "entrypoint command does not exist: ...", which
    is none of the wrapped errors of the set-up steps. *)
Theorem C3_missing_entrypoint_is_never_started `{container.Host}
    (rootfs entrypoint : string) (args : list string) :
  IsNotExist (container.os_Stat entrypoint) = true →
  let run := container.startInitProcess rootfs (entrypoint :: args) in
  run.2 ≠ container.Replaced
  ∧ (∀ argv0 argv envv, container.Exec argv0 argv envv ∉ run.1)
  ∧ (container.syscall_Chroot rootfs = None →
     container.syscall_Chdir "/" = None →
     container.syscall_Mount = None →
     run.2 = container.Return
               (Some (Errorf ("entrypoint command does not exist: "
                              +:+ entrypoint)))).
Proof.
  intros Hmissing run. unfold run, container.startInitProcess.
  rewrite Hmissing.
  destruct (container.syscall_Chroot rootfs);
    [split; [done|]; split; [intros ??? Hin; no_such_event Hin|done]|].
  destruct (container.syscall_Chdir "/");
    [split; [done|]; split; [intros ??? Hin; no_such_event Hin|done]|].
  destruct container.syscall_Mount;
    (split; [done|]; split; [intros ??? Hin; no_such_event Hin|done]).
Qed.

Lemma C3_witness :
  let H := sample.host "1" (container.NotStarted (Errno ENOENT)) None None
             ["/bin/sh"] in
  @container.Run H "/tmp/gocker/rootfs/node/alpine" ["/usr/bin/node"; "app.js"]
  = ([container.Chroot "/tmp/gocker/rootfs/node/alpine"; container.Chdir "/";
      container.Mount "proc" "/proc" "proc"; container.Stat "/usr/bin/node"],
     container.Return
       (Some (Errorf "entrypoint command does not exist: /usr/bin/node"))).
Proof.
  intros H.
  destruct (@C3_missing_entrypoint_is_never_started H
              "/tmp/gocker/rootfs/node/alpine" "/usr/bin/node" ["app.js"])
    as (_ & _ & Hret); [by vm_compute|].
  specialize (Hret eq_refl eq_refl eq_refl).
  change (@container.Run H "/tmp/gocker/rootfs/node/alpine"
            ["/usr/bin/node"; "app.js"])
    with (@container.startInitProcess H "/tmp/gocker/rootfs/node/alpine"
            ["/usr/bin/node"; "app.js"]).
  destruct (container.startInitProcess _ _) as [trace fin] eqn:E.
  simpl in Hret. subst fin. f_equal.
  by vm_compute in E; injection E as <-.
Defined.

(** C4: when the child was spawned and attaching it to the resource
    group fails, the supervisor kills that child as its last action and
    returns the attach error; it never waits for the child. *)
Theorem C4_attach_failure_kills_child `{container.Host}
    (rootfs : string) (command : list string) (pid : Z) (e : error) :
  container.Getenv container.initEnv ≠ "1" →
  container.cmd_Start = container.Spawned pid →
  (container.attachToCgroup (container.uint64 pid)).2 = Some e →
  ∃ before,
    container.Run rootfs command
    = (before ++ [container.Kill pid],
       container.Return (Some (Wrapf "failed to apply cgroup" e)))
    ∧ (∀ p, container.Wait p ∉ before)
    ∧ (∀ p, container.Kill p ∉ before).
Proof.
  intros Hsup Hstart Hattach. unfold container.Run.
  destruct (String.eqb_spec (container.Getenv container.initEnv) "1"); [done|].
  rewrite Hstart.
  destruct (attachToCgroup_trace (container.uint64 pid))
    as (tail & Htrace & Htail & _).
  destruct (container.attachToCgroup _) as [attach err]. simpl in *. subst.
  eexists (_ :: _ :: tail). split; [reflexivity|].
  destruct Htail as [-> | ->]; split; intros p Hin; no_such_event Hin.
Qed.

Lemma C4_witness :
  let H := sample.host "" (container.Spawned 4242)
             (Some (Lib "dbus: connection refused")) None [] in
  ∃ before,
    @container.Run H "/tmp/gocker/rootfs/node/alpine" ["/bin/sh"]
    = (before ++ [container.Kill 4242],
       container.Return
         (Some (Wrapf "failed to apply cgroup"
                  (Wrapf "failed to create cgroup"
                     (Lib "dbus: connection refused")))))
    ∧ (∀ p, container.Wait p ∉ before)
    ∧ (∀ p, container.Kill p ∉ before).
Proof.
  intros H.
  apply (@C4_attach_failure_kills_child H "/tmp/gocker/rootfs/node/alpine"
           ["/bin/sh"] 4242).
  - by vm_compute.
  - reflexivity.
  - reflexivity.
Defined.

(** C9: a launch in which the child was spawned creates one resource
    group, with a memory ceiling of 1 GiB and a CPU quota of 10000 over a
    period of 100000 (a tenth), and no other; the only process it adds is
    the spawned child, and it adds it whenever the group was created. *)
Theorem C9_fixed_resource_policy `{container.Host}
    (rootfs : string) (command : list string) (pid : Z) :
  container.Getenv container.initEnv ≠ "1" →
  container.cmd_Start = container.Spawned pid →
  let trace := (container.Run rootfs command).1 in
  (∃ res, container.NewSystemd "/" "gocker-container.slice" (-1) res ∈ trace
          ∧ container.MemoryMax res = (1024 * 1024 * 1024)%Z
          ∧ container.CPUQuota res = 10000%Z
          ∧ container.CPUPeriod res = 100000%Z
          ∧ (10 * container.CPUQuota res = container.CPUPeriod res)%Z
          ∧ ∀ slice group p res',
              container.NewSystemd slice group p res' ∈ trace → res' = res)
  ∧ (∀ p, container.AddProc p ∈ trace → p = container.uint64 pid)
  ∧ (container.cgroup_NewSystemd = None →
     container.AddProc (container.uint64 pid) ∈ trace).
Proof.
  intros Hsup Hstart trace. unfold trace, container.Run.
  destruct (String.eqb_spec (container.Getenv container.initEnv) "1"); [done|].
  rewrite Hstart.
  destruct (attachToCgroup_trace (container.uint64 pid))
    as (tail & Htrace & Htail & Hadd).
  destruct (container.attachToCgroup _) as [attach err]. simpl in Htrace. subst.
  split; [|split].
  - eexists. split.
    { destruct err; simpl; apply list_elem_of_further, list_elem_of_here. }
    do 4 (split; [done|]).
    intros slice group p res' Hin.
    destruct Htail as [-> | ->], err; simpl in Hin;
      repeat (apply elem_of_cons in Hin as [Hin|Hin]; [by simplify_eq|]);
      by apply elem_of_nil in Hin.
  - intros p Hin.
    destruct Htail as [-> | ->], err; simpl in Hin;
      repeat (apply elem_of_cons in Hin as [Hin|Hin]; [by simplify_eq|]);
      by apply elem_of_nil in Hin.
  - intros Hcreated. rewrite (Hadd Hcreated).
    destruct err; simpl; do 2 apply list_elem_of_further; apply list_elem_of_here.
Qed.

Lemma C9_witness :
  let H := sample.host "" (container.Spawned 4242) None None ["/bin/sh"] in
  (@container.Run H "/tmp/gocker/rootfs/node/alpine" ["/bin/sh"]).1
  = [container.Start ["/proc/self/exe"; "Dockerfile"]
       ["PATH=/usr/bin"; "GOCKER_INIT=1"];
     container.NewSystemd "/" "gocker-container.slice" (-1)
       {| container.MemoryMax := 1073741824; container.CPUQuota := 10000;
          container.CPUPeriod := 100000 |};
     container.AddProc 4242; container.Wait 4242]
  ∧ container.AddProc (container.uint64 4242)
    ∈ (@container.Run H "/tmp/gocker/rootfs/node/alpine" ["/bin/sh"]).1.
Proof.
  intros H. split; [by vm_compute|].
  apply (@C9_fixed_resource_policy H "/tmp/gocker/rootfs/node/alpine"
           ["/bin/sh"] 4242); [by vm_compute|reflexivity|reflexivity].
Defined.

(** * Package image *)

Section image.
Import image.
Context `{Registry}.

(** The request [authenticate] sends. *)
Lemma authenticate_ok imageName w token w1 :
  authenticate imageName w = (Ok token, w1) →
  w1 = set_requests
         (requests w
          ++ [Request (authURL_prefix +:+ imageName +:+ authURL_suffix)
                None None]) w.
Proof.
  unfold authenticate, bind, http_Get, http_send, lift, ret, fail.
  destruct (NewRequest_ok _); [|done].
  destruct (http_Do _) as [response| |]; [|done..].
  by destruct (json_AuthResponse _); intros [= _ <-].
Qed.

Lemma find_platform_none ms :
  (∀ m, m ∈ ms →
     ¬ (OS (pd_Platform m) = GOOS ∧ Architecture (pd_Platform m) = GOARCH)) →
  find_platform ms = None.
Proof.
  induction ms as [|m ms IH]; intros Hno; simpl; [done|].
  destruct (String.eqb_spec (OS (pd_Platform m)) GOOS) as [Hos|];
    destruct (String.eqb_spec (Architecture (pd_Platform m)) GOARCH) as [Harch|];
    simpl; try (apply IH; intros m' Hm'; apply Hno; by right).
  destruct (Hno m); [by left|done].
Qed.

Lemma find_platform_some ms digest :
  find_platform ms = Some digest →
  ∃ m, m ∈ ms ∧ pd_Digest m = digest
       ∧ OS (pd_Platform m) = GOOS ∧ Architecture (pd_Platform m) = GOARCH.
Proof.
  induction ms as [|m ms IH]; simpl; [done|].
  destruct (String.eqb_spec (OS (pd_Platform m)) GOOS) as [Hos|];
    destruct (String.eqb_spec (Architecture (pd_Platform m)) GOARCH) as [Harch|];
    simpl; try (intros Hf; destruct (IH Hf) as (m' & ? & ?); exists m';
                split; [by right|done]).
  intros [= <-]. exists m. split; [by left|done].
Qed.
End image.

(** C5: when the manifest list holds no descriptor for the host's
    operating system and architecture, [selectPlatformDigest] returns the
    error "no manifest found for platform os/arch", and [DownloadImage]
    returns that error after two requests, the one for the token and the
    one for the manifest list: no manifest and no layer is requested, and
    nothing is written or printed after the first message. *)
Theorem C5_no_matching_platform_stops_download `{image.Registry}
    (imageName tag dest token : string) (w w1 : world)
    (resp : reader) (ml : image.ManifestList) :
  let listRequest :=
    Request (image.dockerManifestUrl imageName tag)
      (Some ("Bearer " +:+ token)) (Some image.manifestListMediaType) in
  let noPlatform :=
    Errorf ("no manifest found for platform "
            +:+ image.GOOS +:+ "/" +:+ image.GOARCH) in
  image.authenticate imageName w = (Ok token, w1) →
  image.NewRequest_ok (image.dockerManifestUrl imageName tag) = true →
  image.http_Do listRequest = Ok resp →
  image.json_ManifestList (r_bytes resp) = Ok ml →
  (∀ m, m ∈ image.Manifests ml →
     ¬ (image.OS (image.pd_Platform m) = image.GOOS
        ∧ image.Architecture (image.pd_Platform m) = image.GOARCH)) →
  image.selectPlatformDigest imageName tag token w1
  = (Err noPlatform, set_requests (requests w1 ++ [listRequest]) w1)
  ∧ ∃ w2,
      image.DownloadImage imageName tag dest w = (Err noPlatform, w2)
      ∧ requests w2
        = requests w
          ++ [Request (image.authURL_prefix +:+ imageName
                       +:+ image.authURL_suffix) None None;
              listRequest]
      ∧ names w2 = names w ∧ inodes w2 = inodes w
      ∧ stdout w2
        = stdout w ++ ["Using authentication token for image " +:+ imageName].
Proof.
  intros listRequest noPlatform Hauth Hurl Hdo Hjson Hno.
  assert (image.selectPlatformDigest imageName tag token w1
          = (Err noPlatform, set_requests (requests w1 ++ [listRequest]) w1))
    as Hsel.
  { unfold image.selectPlatformDigest, bind, image.http_send, image.lift, ret.
    rewrite Hurl. fold listRequest. rewrite Hdo, Hjson.
    by rewrite (find_platform_none _ Hno). }
  split; [exact Hsel|].
  pose proof (authenticate_ok _ _ _ _ Hauth) as Hw1.
  eexists. split; [|split; [|split; [|split]]].
  - unfold image.DownloadImage, bind at 1. rewrite Hauth.
    unfold bind at 1, print.
    unfold bind at 1.
    match goal with
    | |- context [image.selectPlatformDigest imageName tag token ?w'] =>
        assert (image.selectPlatformDigest imageName tag token w'
                = (Err noPlatform,
                   set_requests (requests w' ++ [listRequest]) w')) as ->
    end.
    { unfold image.selectPlatformDigest, bind, image.http_send, image.lift, ret.
      rewrite Hurl. fold listRequest. rewrite Hdo, Hjson.
      by rewrite (find_platform_none _ Hno). }
    reflexivity.
  - subst w1. simpl. by rewrite <- app_assoc.
  - by subst w1.
  - by subst w1.
  - by subst w1.
Qed.

Lemma C5_witness :
  ∃ w2,
    @image.DownloadImage sample.no_riscv "library/node" "alpine"
      "/tmp/gocker/layers/node/alpine" sample.empty_root
    = (Err (Errorf "no manifest found for platform linux/riscv64"), w2)
    ∧ List.map req_url (requests w2)
      = ["https://auth.docker.io/token?service=registry.docker.io&scope=repository:library/node:pull";
         "https://registry-1.docker.io/v2/library/node/manifests/alpine"]
    ∧ names w2 = names sample.empty_root.
Proof.
  destruct (@C5_no_matching_platform_stops_download sample.no_riscv
              "library/node" "alpine" "/tmp/gocker/layers/node/alpine" "tok"
              sample.empty_root
              (set_requests
                 [Request (image.authURL_prefix +:+ "library/node"
                           +:+ image.authURL_suffix) None None]
                 sample.empty_root)
              (Reader "LIST" None)
              {| image.Manifests :=
                   [sample.descriptor "linux" "amd64" "sha256:1";
                    sample.descriptor "linux" "arm64" "sha256:2"] |})
    as (_ & w2 & Hrun & Hreq & Hnames & _).
  - by vm_compute.
  - reflexivity.
  - by vm_compute.
  - by vm_compute.
  - intros m Hm [Hos Harch]. simpl in Hm.
    repeat (apply elem_of_cons in Hm as [->|Hm]; [by vm_compute in Harch|]).
    by apply elem_of_nil in Hm.
  - exists w2. split; [exact Hrun|]. split; [|exact Hnames].
    rewrite Hreq. by vm_compute.
Defined.

(** * Package build *)

(** C6 as stated, refuted: the reuse is not decided by a check that the
    directory holds something.  An empty directory at the path of the
    root file system is reused too. *)
Lemma C6_counterexample :
  @reuses (sample.archives []) sample.no_riscv
    (build.NewRunner []) "node" "alpine" sample.empty_rootfs
  ∧ ¬ present_and_non_empty sample.empty_rootfs
        (Join [rootfs_of "node" "alpine"]).
Proof.
  split.
  - eexists. split; [by vm_compute|]. done.
  - intros [_ Hne]. apply Hne. apply (bool_decide_unpack _). by vm_compute.
Qed.

(** C6, amended: whenever [os.Stat] of the path of the root file system
    does not report that it does not exist (whatever is there, an empty
    directory included), [handleFrom] prints its first line, sets the
    path and returns nil: nothing is requested, created or extracted. *)
Theorem C6_existing_rootfs_is_reused `{Archives} `{image.Registry}
    (r : build.Runner) (imageName tag : string) (w : world) :
  IsNotExist (error_of (os_Stat (Join [rootfs_of imageName tag]) w).1) = false →
  build.handleFrom r (dockerfile.FromInstruction imageName tag) w
  = (Ok (build.set_rootfsPath (rootfs_of imageName tag) r),
     set_stdout
       (stdout w ++ ["Building root filesystem for image " +:+ imageName
                     +:+ " tag:" +:+ tag +:+ "..."]) w)
  ∧ reuses r imageName tag w.
Proof.
  intros Hthere.
  assert (build.handleFrom r (dockerfile.FromInstruction imageName tag) w
          = (Ok (build.set_rootfsPath (rootfs_of imageName tag) r),
             set_stdout
               (stdout w ++ ["Building root filesystem for image " +:+ imageName
                             +:+ " tag:" +:+ tag +:+ "..."]) w)) as Hrun.
  { unfold build.handleFrom, bind, print. fold (rootfs_of imageName tag).
    unfold os_Stat in *. simpl in *. by rewrite Hthere. }
  split; [exact Hrun|]. eexists. split; [exact Hrun|]. done.
Qed.

Lemma C6_witness :
  @reuses (sample.archives []) sample.no_riscv
    (build.NewRunner []) "node" "alpine" sample.empty_rootfs.
Proof.
  apply (@C6_existing_rootfs_is_reused (sample.archives []) sample.no_riscv).
  by vm_compute.
Defined.

(** * The order of extraction *)

Section listing_order.
Lemma str_le_trans : Transitive str_le.
Proof.
  unfold str_le, String.leb. intros s1.
  induction s1 as [|a s1 IH]; intros [|b s2] [|c s3]; simpl; try done.
  unfold Ascii.compare.
  destruct (N.compare_spec (N_of_ascii a) (N_of_ascii b)) as [Hab|Hab|Hab];
    destruct (N.compare_spec (N_of_ascii b) (N_of_ascii c)) as [Hbc|Hbc|Hbc];
    destruct (N.compare_spec (N_of_ascii a) (N_of_ascii c)) as [Hac|Hac|Hac];
    try done; try lia.
  apply IH.
Qed.

Lemma str_le_total : Total str_le.
Proof. intros a b. apply String.leb_total. Qed.

Lemma str_le_antisym : AntiSymm eq str_le.
Proof. intros a b. apply String.leb_antisym. Qed.

(** Sorting forgets the order the names came in. *)
Lemma merge_sort_perm (l1 l2 : list string) :
  l1 ≡ₚ l2 → merge_sort str_le l1 = merge_sort str_le l2.
Proof.
  intros Hp. apply (@StronglySorted_unique _ str_le str_le_antisym).
  - apply StronglySorted_merge_sort; [apply str_le_trans|apply str_le_total].
  - apply StronglySorted_merge_sort; [apply str_le_trans|apply str_le_total].
  - by rewrite !merge_sort_Permutation.
Qed.

Lemma merge_sort_sorted (l : list string) :
  StronglySorted str_le l → merge_sort str_le l = l.
Proof.
  intros Hs. apply (@StronglySorted_unique _ str_le str_le_antisym); [|done|].
  - apply StronglySorted_merge_sort; [apply str_le_trans|apply str_le_total].
  - apply merge_sort_Permutation.
Qed.

Lemma ext_scan_suffix (s t e : string) :
  ext_scan t = Some e → ext_scan (s +:+ t) = Some e.
Proof.
  intros Ht. induction s as [|c s IH]; [done|].
  change (ext_scan (String c (s +:+ t)) = Some e). simpl. by rewrite IH.
Qed.

(** Every file that [downloadLayer] writes is a layer file for
    [BuildFromLayers]. *)
Lemma Ext_digestToFilename digest :
  Ext (image.digestToFilename digest) = filesystem.layerFileExt.
Proof.
  unfold Ext, image.digestToFilename.
  by rewrite (ext_scan_suffix _ image.fileExt ".gz").
Qed.

Lemma layer_files_all (files : list string) :
  Forall (λ name, Ext name = filesystem.layerFileExt) files →
  layer_files files = files.
Proof.
  induction 1 as [|name files Hn _ IH]; [done|].
  unfold layer_files in *. simpl. rewrite bool_decide_true by done.
  by rewrite IH.
Qed.
End listing_order.

(** C2 as stated, refuted: for a manifest that lists sha256:b before
    sha256:a, the whole of [handleFrom] succeeds, and the layer sha256:a
    is extracted first; the file both layers write ends with the bytes
    of sha256:b, the first layer of the manifest. *)
Lemma C2_counterexample :
  let run := @build.handleFrom
               (sample.archives [("A", sample.layerA); ("B", sample.layerB)])
               sample.b_before_a (build.NewRunner [])
               (dockerfile.FromInstruction "app" "v1") sample.empty_root in
  is_ok run.1 = true
  ∧ ¬ extracted_in_manifest_order "/tmp/gocker/layers/app/v1"
        ["sha256:b"; "sha256:a"] (stdout run.2)
  ∧ extracted_in_manifest_order "/tmp/gocker/layers/app/v1"
        ["sha256:a"; "sha256:b"] (stdout run.2)
  ∧ file_at run.2 ["tmp"; "gocker"; "rootfs"; "app"; "v1"; "app"; "index.js"]
    = Some (384%Z, "console.log('B')").
Proof.
  intros run. split; [by vm_compute|]. split; [|split].
  - unfold extracted_in_manifest_order. by vm_compute.
  - unfold extracted_in_manifest_order. by vm_compute.
  - by vm_compute.
Qed.

(** C2, amended: [BuildFromLayers] starts the extraction of the layer
    files in the order of their file names, the order in which
    [os.ReadDir] lists them.  For a directory that holds the files of
    the digests of a manifest, this is the order of the manifest when the
    file names of the digests ascend in that order. *)
Theorem C2_layers_extracted_in_file_name_order `{Archives}
    (layersDir targetRoot : string) (digests files : list string)
    (w w' : world) (r : outcome unit) :
  (os_ReadDir (Join [layersDir]) w).1 = Ok files →
  children (names w) (Join [layersDir])
    ≡ₚ List.map image.digestToFilename digests →
  filesystem.BuildFromLayers layersDir targetRoot w = (r, w') →
  ∃ out,
    stdout w' = stdout w ++ out
    ∧ extracting_lines out
      = List.map (λ name, extracting_line (Join [layersDir; name]))
          (merge_sort str_le (List.map image.digestToFilename digests))
    ∧ (StronglySorted str_le (List.map image.digestToFilename digests) →
       extracted_in_manifest_order layersDir digests out).
Proof.
  intros Hls Hfiles. unfold filesystem.BuildFromLayers, bind.
  unfold os_ReadDir in *.
  destruct (walk (names w) [] (Join [layersDir])) as [[]| |]; try done.
  simpl in Hls. injection Hls as <-. intros Hrun.
  apply build_loop_trace in Hrun as (_ & _ & out & Hout & Hlines).
  rewrite (merge_sort_perm _ _ Hfiles) in Hlines.
  rewrite layer_files_all in Hlines.
  2:{ apply Forall_forall. intros name.
      rewrite merge_sort_Permutation. intros Hin.
      apply list_elem_of_fmap in Hin as (digest & -> & _).
      apply Ext_digestToFilename. }
  exists out. split; [done|]. split; [done|].
  intros Hsorted. unfold extracted_in_manifest_order.
  rewrite Hlines, (merge_sort_sorted _ Hsorted). by rewrite List.map_map.
Qed.

Lemma C2_witness :
  ∃ out,
    stdout (@filesystem.BuildFromLayers
              (sample.archives [("A", sample.layerA); ("B", sample.layerB)])
              "/layers" "/rootfs" sample.two_layers).2 = out
    ∧ extracted_in_manifest_order "/layers" ["sha256:a"; "sha256:b"] out.
Proof.
  destruct (@C2_layers_extracted_in_file_name_order
              (sample.archives [("A", sample.layerA); ("B", sample.layerB)])
              "/layers" "/rootfs" ["sha256:a"; "sha256:b"]
              ["c2hhMjU2OmE=.tar.gz"; "c2hhMjU2OmI=.tar.gz"]
              sample.two_layers
              (@filesystem.BuildFromLayers
                 (sample.archives [("A", sample.layerA); ("B", sample.layerB)])
                 "/layers" "/rootfs" sample.two_layers).2
              (Ok tt))
    as (out & Hout & _ & Horder).
  - by vm_compute.
  - vm_compute. apply perm_swap.
  - by vm_compute.
  - exists out. split; [exact Hout|]. apply Horder.
    apply (bool_decide_unpack _). by vm_compute.
Defined.

(** * Further properties of the code *)

(** ** Package filesystem: the handlers *)

Section more_handlers.
Import filesystem.

(** After the parent directories of a destination were made, removing
    what may be replaced there leaves the destination free and
    everything else as it was. *)
Lemma destination_cleared target w ns r1 w1 :
  target ≠ [] →
  mkdir_walk (Z.ldiff dirPerm (umask w)) [] (Dir target) (names w) = (Ok tt, ns) →
  replaceable w target →
  os_Remove target (set_names ns w) = (r1, w1) →
  (∀ msg, r1 ≠ Panic msg)
  ∧ names w1 !! target = None
  ∧ (∀ q, q ≠ target → names w1 !! q = ns !! q)
  ∧ inodes w1 = inodes w
  ∧ Dir target ≠ target
  ∧ ∃ perm, names w1 !! Dir target = Some (NDir perm).
Proof.
  intros Hroot Emk Hrep Hrm.
  pose proof (mkdir_walk_mono _ _ _ _ _ _ Emk) as Hmono.
  assert (Dir target ≠ target) as Hdt.
  { intros Heq. apply (f_equal List.length) in Heq. rewrite length_Dir in Heq.
    destruct target; [done|]. simpl in Heq. lia. }
  assert (∀ q n', ns !! q = Some n' → names w !! q = None →
                  List.length q < List.length target) as Hnew.
  { intros q n' Hq Hnone.
    destruct (mkdir_walk_keys _ _ _ _ _ _ _ _ Emk Hq Hnone) as [k ->].
    simpl. rewrite length_take, length_Dir.
    destruct target; [done|]. simpl. lia. }
  assert (ns !! target = names w !! target) as Ht.
  { destruct (names w !! target) as [x|] eqn:E.
    - by eapply lookup_weaken.
    - destruct (ns !! target) as [x|] eqn:E'; [|done].
      pose proof (Hnew _ _ E' E). lia. }
  assert (∀ perm, ns !! target = Some (NDir perm) → is_empty_dir ns target) as Hemp.
  { intros perm Hd. rewrite Ht in Hd. specialize (Hrep _ Hd).
    intros q n' Hq. destruct (names w !! q) as [x|] eqn:E.
    - by eapply Hrep.
    - pose proof (Hnew _ _ Hq E) as Hlen. unfold child_name.
      rewrite decide_False; [done|]. intros [Hq0 Hdq].
      apply (f_equal List.length) in Hdq. rewrite length_Dir in Hdq.
      destruct q; [done|]. simpl in *. lia. }
  assert ((∀ msg, r1 ≠ Panic msg) ∧ names w1 !! target = None
          ∧ (∀ q, q ≠ target → names w1 !! q = ns !! q)
          ∧ inodes w1 = inodes w) as (Hnp & Hgone & Hrest & Hino).
  { revert Hrm. unfold os_Remove. simpl.
    destruct (ns !! target) as [[perm|i|l]|] eqn:E.
    - destruct target eqn:Etg; [done|]. rewrite <- Etg in *.
      rewrite decide_True by eauto. intros [= <- <-]. simpl.
      split; [done|]. split; [apply lookup_delete_eq|]. split; [|done].
      intros q Hq. by rewrite lookup_delete_ne.
    - intros [= <- <-]. simpl. split; [done|]. split; [apply lookup_delete_eq|].
      split; [|done]. intros q Hq. by rewrite lookup_delete_ne.
    - intros [= <- <-]. simpl. split; [done|]. split; [apply lookup_delete_eq|].
      split; [|done]. intros q Hq. by rewrite lookup_delete_ne.
    - by intros [= <- <-]. }
  repeat (split; [done|]).
  destruct (mkdir_walk_ok _ _ _ _ _ Emk) as [perm Hp]. simpl in Hp.
  exists perm. by rewrite Hrest.
Qed.
End more_handlers.

(** X1: a regular-file entry written over a name of a file with several
    names (hard links) goes through to all of them: [os.Create]
    truncates the file that is there, it does not replace the name.
    After the entry, every other name of that file shows the entry's
    bytes and mode as well. *)
Theorem handleReg_writes_through_hard_links (hdr : tar.Header) (r : reader)
    (root : string) (w w' : world) (q : path) (i : nat) :
  filesystem.handleReg hdr r root w = (Ok tt, w') →
  names w !! Join [root; tar.Name hdr] = Some (NFile i) →
  names w !! q = Some (NFile i) →
  file_at w' q = Some (perm_bits (tar.Mode hdr), r_bytes r)
  ∧ file_at w' (Join [root; tar.Name hdr])
    = Some (perm_bits (tar.Mode hdr), r_bytes r)
  ∧ names w' !! q = Some (NFile i).
Proof.
  intros Hrun Ht Hq. rewrite handleReg_unfold in Hrun. cbv zeta in Hrun.
  destruct (mkdir_walk _ _ _ _) as [[[]|e|msg] ns] eqn:Emk; [|done..].
  pose proof (mkdir_walk_mono _ _ _ _ _ _ Emk) as Hmono.
  rewrite (lookup_weaken _ _ _ _ Ht Hmono) in Hrun.
  injection Hrun as _ <-.
  unfold file_at, perm_bits. simpl.
  rewrite (lookup_weaken _ _ _ _ Ht Hmono), (lookup_weaken _ _ _ _ Hq Hmono).
  by rewrite lookup_insert_eq.
Qed.

Lemma handleReg_writes_through_hard_links_witness :
  let w' := (filesystem.handleReg (cases.header tar.TypeReg "bin/sh" "" 420)
               (Reader "#!/bin/dash" None) "/rootfs" cases.linked).2 in
  file_at w' ["rootfs"; "bin"; "busybox"] = Some (420%Z, "#!/bin/dash").
Proof.
  intros w'.
  apply (handleReg_writes_through_hard_links
           (cases.header tar.TypeReg "bin/sh" "" 420)
           (Reader "#!/bin/dash" None) "/rootfs" cases.linked w'
           ["rootfs"; "bin"; "busybox"] 0).
  - by vm_compute.
  - by vm_compute.
  - by vm_compute.
Defined.

(** X2: in a file system without symbolic links, a directory entry
    only ever adds directories, with mode 0755 less the umask: whatever
    was there keeps its kind and mode, no file content is touched, and
    the mode of the header is not applied.  When it returns nil the
    directory exists. *)
Theorem handleDir_only_adds_directories (hdr : tar.Header) (r : reader)
    (root : string) (w w' : world) (res : outcome unit) :
  symlink_free w →
  filesystem.handleDir hdr r root w = (res, w') →
  (∀ q n, names w !! q = Some n → names w' !! q = Some n)
  ∧ (∀ q n, names w' !! q = Some n → names w !! q = None →
            n = NDir (Z.ldiff 493 (umask w)))
  ∧ inodes w' = inodes w
  ∧ symlink_free w'
  ∧ (res = Ok tt → is_dir_at w' (Join [root; tar.Name hdr])).
Proof.
  intros Hfree. rewrite handleDir_unfold.
  destruct (mkdir_walk _ _ _ _) as [r0 ns] eqn:Emk. intros [= <- <-].
  pose proof (mkdir_walk_mono _ _ _ _ _ _ Emk) as Hmono. simpl.
  split; [|split; [|split; [|split]]].
  - intros q n Hq. by eapply lookup_weaken.
  - intros q n Hq Hnone.
    destruct (mkdir_walk_new _ _ _ _ _ _ _ _ Emk Hq) as [?|[_ ->]]; [congruence|].
    done.
  - done.
  - intros q n Hq.
    destruct (mkdir_walk_new _ _ _ _ _ _ _ _ Emk Hq) as [Hold|[_ ->]]; [|done].
    by apply (Hfree q n).
  - intros ->. by apply mkdir_walk_ok in Emk.
Qed.

Lemma handleDir_only_adds_directories_witness :
  let w' := (filesystem.handleDir (cases.header tar.TypeDir "var/log/" "" 448)
               (Reader "" None) "/rootfs" cases.linked).2 in
  names w' !! ["rootfs"; "var"; "log"] = Some (NDir 493)
  ∧ names w' !! ["rootfs"; "bin"; "sh"] = Some (NFile 0).
Proof.
  intros w'.
  destruct (handleDir_only_adds_directories
              (cases.header tar.TypeDir "var/log/" "" 448)
              (Reader "" None) "/rootfs" cases.linked w' (Ok tt))
    as (Hkeep & Hnew & _ & _ & Hdir).
  - apply (bool_decide_unpack _). by vm_compute.
  - by vm_compute.
  - split.
    + destruct (Hdir eq_refl) as [perm Hp].
      assert (Join ["/rootfs"; "var/log/"] = ["rootfs"; "var"; "log"]) as Heq
        by (by vm_compute).
      simpl in Hp. rewrite Heq in Hp.
      rewrite Hp. f_equal. apply (Hnew _ _ Hp). by vm_compute.
    + apply Hkeep. by vm_compute.
Defined.

(** X3: a symbolic-link entry stores the link name as it stands in the
    header (it is not resolved against the target root, and nothing
    needs to exist there), in place of whatever file, link or empty
    directory stood at the destination.  An entry with an empty link name
    is refused by the operating system, after the destination was
    removed. *)
Theorem handleSymlink_stores_link_name (hdr : tar.Header) (r : reader)
    (root : string) (w : world) :
  let target := Join [root; tar.Name hdr] in
  target ≠ [] →
  (os_MkdirAll (Dir target) filesystem.dirPerm w).1 = Ok tt →
  replaceable w target →
  ∃ w',
    filesystem.handleSymlink hdr r root w
    = (if decide (tar.Linkname hdr = "") then Err (Errno ENOENT) else Ok tt, w')
    ∧ names w' !! target
      = (if decide (tar.Linkname hdr = "") then None
         else Some (NSymlink (tar.Linkname hdr)))
    ∧ inodes w' = inodes w
    ∧ ∀ q n, q ≠ target → names w !! q = Some n → names w' !! q = Some n.
Proof.
  intros target Hroot Hmk Hrep.
  unfold filesystem.handleSymlink, bind, ignore_err. fold target.
  unfold os_MkdirAll in *.
  destruct (mkdir_walk _ _ _ _) as [r0 ns] eqn:Emk. simpl in Hmk. subst r0.
  pose proof (mkdir_walk_mono _ _ _ _ _ _ Emk) as Hmono.
  destruct (os_Remove target (set_names ns w)) as [r1 w1] eqn:Hrm.
  destruct (destination_cleared _ _ _ _ _ Hroot Emk Hrep Hrm)
    as (Hnp & Hgone & Hrest & Hino & Hdt & perm & Hparent).
  assert (os_Symlink (tar.Linkname hdr) target w1
          = if decide (tar.Linkname hdr = "") then (Err (Errno ENOENT), w1)
            else (Ok tt, set_names
                           (<[target := NSymlink (tar.Linkname hdr)]> (names w1))
                           w1))
    as Hsym.
  { unfold os_Symlink, parent_check. rewrite Hparent, Hgone.
    by destruct (tar.Linkname hdr). }
  assert (∀ q n, q ≠ target → names w !! q = Some n → names w1 !! q = Some n)
    as Hkept.
  { intros q n Hq Hn. rewrite Hrest by done. by eapply lookup_weaken. }
  destruct (decide (tar.Linkname hdr = "")) as [Hempty|Hfull].
  - exists w1. split.
    { destruct r1 as [[]|e|msg]; [exact Hsym|exact Hsym|by destruct (Hnp msg)]. }
    done.
  - eexists. split.
    { destruct r1 as [[]|e|msg]; [exact Hsym|exact Hsym|by destruct (Hnp msg)]. }
    simpl. split; [apply lookup_insert_eq|]. split; [done|].
    intros q n Hq Hn. rewrite lookup_insert_ne by done. by apply Hkept.
Qed.

Lemma handleSymlink_stores_link_name_witness :
  let w' := (filesystem.handleSymlink
               (cases.header tar.TypeSymlink "bin/sh" "/nowhere/dash" 511)
               (Reader "" None) "/rootfs" cases.linked).2 in
  names w' !! ["rootfs"; "bin"; "sh"] = Some (NSymlink "/nowhere/dash")
  ∧ names w' !! ["rootfs"; "bin"; "busybox"] = Some (NFile 0).
Proof.
  intros w'.
  destruct (handleSymlink_stores_link_name
              (cases.header tar.TypeSymlink "bin/sh" "/nowhere/dash" 511)
              (Reader "" None) "/rootfs" cases.linked)
    as (w2 & Hrun & Hlink & _ & Hrest).
  - by vm_compute.
  - by vm_compute.
  - intros perm Hd. by vm_compute in Hd.
  - assert (w' = w2) as -> by (unfold w'; by rewrite Hrun).
    split; [exact Hlink|]. apply Hrest; by vm_compute.
Defined.

(** X4: extraction of an archive has no rollback and does no more than
    it must.  The entries split into those handled without error, whose
    effects stay, and the rest; the rest is empty when the archive was
    read to its end, and otherwise starts with the entry that failed,
    either for its kind or in its handler, after which no entry is
    looked at. *)
Theorem handleTarHeader_no_rollback (tarReader : tar.Reader)
    (root : string) (w : world) :
  let out := filesystem.handleTarHeader tarReader root w in
  ∃ pre post w1,
    tar.entries tarReader = pre ++ post
    ∧ filesystem.handle_entries pre None root w = (Ok tt, w1)
    ∧ match post with
      | [] => out = (end_of_archive (tar.trailer tarReader), w1)
      | e :: _ =>
          match filesystem.handlers (tar.Typeflag (tar.hdr e)) with
          | None =>
              out = (Err (Errorf ("unknown tar entry type: "
                                  +:+ String (tar.Typeflag (tar.hdr e)) "")), w1)
          | Some handler =>
              ∃ err, handler (tar.hdr e) (tar.body e) root w1 = (Err err, out.2)
                     ∧ out.1 = Err (Wrapf ("failed to handle tar entry "
                                           +:+ tar.Name (tar.hdr e)) err)
          end
      end.
Proof.
  unfold filesystem.handleTarHeader.
  destruct tarReader as [es trailer]. simpl. revert w.
  induction es as [|e es IH]; intros w.
  - exists [], [], w. split; [done|]. split; [done|]. simpl. by destruct trailer.
  - destruct (filesystem.handlers (tar.Typeflag (tar.hdr e))) as [h|] eqn:Hh.
    2:{ exists [], (e :: es), w. split; [done|]. split; [done|]. rewrite Hh.
        cbn [filesystem.handle_entries]. by rewrite Hh. }
    destruct (h (tar.hdr e) (tar.body e) root w) as [r1 w2] eqn:E1.
    destruct (fs_only_handler _ _ (tar.hdr e) (tar.body e) root Hh _ _ _ E1)
      as (Hnp & _).
    assert (∀ t, filesystem.handle_entries (e :: es) t root w
                 = match r1 with
                   | Ok _ => filesystem.handle_entries es t root w2
                   | Err err =>
                       (Err (Wrapf ("failed to handle tar entry "
                                    +:+ tar.Name (tar.hdr e)) err), w2)
                   | Panic msg => (Panic msg, w2)
                   end) as Hstep.
    { intros t. cbn [filesystem.handle_entries]. rewrite Hh.
      unfold bind at 1, wrap. rewrite E1. by destruct r1. }
    destruct r1 as [[]|err|msg]; [| |by destruct (Hnp msg)].
    + destruct (IH w2) as (pre & post & w1 & Hes & Hpre & Hpost).
      exists (e :: pre), post, w1. split; [by rewrite Hes|].
      split; [|by rewrite Hstep].
      assert (filesystem.handle_entries (e :: pre) None root w
              = filesystem.handle_entries pre None root w2) as ->; [|done].
      cbn [filesystem.handle_entries]. rewrite Hh.
      unfold bind at 1, wrap. by rewrite E1.
    + exists [], (e :: es), w. split; [done|]. split; [done|]. rewrite Hh.
      exists err. by rewrite Hstep.
Qed.

(** ** Package dockerfile *)

Section more_dockerfile.
Import dockerfile.

Lemma Split_cons s sep : ∃ x xs, Split s sep = x :: xs.
Proof.
  induction s as [|c s (x & xs & IH)]; simpl; [by eauto|].
  destruct (Ascii.eqb c sep); [by eauto|]. rewrite IH. by eauto.
Qed.

Lemma Split_with_sep s sep :
  contains sep s = true → ∃ x y l, Split s sep = x :: y :: l.
Proof.
  induction s as [|c s IH]; simpl; [done|].
  rewrite (Ascii.eqb_sym sep c).
  destruct (Ascii.eqb c sep); simpl.
  - intros _. destruct (Split_cons s sep) as (x & xs & ->). by eauto.
  - intros Hc. destruct (IH Hc) as (x & y & l & ->). by eauto.
Qed.

Lemma Split_app_sep a b sep :
  contains sep a = false →
  Split (a +:+ String sep b) sep = a :: Split b sep.
Proof.
  induction a as [|c a IH].
  - intros _. change (Split (String sep b) sep = "" :: Split b sep).
    simpl. by rewrite Ascii.eqb_refl.
  - change (contains sep (String c a)) with (Ascii.eqb sep c || contains sep a).
    change (String c a +:+ String sep b) with (String c (a +:+ String sep b)).
    intros [Hc Ha]%orb_false_elim. simpl.
    rewrite (Ascii.eqb_sym c sep), Hc. by rewrite (IH Ha).
Qed.

Lemma trim_left_head keep s c r :
  trim_left keep s = String c r → keep c = true.
Proof.
  induction s as [|d s IH]; simpl; [done|].
  destruct (keep d) eqn:Hd; [|done]. by intros [= <- _].
Qed.

Lemma trim_right_head keep s c r :
  trim_right keep s = String c r → ∃ r', s = String c r'.
Proof.
  destruct s as [|d s]; simpl; [done|].
  destruct (trim_right keep s); [destruct (keep d)|]; intros [= <- _]; eauto.
Qed.

(** A line that is not blank has a first field. *)
Lemma Fields_TrimSpace_cons text :
  TrimSpace text ≠ "" → ∃ kw parts, Fields (TrimSpace text) = kw :: parts.
Proof.
  unfold TrimSpace. intros Hne.
  destruct (trim_right _ _) as [|c r] eqn:E; [done|].
  destruct (trim_right_head _ _ _ _ E) as [r' E'].
  apply trim_left_head in E'. apply negb_true_iff in E'.
  unfold Fields. cbn [fields_go]. rewrite E'.
  destruct (fields_go_cur ("" +:+ String c "") r) as (x & l & ->); [done|].
  by eauto.
Qed.
Lemma parseCopy_no_panic parts msg : parseCopy parts ≠ Panic msg.
Proof.
  unfold parseCopy. destruct parts as [|a [|b [|c [|d parts]]]]; done.
Qed.

Lemma parseFrom_panic parts msg :
  parseFrom parts = Panic msg →
  ∃ kw img, parts = [kw; img] ∧ contains ":" img = false.
Proof.
  unfold parseFrom. destruct parts as [|kw [|img [|d parts]]]; try done.
  simpl. intros Hp. exists kw, img. split; [done|].
  destruct (contains ":" img) eqn:Hc; [|done].
  destruct (Split_with_sep _ _ Hc) as (x & y & l & Hs). by rewrite Hs in Hp.
Qed.

Lemma parse_lines_panic lines acc msg :
  parse_lines lines acc = Panic msg →
  ∃ line img, line ∈ lines
              ∧ Fields (TrimSpace (dropCR line)) = ["FROM"; img]
              ∧ contains ":" img = false.
Proof.
  revert acc. induction lines as [|text rest IH]; intros acc; [done|].
  cbn [parse_lines].
  assert (∀ acc', parse_lines rest acc' = Panic msg →
            ∃ line img, line ∈ text :: rest
                        ∧ Fields (TrimSpace (dropCR line)) = ["FROM"; img]
                        ∧ contains ":" img = false) as Hrest.
  { intros acc' Hp. destruct (IH _ Hp) as (line & img & ? & ? & ?).
    exists line, img. split; [by right|done]. }
  destruct (_ <=? _)%N; [done|].
  destruct (String.eqb_spec (TrimSpace (dropCR text)) "") as [He|Hne];
    [apply Hrest|].
  destruct (HasPrefix _ _); [apply Hrest|]. cbn [orb].
  destruct (Fields_TrimSpace_cons _ Hne) as (kw & parts & Hf). rewrite Hf.
  unfold lookup.
  destruct (String.eqb_spec kw "FROM") as [->|_].
  { destruct (parseFrom ("FROM" :: parts)) as [ins|e|m] eqn:Hp;
      [apply Hrest|done|].
    intros _. apply parseFrom_panic in Hp as (kw & img & [= <- ->] & Hc).
    exists text, img. split; [by left|done]. }
  destruct (String.eqb_spec kw "COPY") as [->|_].
  { destruct (parseCopy ("COPY" :: parts)) as [ins|e|m] eqn:Hp;
      [apply Hrest|done|]. by apply parseCopy_no_panic in Hp. }
  destruct (String.eqb_spec kw "ENTRYPOINT") as [->|_]; [|done].
  apply Hrest.
Qed.
End more_dockerfile.

(** X5: on a Dockerfile of ASCII text, the only way [Parse] can panic is
    the FROM line without tag: if it panics, the Dockerfile has a line of
    two fields, FROM and an image name without ':'.  On every other such
    input it returns instructions or an error. *)
Theorem Parse_panics_only_on_untagged_FROM (path : string) (w : world)
    (msg : string) :
  (∀ content, (os_Open (Join [path]) w).1 = Ok (HFile content) →
              ascii_only content = true) →
  (dockerfile.Parse path w).1 = Panic msg →
  ∃ content line img,
    (os_Open (Join [path]) w).1 = Ok (HFile content)
    ∧ line ∈ dockerfile.scan_lines content
    ∧ dockerfile.Fields (dockerfile.TrimSpace (dockerfile.dropCR line))
      = ["FROM"; img]
    ∧ dockerfile.contains ":" img = false.
Proof.
  intros _. unfold dockerfile.Parse, bind, wrap.
  destruct (os_Open (Join [path]) w) as [r w1] eqn:Hopen.
  destruct (fs_only_Open _ _ _ _ Hopen) as (Hnp & _).
  destruct r as [[content|]|e|m]; simpl; [|done|done|by destruct (Hnp m)].
  intros Hp. apply parse_lines_panic in Hp as (line & img & ? & ? & ?).
  by exists content, line, img.
Qed.

Lemma Parse_panics_only_on_untagged_FROM_witness :
  ∃ line img,
    line ∈ dockerfile.scan_lines "FROM ubuntu"
    ∧ dockerfile.Fields (dockerfile.TrimSpace (dockerfile.dropCR line))
      = ["FROM"; img]
    ∧ dockerfile.contains ":" img = false.
Proof.
  destruct (Parse_panics_only_on_untagged_FROM "/Dockerfile"
              sample.untagged_dockerfile "index out of range [1] with length 1")
    as (content & line & img & Hopen & Hline & Hf & Hc).
  - intros content Hopen.
    assert (content = "FROM ubuntu") as -> by (vm_compute in Hopen; congruence).
    by vm_compute.
  - by vm_compute.
  - assert (content = "FROM ubuntu") as -> by (vm_compute in Hopen; congruence).
    by exists line, img.
Defined.

(** X6: [parseFrom] cuts the image argument at its first ':' and takes
    what stands between the first and the second ':' as the tag; what
    follows a second ':' is dropped.  For name:tag the instruction holds
    name and tag. *)
Theorem parseFrom_splits_at_colons (kw name rest : string) :
  dockerfile.contains ":" name = false →
  dockerfile.parseFrom [kw; name +:+ ":" +:+ rest]
  = Ok (dockerfile.FromInstruction name
          (default "" (head (dockerfile.Split rest ":"))))
  ∧ (dockerfile.contains ":" rest = false →
     dockerfile.parseFrom [kw; name +:+ ":" +:+ rest]
     = Ok (dockerfile.FromInstruction name rest)).
Proof.
  intros Hname.
  assert (dockerfile.parseFrom [kw; name +:+ ":" +:+ rest]
          = Ok (dockerfile.FromInstruction name
                  (default "" (head (dockerfile.Split rest ":"))))) as Hp.
  { unfold dockerfile.parseFrom. simpl.
    change (name +:+ ":" +:+ rest) with (name +:+ String ":" rest).
    rewrite (Split_app_sep _ _ _ Hname). simpl.
    by destruct (Split_cons rest ":") as (x & xs & ->). }
  split; [exact Hp|]. intros Hrest. rewrite Hp.
  by rewrite (Split_no_sep _ _ Hrest).
Qed.

Lemma parseFrom_splits_at_colons_witness :
  dockerfile.parseFrom ["FROM"; "localhost:5000/node:alpine"]
  = Ok (dockerfile.FromInstruction "localhost" "5000/node").
Proof.
  destruct (parseFrom_splits_at_colons "FROM" "localhost" "5000/node:alpine")
    as [Hp _]; [by vm_compute|].
  exact Hp.
Defined.

Section parse_lines.
Import dockerfile.

Lemma parse_lines_app l1 l2 acc :
  parse_lines (l1 ++ l2) acc
  = match parse_lines l1 acc with
    | Ok acc' => parse_lines l2 acc'
    | other => other
    end.
Proof.
  revert acc. induction l1 as [|text l1 IH]; intros acc; [done|].
  cbn [app parse_lines].
  destruct (_ <=? _)%N; [done|].
  destruct (_ || _); [apply IH|].
  destruct (Fields _) as [|kw parts]; [done|].
  destruct (lookup kw) as [parseFn|]; [|done].
  destruct (parseFn _); [apply IH|done..].
Qed.

Lemma parse_lines_extends lines acc r :
  parse_lines lines acc = Ok r →
  ∃ new, r = acc ++ new ∧ (List.length new ≤ List.length lines)%nat.
Proof.
  revert acc. induction lines as [|text lines IH]; intros acc.
  - intros [= <-]. exists []. by rewrite app_nil_r.
  - cbn [parse_lines].
    assert (∀ acc', parse_lines lines acc' = Ok r → (∃ k, acc' = acc ++ k ∧ (List.length k ≤ 1)%nat) →
              ∃ new, r = acc ++ new
                     ∧ (List.length new ≤ List.length (text :: lines))%nat)
      as Hrest.
    { intros acc' Hp (k & -> & Hk). destruct (IH _ Hp) as (new & -> & Hlen).
      exists (k ++ new). rewrite app_assoc. split; [done|].
      rewrite length_app. simpl. lia. }
    destruct (_ <=? _)%N; [done|].
    destruct (_ || _).
    { intros Hp. apply (Hrest _ Hp). exists [].
      split; [by rewrite app_nil_r|simpl; lia]. }
    destruct (Fields _) as [|kw parts]; [done|].
    destruct (lookup kw) as [parseFn|]; [|done].
    destruct (parseFn _) as [ins| |]; [|done..].
    intros Hp. apply (Hrest _ Hp). exists [ins]. split; [done|simpl; lia].
Qed.
End parse_lines.

(** X7: the lines of a Dockerfile are parsed in order and one by one:
    parsing two blocks of lines is parsing the first and then, when that
    gave no error, the second, with the instructions of the first kept in
    front; the first line that fails decides the result, and no line
    after it is read. *)
Theorem parse_lines_in_order (l1 l2 : list string)
    (acc : list dockerfile.Instruction) :
  dockerfile.parse_lines (l1 ++ l2) acc
  = match dockerfile.parse_lines l1 acc with
    | Ok acc' => dockerfile.parse_lines l2 acc'
    | other => other
    end
  ∧ ∀ r, dockerfile.parse_lines (l1 ++ l2) acc = Ok r →
         ∃ first second,
           dockerfile.parse_lines l1 acc = Ok (acc ++ first)
           ∧ r = acc ++ first ++ second
           ∧ (List.length first ≤ List.length l1)%nat
           ∧ (List.length second ≤ List.length l2)%nat.
Proof.
  split; [apply parse_lines_app|].
  intros r. rewrite parse_lines_app.
  destruct (dockerfile.parse_lines l1 acc) as [acc'| |] eqn:H1; [|done..].
  intros H2.
  destruct (parse_lines_extends _ _ _ H1) as (first & -> & Hl1).
  destruct (parse_lines_extends _ _ _ H2) as (second & -> & Hl2).
  exists first, second. by rewrite app_assoc.
Qed.

Section entrypoint.
Import dockerfile.

Lemma trim_right_last keep s pre c :
  trim_right keep s = pre +:+ String c "" → keep c = true.
Proof.
  revert pre. induction s as [|d s IH]; intros pre; simpl.
  - by destruct pre.
  - destruct (trim_right keep s) as [|e rest] eqn:E.
    + destruct (keep d) eqn:Hd; [|by destruct pre].
      destruct pre as [|x pre]; [by intros [= <-]|].
      change (String x pre +:+ String c "") with (String x (pre +:+ String c "")).
      intros [= _ Hp]. by destruct pre.
    + destruct pre as [|x pre]; [done|].
      change (String x pre +:+ String c "") with (String x (pre +:+ String c "")).
      intros [= _ Hp]. by apply (IH pre).
Qed.

Lemma entrypoint_parts_spec args a :
  a ∈ entrypoint_parts args →
  a ≠ "" ∧ ∃ raw, raw ∈ args ∧ a = Trim raw entrypoint_cutset.
Proof.
  induction args as [|raw args IH]; simpl; [by intros ?%elem_of_nil|].
  fold entrypoint_cutset.
  destruct (String.eqb_spec (Trim raw entrypoint_cutset) "") as [He|Hne].
  - intros Hin. destruct (IH Hin) as (? & raw' & ? & ?).
    split; [done|]. exists raw'. split; [by right|done].
  - intros [->|Hin]%elem_of_cons.
    + split; [done|]. exists raw. split; [by left|done].
    + destruct (IH Hin) as (? & raw' & ? & ?).
      split; [done|]. exists raw'. split; [by right|done].
Qed.

Lemma entrypoint_parts_length args :
  (List.length (entrypoint_parts args) ≤ List.length args)%nat.
Proof.
  induction args as [|raw args IH]; simpl; [done|].
  destruct (_ =? _)%string; simpl; lia.
Qed.
End entrypoint.

Lemma entrypoint_parts_filter (args : list string) :
  dockerfile.entrypoint_parts args
  = List.filter (λ a, negb (a =? "")%string)
      (List.map (λ raw, dockerfile.Trim raw entrypoint_cutset) args).
Proof.
  induction args as [|raw args IH]; [done|]. cbn [dockerfile.entrypoint_parts].
  fold entrypoint_cutset. cbn [List.map List.filter].
  destruct (_ =? _)%string; cbn [negb]; by rewrite IH.
Qed.

(** X8: [parseEntrypoint] never fails.  Its arguments are the fields of
    the line after the keyword, each with quotes, brackets and commas
    stripped from both ends, in the order of the line, without the
    fields of which nothing is left; so no argument is empty, and none
    starts or ends with one of these characters. *)
Theorem parseEntrypoint_strips_arguments (kw : string) (args : list string) :
  let stripped :=
    List.filter (λ a, negb (a =? "")%string)
      (List.map (λ raw, dockerfile.Trim raw entrypoint_cutset) args) in
  dockerfile.parseEntrypoint (kw :: args)
  = Ok (dockerfile.EntryPointInstruction stripped)
  ∧ ∀ a, a ∈ stripped →
      a ≠ ""
      ∧ (∀ c rest, a = String c rest →
                   dockerfile.contains c entrypoint_cutset = false)
      ∧ (∀ pre c, a = pre +:+ String c "" →
                  dockerfile.contains c entrypoint_cutset = false).
Proof.
  intros stripped. split.
  { unfold dockerfile.parseEntrypoint. by rewrite entrypoint_parts_filter. }
  intros a Hin. unfold stripped in Hin. rewrite <- entrypoint_parts_filter in Hin.
  destruct (entrypoint_parts_spec _ _ Hin) as (Hne & raw & Hraw & Ha).
  split; [done|]. split.
  - intros c rest Hc. rewrite Hc in Ha. unfold dockerfile.Trim in Ha.
    symmetry in Ha. destruct (trim_right_head _ _ _ _ Ha) as [r' Hl].
    apply trim_left_head in Hl. by apply negb_true_iff in Hl.
  - intros pre c Hc. rewrite Hc in Ha. unfold dockerfile.Trim in Ha.
    symmetry in Ha. apply trim_right_last in Ha. by apply negb_true_iff in Ha.
Qed.

(** ** Paths *)

Section paths.
Lemma Join_root_name (root name : string) :
  Join [root; name] = fold_left clean_step (split_slash name) (Join [root]).
Proof.
  unfold Join. simpl. rewrite !app_nil_r. apply fold_left_app.
Qed.

Lemma split_slash_free s : slash_free s = true → split_slash s = [s].
Proof.
  induction s as [|c s IH]; simpl; [done|].
  intros [Hc Hs]%andb_true_iff. apply negb_true_iff in Hc.
  by rewrite Hc, (IH Hs).
Qed.

Lemma slash_free_app s t :
  slash_free (s +:+ t) = slash_free s && slash_free t.
Proof.
  induction s as [|c s IH]; [done|].
  change (String c s +:+ t) with (String c (s +:+ t)). simpl.
  by rewrite IH, andb_assoc.
Qed.

Lemma length_append (s t : string) :
  String.length (s +:+ t) = (String.length s + String.length t)%nat.
Proof.
  induction s as [|c s IH]; [done|].
  change (String c s +:+ t) with (String c (s +:+ t)). simpl. by rewrite IH.
Qed.

(** A name of one element that is neither empty nor a dot name is
    appended to the directory as it is. *)
Lemma Join_child (dir name : string) :
  slash_free name = true →
  (2 < String.length name)%nat →
  Join [dir; name] = Join [dir] ++ [name].
Proof.
  intros Hs Hl. rewrite Join_root_name, (split_slash_free _ Hs). simpl.
  unfold clean_step.
  destruct (String.eqb_spec name "") as [->|_]; [simpl in Hl; lia|].
  destruct (String.eqb_spec name ".") as [->|_]; [simpl in Hl; lia|].
  destruct (String.eqb_spec name "..") as [->|_]; [simpl in Hl; lia|].
  done.
Qed.
End paths.

(** ** Package image *)

Section more_image.
Import image.

Lemma get_slash_free s k c :
  slash_free s = true → String.get k s = Some c → Ascii.eqb c "/" = false.
Proof.
  revert k. induction s as [|d s IH]; intros k; simpl; [done|].
  intros [Hd Hs]%andb_true_iff. destruct k as [|k].
  - intros [= <-]. by apply negb_true_iff.
  - by apply IH.
Qed.

Lemma b64_digit_not_slash n : Ascii.eqb (b64_digit n) "/" = false.
Proof.
  unfold b64_digit.
  destruct (String.get (N.to_nat n) b64_alphabet) as [c|] eqn:E; [|done].
  simpl. by apply (get_slash_free b64_alphabet (N.to_nat n)).
Qed.

Lemma b64_encode_slash_free s : slash_free (b64_encode s) = true.
Proof.
  assert (∀ n s, (String.length s ≤ n)%nat → slash_free (b64_encode s) = true)
    as Hall; [|by apply (Hall (String.length s))].
  clear s. intros n. induction n as [n IH] using lt_wf_ind. intros s Hn.
  destruct s as [|a [|b [|c rest]]]; [done| | |].
  - cbn [b64_encode slash_free]. by rewrite !b64_digit_not_slash.
  - cbn [b64_encode slash_free]. by rewrite !b64_digit_not_slash.
  - cbn [b64_encode slash_free]. rewrite !b64_digit_not_slash.
    cbn [negb andb]. apply (IH (String.length rest)); simpl in *; lia.
Qed.
End more_image.

Lemma digest_file_placement (dest digest : string) :
  Join [dest; image.digestToFilename digest]
  = Join [dest] ++ [image.digestToFilename digest]
  ∧ Ext (image.digestToFilename digest) = filesystem.layerFileExt.
Proof.
  split; [|apply Ext_digestToFilename].
  apply Join_child.
  - unfold image.digestToFilename. rewrite slash_free_app.
    by rewrite b64_encode_slash_free.
  - unfold image.digestToFilename. rewrite length_append. simpl. lia.
Qed.

(** X9: the file of a layer lands where the assembler looks for it: the
    file name made from a digest is a single path element, so the file is
    created directly in the destination directory, and its extension is
    the one [BuildFromLayers] selects layer files by. *)
Theorem digest_file_is_a_layer_file_in_dest (dest digest : string) :
  Join [dest; image.digestToFilename digest]
  = Join [dest] ++ [image.digestToFilename digest]
  ∧ Ext (image.digestToFilename digest) = filesystem.layerFileExt
  ∧ layer_files [image.digestToFilename digest]
    = [image.digestToFilename digest].
Proof.
  split; [|split].
  - apply Join_child.
    + unfold image.digestToFilename. rewrite slash_free_app.
      by rewrite b64_encode_slash_free.
    + unfold image.digestToFilename. rewrite length_append. simpl. lia.
  - apply Ext_digestToFilename.
  - apply layer_files_all. constructor; [apply Ext_digestToFilename|done].
Qed.

Section platform.
Import image.
Context `{Registry}.

Lemma find_platform_first pre m post :
  (∀ m', m' ∈ pre →
     ¬ (OS (pd_Platform m') = GOOS ∧ Architecture (pd_Platform m') = GOARCH)) →
  OS (pd_Platform m) = GOOS → Architecture (pd_Platform m) = GOARCH →
  find_platform (pre ++ m :: post) = Some (pd_Digest m).
Proof.
  intros Hpre Hos Harch. induction pre as [|m' pre IH]; simpl.
  - by rewrite Hos, Harch, !String.eqb_refl.
  - destruct (String.eqb_spec (OS (pd_Platform m')) GOOS) as [Hos'|];
      destruct (String.eqb_spec (Architecture (pd_Platform m')) GOARCH)
        as [Harch'|];
      simpl; try (apply IH; intros m'' Hm''; apply Hpre; by right).
    destruct (Hpre m'); [by left|done].
Qed.
End platform.

(** X10: [selectPlatformDigest] sends one request, for the manifest list
    of the tag with the bearer token, and returns the digest of the first
    descriptor of the list whose os and architecture are those of the
    host; descriptors after it are not considered. *)
Theorem selectPlatformDigest_takes_first_match `{image.Registry}
    (imageName tag token : string) (w : world) (resp : reader)
    (pre post : list image.PlatformDescriptor) (m : image.PlatformDescriptor) :
  image.NewRequest_ok (image.dockerManifestUrl imageName tag) = true →
  image.http_Do (list_request imageName tag token) = Ok resp →
  image.json_ManifestList (r_bytes resp)
    = Ok {| image.Manifests := pre ++ m :: post |} →
  (∀ m', m' ∈ pre →
     ¬ (image.OS (image.pd_Platform m') = image.GOOS
        ∧ image.Architecture (image.pd_Platform m') = image.GOARCH)) →
  image.OS (image.pd_Platform m) = image.GOOS →
  image.Architecture (image.pd_Platform m) = image.GOARCH →
  image.selectPlatformDigest imageName tag token w
  = (Ok (image.pd_Digest m),
     set_requests (requests w ++ [list_request imageName tag token]) w).
Proof.
  intros Hurl Hdo Hjson Hpre Hos Harch.
  unfold image.selectPlatformDigest, bind, image.http_send, image.lift, ret.
  rewrite Hurl. fold (list_request imageName tag token). rewrite Hdo, Hjson.
  simpl. by rewrite (find_platform_first _ _ _ Hpre Hos Harch).
Qed.

Lemma selectPlatformDigest_takes_first_match_witness :
  (@image.selectPlatformDigest
     (sample.registry "linux" "arm64"
        [(image.dockerManifestUrl "library/node" "alpine", "LIST")] 
        [("LIST", {| image.Manifests :=
                       [sample.descriptor "linux" "amd64" "sha256:1";
                        sample.descriptor "linux" "arm64" "sha256:2";
                        sample.descriptor "linux" "arm64" "sha256:3"] |})] [])
     "library/node" "alpine" "tok" sample.empty_root).1
  = Ok "sha256:2".
Proof.
  rewrite (@selectPlatformDigest_takes_first_match
             (sample.registry "linux" "arm64"
                [(image.dockerManifestUrl "library/node" "alpine", "LIST")]
                [("LIST", {| image.Manifests :=
                               [sample.descriptor "linux" "amd64" "sha256:1";
                                sample.descriptor "linux" "arm64" "sha256:2";
                                sample.descriptor "linux" "arm64" "sha256:3"] |})] [])
             "library/node" "alpine" "tok" sample.empty_root
             (Reader "LIST" None)
             [sample.descriptor "linux" "amd64" "sha256:1"]
             [sample.descriptor "linux" "arm64" "sha256:3"]
             (sample.descriptor "linux" "arm64" "sha256:2")).
  - done.
  - done.
  - by vm_compute.
  - by vm_compute.
  - intros m' Hm' [_ Harch]. apply list_elem_of_singleton in Hm' as ->.
    by vm_compute in Harch.
  - done.
  - done.
Defined.

Section download.
Import image.
Context `{Registry}.

Lemma Dir_app (p : path) (c : string) : Dir (p ++ [c]) = p.
Proof. unfold Dir. apply removelast_last. Qed.

(** [downloadLayer], step by step. *)
Lemma downloadLayer_unfold digest imageName authToken dest w :
  let req := layer_request imageName authToken {| Digest := digest |} in
  let w1 := set_requests (requests w ++ [req]) w in
  let filePath := Join [dest; digestToFilename digest] in
  downloadLayer digest imageName authToken dest w
  = if NewRequest_ok (dockerImageUrl imageName digest) then
      match http_Do req with
      | Ok response =>
          match os_Create filePath w1 with
          | (Ok outFile, w2) => io_Copy outFile response w2
          | (Err e, w2) => (Err e, w2)
          | (Panic msg, w2) => (Panic msg, w2)
          end
      | Err e => (Err e, w1)
      | Panic msg => (Panic msg, w1)
      end
    else (Err (Lib "net/url: invalid URL"), w).
Proof.
  intros req w1 filePath. unfold downloadLayer, bind, http_send, ret, fail.
  destruct (NewRequest_ok _); [|done].
  change (Request (dockerImageUrl imageName digest)
            (Some ("Bearer " +:+ authToken)) None) with req.
  fold w1. destruct (http_Do req); [|done..].
  fold filePath. by destruct (os_Create filePath w1) as [[]].
Qed.

Lemma os_Create_grows p w r w' :
  os_Create p w = (r, w') →
  names w ⊆ names w' ∧ requests w' = requests w ∧ stdout w' = stdout w
  ∧ (∀ i, r = Ok i → names w' !! p = Some (NFile i)).
Proof.
  unfold os_Create. destruct (parent_check w p); [by intros [= <- <-]|].
  destruct (names w !! p) as [[perm|i|l]|] eqn:E; intros [= <- <-]; simpl;
    try done.
  - repeat split; try done. by intros ? [= <-].
  - repeat split; try done.
    + by apply insert_subseteq.
    + intros ? [= <-]. apply lookup_insert_eq.
Qed.

Lemma io_Copy_names i r w res w' :
  io_Copy i r w = (res, w') →
  names w' = names w ∧ requests w' = requests w ∧ stdout w' = stdout w
  ∧ inodes w' !! i = Some (Inode (i_perm (get_inode w i)) (r_bytes r)).
Proof.
  unfold io_Copy. destruct (r_err r); intros [= <- <-]; simpl;
    by rewrite lookup_insert_eq.
Qed.

Lemma downloadLayer_requests digest imageName authToken dest w r w' :
  downloadLayer digest imageName authToken dest w = (r, w') →
  names w ⊆ names w'
  ∧ (requests w' = requests w
     ∨ requests w'
       = requests w
         ++ [layer_request imageName authToken {| Digest := digest |}])
  ∧ (r = Ok tt →
     requests w'
     = requests w ++ [layer_request imageName authToken {| Digest := digest |}]
     ∧ ∃ i, names w' !! Join [dest; digestToFilename digest] = Some (NFile i)).
Proof.
  rewrite downloadLayer_unfold. cbv zeta.
  destruct (NewRequest_ok _);
    [|intros [= <- <-]; split; [done|]; split; [by left|done]].
  destruct (http_Do _) as [response|e|msg];
    [|intros [= <- <-]; simpl; split; [done|]; split; [by right|done]..].
  destruct (os_Create _ _) as [rc w2] eqn:Ec.
  apply os_Create_grows in Ec as (Hsub & Hreq & _ & Hname). simpl in *.
  destruct rc as [i|e|msg];
    [|intros [= <- <-]; rewrite Hreq; split; [done|]; split; [by right|done]..].
  intros Hcp. apply io_Copy_names in Hcp as (Hn & Hr & _ & _).
  rewrite Hn, Hr, Hreq. split; [done|]. split; [by right|].
  intros _. split; [done|]. exists i. by apply Hname.
Qed.

Lemma download_loop_requests i total layers imageName auth dest w r w' :
  download_loop i total layers imageName auth dest w = (r, w') →
  names w ⊆ names w'
  ∧ (∃ k, requests w'
          = requests w ++ List.map (layer_request imageName auth) (take k layers))
  ∧ (r = Ok tt →
     requests w' = requests w ++ List.map (layer_request imageName auth) layers
     ∧ ∀ layer, layer ∈ layers →
         ∃ n, names w' !! Join [dest; digestToFilename (Digest layer)]
              = Some (NFile n)).
Proof.
  revert i w. induction layers as [|layer layers IH]; intros i w.
  - intros [= <- <-]. split; [done|]. split.
    + exists 0%nat. by rewrite app_nil_r.
    + intros _. split; [by rewrite app_nil_r|]. by intros ? ?%elem_of_nil.
  - cbn [download_loop]. unfold bind at 1, print at 1.
    unfold bind at 1.
    destruct (downloadLayer _ _ _ _ _) as [r1 w1] eqn:E1.
    apply downloadLayer_requests in E1 as (Hsub1 & Hreq1 & Hok1).
    simpl in Hsub1, Hreq1, Hok1.
    assert (layer_request imageName auth {| Digest := Digest layer |}
            = layer_request imageName auth layer) as Hl by (by destruct layer).
    rewrite Hl in *.
    destruct r1 as [[]|e|msg].
    + intros E2. apply IH in E2 as (Hsub2 & (k & Hk) & Hok2).
      destruct (Hok1 eq_refl) as (Hr1 & n & Hn).
      split; [by etrans|]. split.
      * exists (S k). rewrite Hk, Hr1. simpl. by rewrite <- app_assoc.
      * intros ->. destruct (Hok2 eq_refl) as (Hr2 & Hfiles).
        split; [rewrite Hr2, Hr1; simpl; by rewrite <- app_assoc|].
        intros layer' [->|Hin]%elem_of_cons; [|by apply Hfiles].
        exists n. by eapply lookup_weaken.
    + intros [= <- <-]. split; [done|]. split; [|done].
      destruct Hreq1 as [->| ->]; [exists 0%nat|exists 1%nat]; simpl;
        by rewrite ?app_nil_r.
    + intros [= <- <-]. split; [done|]. split; [|done].
      destruct Hreq1 as [->| ->]; [exists 0%nat|exists 1%nat]; simpl;
        by rewrite ?app_nil_r.
Qed.
End download.

Section pipeline.
Import image.
Context `{Registry}.

Lemma selectPlatformDigest_ok imageName tag token w digest w' :
  selectPlatformDigest imageName tag token w = (Ok digest, w') →
  w' = set_requests (requests w ++ [list_request imageName tag token]) w.
Proof.
  unfold selectPlatformDigest, bind, http_send, lift, ret, fail, panic.
  destruct (NewRequest_ok _); [|done].
  fold (list_request imageName tag token).
  destruct (http_Do _) as [resp| |]; [|done..].
  destruct (json_ManifestList _) as [ml| |]; [|done..].
  by destruct (find_platform _); intros [= _ <-].
Qed.

Lemma fetchManifest_ok imageName digest token w manifest w' :
  fetchManifest imageName digest token w = (Ok manifest, w') →
  w' = set_requests (requests w ++ [manifest_request imageName digest token]) w.
Proof.
  unfold fetchManifest, bind, http_send, lift, ret, fail.
  destruct (NewRequest_ok _); [|done].
  fold (manifest_request imageName digest token).
  destruct (http_Do _) as [resp| |]; [|done..].
  by destruct (json_Manifest _); intros [= _ <-].
Qed.
End pipeline.

Section answers.
Import image.
Context `{Registry}.

(** What a step that succeeded was answered. *)
Lemma authenticate_answer imageName w token w1 :
  authenticate imageName w = (Ok token, w1) →
  ∃ response authResponse,
    http_Do (auth_request imageName) = Ok response
    ∧ json_AuthResponse response = Ok authResponse
    ∧ token = Token authResponse.
Proof.
  unfold authenticate, bind, http_Get, http_send, lift, ret, fail.
  destruct (NewRequest_ok _); [|done].
  fold (auth_request imageName).
  destruct (http_Do _) as [response| |] eqn:Edo; [|done..].
  destruct (json_AuthResponse _) as [a| |] eqn:Ejs; [|done..].
  intros [= <- _]. by exists response, a.
Qed.

Lemma selectPlatformDigest_answer imageName tag token w digest w' :
  selectPlatformDigest imageName tag token w = (Ok digest, w') →
  ∃ resp manifestList,
    http_Do (list_request imageName tag token) = Ok resp
    ∧ json_ManifestList (r_bytes resp) = Ok manifestList
    ∧ find_platform (Manifests manifestList) = Some digest.
Proof.
  unfold selectPlatformDigest, bind, http_send, lift, ret, fail, panic.
  destruct (NewRequest_ok _); [|done].
  fold (list_request imageName tag token).
  destruct (http_Do _) as [resp| |] eqn:Edo; [|done..].
  destruct (json_ManifestList _) as [ml| |] eqn:Ejs; [|done..].
  destruct (find_platform _) as [d|] eqn:Ef; intros [= <- _].
  by exists resp, ml.
Qed.

Lemma fetchManifest_answer imageName digest token w manifest w' :
  fetchManifest imageName digest token w = (Ok manifest, w') →
  ∃ response,
    http_Do (manifest_request imageName digest token) = Ok response
    ∧ json_Manifest (r_bytes response) = Ok manifest.
Proof.
  unfold fetchManifest, bind, http_send, lift, ret, fail.
  destruct (NewRequest_ok _); [|done].
  fold (manifest_request imageName digest token).
  destruct (http_Do _) as [response| |] eqn:Edo; [|done..].
  destruct (json_Manifest _) as [m| |] eqn:Ejs; intros [= <- _].
  by exists response.
Qed.
End answers.

(** X11: a download that succeeds has sent, in this order, the request
    for the token, the request for the manifest list of the tag, the
    request for the manifest of the digest selected from that list, and
    one request per layer of the manifest that was decoded from the
    answer to the third request, in the order of that manifest, all but
    the first with the token that the first answer carried; it removed
    nothing, and for every layer of the manifest the file named after its
    digest stands in the destination directory. *)
Theorem DownloadImage_requests_in_manifest_order `{image.Registry}
    (imageName tag dest : string) (w w' : world) :
  image.DownloadImage imageName tag dest w = (Ok tt, w') →
  ∃ authAnswer authResponse listAnswer manifestList digest manifestAnswer
    manifest,
    image.http_Do (auth_request imageName) = Ok authAnswer
    ∧ image.json_AuthResponse authAnswer = Ok authResponse
    ∧ image.http_Do (list_request imageName tag (image.Token authResponse))
      = Ok listAnswer
    ∧ image.json_ManifestList (r_bytes listAnswer) = Ok manifestList
    ∧ image.find_platform (image.Manifests manifestList) = Some digest
    ∧ image.http_Do
        (manifest_request imageName digest (image.Token authResponse))
      = Ok manifestAnswer
    ∧ image.json_Manifest (r_bytes manifestAnswer) = Ok manifest
    ∧ requests w'
      = requests w
        ++ [auth_request imageName;
            list_request imageName tag (image.Token authResponse);
            manifest_request imageName digest (image.Token authResponse)]
        ++ List.map (layer_request imageName (image.Token authResponse))
             (image.Layers manifest)
    ∧ names w ⊆ names w'
    ∧ ∀ layer, layer ∈ image.Layers manifest →
        ∃ n, names w' !! (Join [dest]
                          ++ [image.digestToFilename (image.Digest layer)])
             = Some (NFile n).
Proof.
  unfold image.DownloadImage. unfold bind at 1.
  destruct (image.authenticate imageName w) as [[token| |] w1] eqn:E1; [|done..].
  destruct (authenticate_answer _ _ _ _ E1) as (authAnswer & auth & HdoA & HjsA & ->).
  apply authenticate_ok in E1.
  unfold bind at 1, print at 1. unfold bind at 1.
  destruct (image.selectPlatformDigest _ _ _ _) as [[digest| |] w2] eqn:E2;
    [|done..].
  destruct (selectPlatformDigest_answer _ _ _ _ _ _ E2)
    as (listAnswer & ml & HdoL & HjsL & Hfind).
  apply selectPlatformDigest_ok in E2.
  unfold bind at 1, print at 1. unfold bind at 1.
  destruct (image.fetchManifest _ _ _ _) as [[manifest| |] w3] eqn:E3; [|done..].
  destruct (fetchManifest_answer _ _ _ _ _ _ E3) as (manifestAnswer & HdoM & HjsM).
  apply fetchManifest_ok in E3.
  unfold bind at 1, print at 1. unfold bind at 1.
  destruct (image.download_loop _ _ _ _ _ _ _) as [r4 w4] eqn:E4.
  apply download_loop_requests in E4 as (Hsub & _ & Hok).
  destruct r4 as [[]| |]; [|done..].
  unfold bind, print, ret. intros [= <-].
  destruct (Hok eq_refl) as (Hreq & Hfiles).
  exists authAnswer, auth, listAnswer, ml, digest, manifestAnswer, manifest.
  do 7 (split; [done|]). simpl. split; [|split].
  - rewrite Hreq, E3, E2, E1. simpl. by rewrite <- !app_assoc.
  - etrans; [|exact Hsub]. by rewrite E3, E2, E1.
  - intros layer Hin. destruct (Hfiles _ Hin) as [n Hn]. exists n.
    by rewrite <- (proj1 (digest_file_placement dest (image.Digest layer))).
Qed.

Lemma DownloadImage_requests_in_manifest_order_witness :
  List.map req_url
    (requests
       (@image.DownloadImage sample.b_before_a "library/app" "v1" "/layers"
          sample.one_bad_layer).2)
  = ["https://auth.docker.io/token?service=registry.docker.io&scope=repository:library/app:pull";
     "https://registry-1.docker.io/v2/library/app/manifests/v1";
     "https://registry-1.docker.io/v2/library/app/manifests/sha256:m";
     "https://registry-1.docker.io/v2/library/app/blobs/sha256:b";
     "https://registry-1.docker.io/v2/library/app/blobs/sha256:a"].
Proof.
  destruct (@DownloadImage_requests_in_manifest_order sample.b_before_a
              "library/app" "v1" "/layers" sample.one_bad_layer
              (@image.DownloadImage sample.b_before_a "library/app" "v1"
                 "/layers" sample.one_bad_layer).2)
    as (authAnswer & auth & listAnswer & ml & digest & manifestAnswer & manifest
        & HdoA & HjsA & HdoL & HjsL & Hfind & HdoM & HjsM & Hreq & _).
  - by vm_compute.
  - assert (image.Token auth = "tok") as Htok.
    { vm_compute in HdoA. injection HdoA as <-. vm_compute in HjsA.
      by injection HjsA as <-. }
    rewrite Htok in *.
    assert (digest = "sha256:m") as ->.
    { vm_compute in HdoL. injection HdoL as <-. vm_compute in HjsL.
      injection HjsL as <-. vm_compute in Hfind. by injection Hfind as <-. }
    assert (manifest = {| image.Layers := [{| image.Digest := "sha256:b" |};
                                            {| image.Digest := "sha256:a" |}] |})
      as ->.
    { vm_compute in HdoM. injection HdoM as <-. vm_compute in HjsM.
      by injection HjsM as <-. }
    rewrite Hreq. by vm_compute.
Defined.

(** X12: [downloadLayer] writes what it could read and cleans up
    nothing: when the destination directory exists and the path of the
    layer file is free or a file, the file afterwards holds the bytes
    read from the response body, also when reading the body ended in an
    error, which is then the error returned. *)
Theorem downloadLayer_keeps_what_was_read `{image.Registry}
    (digest imageName authToken dest : string) (w : world)
    (resp : reader) (perm : Z) :
  let filePath := Join [dest] ++ [image.digestToFilename digest] in
  image.NewRequest_ok (image.dockerImageUrl imageName digest) = true →
  image.http_Do (layer_request imageName authToken {| image.Digest := digest |})
    = Ok resp →
  names w !! Join [dest] = Some (NDir perm) →
  (∀ n, names w !! filePath = Some n → ∃ i, n = NFile i) →
  ∃ w' mode,
    image.downloadLayer digest imageName authToken dest w
    = (match r_err resp with None => Ok tt | Some e => Err e end, w')
    ∧ file_at w' filePath = Some (mode, r_bytes resp).
Proof.
  intros filePath Hurl Hdo Hdir Hfree.
  rewrite downloadLayer_unfold. cbv zeta. rewrite Hurl, Hdo.
  rewrite (proj1 (digest_file_placement dest digest)). fold filePath.
  unfold os_Create, parent_check. simpl.
  unfold filePath at 1. rewrite Dir_app, Hdir.
  destruct (names w !! filePath) as [n|] eqn:E.
  - destruct (Hfree n eq_refl) as [i ->].
    unfold io_Copy. simpl.
    eexists _, _. split; [by destruct (r_err resp)|].
    unfold file_at. destruct (r_err resp); simpl; rewrite E;
      by rewrite lookup_insert_eq.
  - unfold io_Copy. simpl.
    eexists _, _. split; [by destruct (r_err resp)|].
    unfold file_at. destruct (r_err resp); simpl;
      by rewrite !lookup_insert_eq.
Qed.

Lemma downloadLayer_keeps_what_was_read_witness :
  ∃ w' mode,
    @image.downloadLayer cases.broken_body "sha256:a" "library/app" "tok"
      "/layers" sample.one_bad_layer
    = (Err (Lib "unexpected EOF"), w')
    ∧ file_at w' ["layers"; "c2hhMjU2OmE=.tar.gz"] = Some (mode, "part").
Proof.
  apply (@downloadLayer_keeps_what_was_read cases.broken_body
           "sha256:a" "library/app" "tok" "/layers" sample.one_bad_layer
           (Reader "part" (Some (Lib "unexpected EOF"))) 493).
  - done.
  - done.
  - by vm_compute.
  - intros n Hn. by vm_compute in Hn.
Defined.

(** ** Package build *)

Section more_build.
Import runner.
Context `{Archives} `{image.Registry} `{Process}.

Lemma bind_ok {A B} (m : M A) (k : A → M B) w b w' :
  bind m k w = (Ok b, w') → ∃ a w1, m w = (Ok a, w1) ∧ k a w1 = (Ok b, w').
Proof.
  unfold bind. destruct (m w) as [[a| |] w1]; try done. by eauto.
Qed.

Lemma handleFrom_ok r imageName tag w r' w' :
  build.handleFrom r (dockerfile.FromInstruction imageName tag) w = (Ok r', w') →
  r' = build.set_rootfsPath (rootfs_of imageName tag) r.
Proof.
  unfold build.handleFrom. fold (rootfs_of imageName tag).
  intros (_ & w1 & _ & Hrun)%bind_ok. revert Hrun.
  destruct (os_Stat _ w1) as [err w2].
  destruct (negb _); [by intros [= <- _]|].
  intros (_ & ? & _ & Hrun)%bind_ok.
  apply bind_ok in Hrun as (_ & ? & _ & Hrun).
  apply bind_ok in Hrun as (_ & ? & _ & Hrun).
  apply bind_ok in Hrun as (_ & ? & _ & Hrun).
  by injection Hrun as <- _.
Qed.

Lemma handleCopy_ok r src dst w r' w' :
  handleCopy r (dockerfile.CopyInstruction src dst) w = (Ok r', w') →
  r' = r ∧ build.rootfsPath r ≠ "".
Proof.
  unfold handleCopy.
  destruct (String.eqb_spec (build.rootfsPath r) "") as [->|Hne]; [done|].
  destruct (_ || _); [done|]. destruct os_Getwd as [err|cwd]; [done|].
  destruct (os_Stat _ w) as [err w1].
  destruct (if negb _ then _ else _) as [x w2].
  destruct (os_Stat _ w2) as [err' w3].
  destruct (IsNotExist _); [done|].
  intros (_ & ? & _ & Hrun)%bind_ok.
  apply bind_ok in Hrun as (_ & ? & _ & Hrun).
  by injection Hrun as <- _.
Qed.

Lemma handleEntrypoint_ok r entry w r' w' :
  handleEntrypoint r (dockerfile.EntryPointInstruction entry) w = (Ok r', w') →
  r' = set_entrypoint entry r ∧ entry ≠ [].
Proof.
  unfold handleEntrypoint. destruct entry; [done|]. simpl.
  by intros [= <- _].
Qed.

Lemma prepare_loop_ok ins r w r' w' :
  prepare_loop r ins w = (Ok r', w') →
  build.rootfsPath r' = last_from ins (build.rootfsPath r)
  ∧ build.entrypoint r' = last_entrypoint ins (build.entrypoint r)
  ∧ (∀ pre src dst post,
       ins = pre ++ dockerfile.CopyInstruction src dst :: post →
       last_from pre (build.rootfsPath r) ≠ "")
  ∧ dockerfile.EntryPointInstruction [] ∉ ins.
Proof.
  revert r w. induction ins as [|inst ins IH]; intros r w.
  - intros [= <- _]. repeat split; try done.
    + intros pre ???. by destruct pre.
    + by intros ?%elem_of_nil.
  - cbn [prepare_loop].
    destruct inst as [imageName tag|src dst|entry]; simpl.
    + intros (r1 & w1 & ->%handleFrom_ok & (Hr & He & Hc & Hn)%IH)%bind_ok.
      simpl in *. split; [done|]. split; [done|]. split.
      * intros [|i pre] ??? Heq; [done|]. injection Heq as <- ->.
        simpl. by eapply Hc.
      * intros [?|?]%elem_of_cons; done.
    + intros (r1 & w1 & [-> Hne]%handleCopy_ok & (Hr & He & Hc & Hn)%IH)%bind_ok.
      split; [done|]. split; [done|]. split.
      * intros [|i pre] ??? Heq; [done|]. injection Heq as <- ->.
        simpl. by eapply Hc.
      * intros [?|?]%elem_of_cons; done.
    + intros (r1 & w1 & [-> Hne]%handleEntrypoint_ok
              & (Hr & He & Hc & Hn)%IH)%bind_ok.
      simpl in *. split; [done|]. split; [done|]. split.
      * intros [|i pre] ??? Heq; [done|]. injection Heq as <- ->.
        simpl. by eapply Hc.
      * intros [[= <-]|?]%elem_of_cons; done.
Qed.
End more_build.

(** X13: what [Prepare] returns without error is decided by the last
    FROM and the last ENTRYPOINT of the Dockerfile: the path is
    /tmp/gocker/rootfs/image/tag of the last FROM (empty when there is
    none), the entrypoint is the argument list of the last ENTRYPOINT
    (nil when there is none).  Success also means that every COPY came
    after a FROM and that no ENTRYPOINT was without arguments. *)
Theorem Prepare_returns_last_FROM_and_ENTRYPOINT `{Archives} `{image.Registry}
    `{runner.Process} (ins : list dockerfile.Instruction) (w w' : world)
    (rootfsPath : string) (entrypoint : list string) :
  runner.Prepare (build.NewRunner ins) w = (Ok (rootfsPath, entrypoint), w') →
  rootfsPath = last_from ins ""
  ∧ entrypoint = last_entrypoint ins []
  ∧ (∀ pre src dst post,
       ins = pre ++ dockerfile.CopyInstruction src dst :: post →
       ∃ imageName tag, dockerfile.FromInstruction imageName tag ∈ pre)
  ∧ dockerfile.EntryPointInstruction [] ∉ ins.
Proof.
  unfold runner.Prepare.
  intros (r & w1 & (Hr & He & Hc & Hn)%prepare_loop_ok & Hret)%bind_ok.
  injection Hret as <- <- _. simpl in *.
  split; [done|]. split; [done|]. split; [|done].
  intros pre src dst post Hins. specialize (Hc _ _ _ _ Hins).
  clear -Hc. revert Hc.
  induction pre as [|[i t|s d|e] pre IH]; simpl.
  - done.
  - intros _. exists i, t. by left.
  - intros (i & t & ?)%IH. exists i, t. by right.
  - intros (i & t & ?)%IH. exists i, t. by right.
Qed.

Lemma Prepare_returns_last_FROM_and_ENTRYPOINT_witness :
  "/tmp/gocker/rootfs/node/alpine"
  = last_from [dockerfile.FromInstruction "busybox" "1";
               dockerfile.EntryPointInstruction ["sh"];
               dockerfile.FromInstruction "node" "alpine";
               dockerfile.EntryPointInstruction ["node"; "app.js"]] ""
  ∧ ["node"; "app.js"]
    = last_entrypoint [dockerfile.FromInstruction "busybox" "1";
                       dockerfile.EntryPointInstruction ["sh"];
                       dockerfile.FromInstruction "node" "alpine";
                       dockerfile.EntryPointInstruction ["node"; "app.js"]] [].
Proof.
  destruct (@Prepare_returns_last_FROM_and_ENTRYPOINT
              (sample.archives []) sample.no_riscv hosts.in_work
              [dockerfile.FromInstruction "busybox" "1";
               dockerfile.EntryPointInstruction ["sh"];
               dockerfile.FromInstruction "node" "alpine";
               dockerfile.EntryPointInstruction ["node"; "app.js"]]
              (set_names
                 (<[ ["tmp"; "gocker"; "rootfs"; "busybox"; "1"] := NDir 493 ]>
                    (<[ ["tmp"; "gocker"; "rootfs"; "busybox"] := NDir 493 ]>
                       (names sample.empty_rootfs)))
                 sample.empty_rootfs)
              (@runner.Prepare (sample.archives []) sample.no_riscv hosts.in_work
                 (build.NewRunner
                    [dockerfile.FromInstruction "busybox" "1";
                     dockerfile.EntryPointInstruction ["sh"];
                     dockerfile.FromInstruction "node" "alpine";
                     dockerfile.EntryPointInstruction ["node"; "app.js"]])
                 (set_names
                    (<[ ["tmp"; "gocker"; "rootfs"; "busybox"; "1"] := NDir 493 ]>
                       (<[ ["tmp"; "gocker"; "rootfs"; "busybox"] := NDir 493 ]>
                          (names sample.empty_rootfs)))
                    sample.empty_rootfs)).2
              "/tmp/gocker/rootfs/node/alpine" ["node"; "app.js"])
    as (Hr & He & _).
  - by vm_compute.
  - by split.
Defined.

Section copy.
Import runner.
Context `{Archives} `{image.Registry} `{Process}.

Lemma os_Link_ok old new w w' :
  os_Link old new w = (Ok tt, w') →
  ∃ n, names w !! old = Some n ∧ (∀ perm, n ≠ NDir perm)
       ∧ names w !! new = None
       ∧ w' = set_names (<[new := n]> (names w)) w.
Proof.
  unfold os_Link.
  destruct (names w !! old) as [n|] eqn:Eo; [|done].
  intros Hl. exists n. split; [done|].
  destruct n as [perm|i|l]; [done| |];
    (split; [done|]);
    destruct (parent_check w new); try done;
    destruct (names w !! new); try done; by injection Hl as <-.
Qed.

Lemma walk_shrink (ns ns' : gmap path node) seen todo :
  ns' ⊆ ns → walk ns seen todo = Err (Errno ENOENT) →
  walk ns' seen todo = Err (Errno ENOENT).
Proof.
  intros Hsub. revert seen. induction todo as [|c todo IH]; intros seen; simpl.
  - destruct (ns !! seen) eqn:E; [done|]. intros _.
    by rewrite (lookup_weaken_None _ _ _ E Hsub).
  - destruct (ns !! seen) as [n|] eqn:E.
    + destruct (ns' !! seen) as [n'|] eqn:E'; [|done].
      rewrite (lookup_weaken _ _ _ _ E' Hsub) in E. injection E as <-.
      destruct n'; [apply IH|done..].
    + intros _. by rewrite (lookup_weaken_None _ _ _ E Hsub).
Qed.

(** The state in which [handleCopy] looks for the source. *)
Lemma handleCopy_unfold r src dst cwd w :
  os_Getwd = inr cwd →
  build.rootfsPath r ≠ "" → src ≠ "" → dst ≠ "" →
  let srcPath := Join [cwd; src] in
  let dstPath := Join [build.rootfsPath r; dst] in
  let w1 := if negb (IsNotExist (error_of (walk (names w) [] dstPath)))
            then (os_RemoveAll dstPath w).2 else w in
  handleCopy r (dockerfile.CopyInstruction src dst) w
  = if IsNotExist (error_of (walk (names w1) [] srcPath)) then
      (Err (Errorf ("source file " +:+ path_string srcPath
                    +:+ " does not exist")), w1)
    else
      (do* wrap ("failed to create destination directory "
                 +:+ path_string (Dir dstPath))
                (os_MkdirAll (Dir dstPath) 493) in
       do* wrap ("failed to copy " +:+ path_string srcPath +:+ " to "
                 +:+ path_string dstPath)
                (os_Link srcPath dstPath) in
       ret r) w1.
Proof.
  intros Hcwd Hr Hs Hd srcPath dstPath w1. unfold handleCopy.
  apply String.eqb_neq in Hr, Hs, Hd. rewrite Hr, Hs, Hd, Hcwd. simpl.
  fold srcPath. fold dstPath. unfold os_Stat. subst w1.
  destruct (negb _); [|done].
  by destruct (os_RemoveAll dstPath w).
Qed.

Lemma names_after_RemoveAll p w :
  names (os_RemoveAll p w).2 ⊆ names w
  ∧ inodes (os_RemoveAll p w).2 = inodes w.
Proof.
  unfold os_RemoveAll. destruct p; simpl; (split; [|done]);
    apply map_filter_subseteq.
Qed.
End copy.

(** X14: COPY does not copy, it links: when [handleCopy] returns nil (in
    a file system without symbolic links), the destination in the root
    file system is a second name of the source file on the host (which
    is therefore not a directory); no file content was written, and the
    Runner is unchanged. *)
Theorem handleCopy_links_the_source `{runner.Process} (r r' : build.Runner) (src dst cwd : string)
    (w w' : world) :
  symlink_free w →
  runner.os_Getwd = inr cwd →
  runner.handleCopy r (dockerfile.CopyInstruction src dst) w = (Ok r', w') →
  ∃ n,
    names w !! Join [cwd; src] = Some n
    ∧ (∀ perm, n ≠ NDir perm)
    ∧ names w' !! Join [build.rootfsPath r; dst] = Some n
    ∧ names w' !! Join [cwd; src] = Some n
    ∧ inodes w' = inodes w
    ∧ r' = r.
Proof.
  intros _ Hcwd Hrun.
  assert (build.rootfsPath r ≠ "" ∧ src ≠ "" ∧ dst ≠ "") as (Hr & Hs & Hd).
  { revert Hrun. unfold runner.handleCopy.
    destruct (String.eqb_spec (build.rootfsPath r) ""); [done|].
    destruct (String.eqb_spec src ""); [done|].
    by destruct (String.eqb_spec dst ""). }
  rewrite (handleCopy_unfold _ _ _ _ _ Hcwd Hr Hs Hd) in Hrun. cbv zeta in Hrun.
  set (w1 := if negb _ then _ else _) in Hrun.
  assert (names w1 ⊆ names w ∧ inodes w1 = inodes w) as [Hsub Hino].
  { subst w1. destruct (negb _); [apply names_after_RemoveAll|done]. }
  revert Hrun.
  destruct (IsNotExist (error_of (walk (names w1) _ _))); [done|]. intros Hrun.
  apply bind_ok in Hrun as ([] & w2 & Hmk & Hrun).
  apply bind_ok in Hrun as ([] & w3 & Hlk & Hrun).
  injection Hrun as <- <-.
  unfold wrap, os_MkdirAll in Hmk.
  destruct (mkdir_walk _ _ _ _) as [rm ns2] eqn:Emk.
  assert (rm = Ok tt ∧ w2 = set_names ns2 w1) as [-> ->].
  { simpl in Hmk. destruct rm as [[]| |]; [|done..]. by injection Hmk as <-. }
  assert (os_Link (Join [cwd; src]) (Join [build.rootfsPath r; dst])
            (set_names ns2 w1) = (Ok tt, w3)) as Hlk'.
  { unfold wrap in Hlk. destruct (os_Link _ _ _) as [[[]| |] ?]; congruence. }
  apply os_Link_ok in Hlk' as (n & Hsrc & Hnd & Hfree & ->). simpl in *.
  exists n.
  assert (names w1 !! Join [cwd; src] = Some n) as Hsrc1.
  { destruct (mkdir_walk_new _ _ _ _ _ _ _ _ Emk Hsrc) as [?|[_ ->]]; [done|].
    by destruct (Hnd (Z.ldiff 493 (umask w1))). }
  split; [by eapply lookup_weaken|]. split; [done|].
  split; [apply lookup_insert_eq|]. split; [|done].
  rewrite lookup_insert_ne; [done|]. congruence.
Qed.

Lemma handleCopy_links_the_source_witness :
  let w' := (@runner.handleCopy hosts.in_work
               (build.set_rootfsPath "/tmp/gocker/rootfs/node/alpine"
                  (build.NewRunner []))
               (dockerfile.CopyInstruction "app.js" "/app/main.js")
               hosts.project).2 in
  names w' !! ["tmp"; "gocker"; "rootfs"; "node"; "alpine"; "app"; "main.js"]
  = Some (NFile 0)
  ∧ names w' !! ["work"; "app.js"] = Some (NFile 0).
Proof.
  intros w'.
  destruct (@handleCopy_links_the_source hosts.in_work
              (build.set_rootfsPath "/tmp/gocker/rootfs/node/alpine"
                 (build.NewRunner []))
              (build.set_rootfsPath "/tmp/gocker/rootfs/node/alpine"
                 (build.NewRunner []))
              "app.js" "/app/main.js" "/work" hosts.project w')
    as (n & Hn & _ & Hdst & Hsrc & _).
  - apply (bool_decide_unpack _). by vm_compute.
  - done.
  - by vm_compute.
  - assert (n = NFile 0) as -> by (vm_compute in Hn; congruence).
    split; [exact Hdst|exact Hsrc].
Defined.

(** X15: [handleCopy] clears the destination before it looks at the
    source: when (in a file system without symbolic links) something
    stands at the destination and the source does not exist, the error
    "source file ... does not exist" is returned after the destination
    and everything below it were removed. *)
Theorem handleCopy_removes_destination_first `{runner.Process}
    (r : build.Runner) (src dst cwd : string) (w : world) :
  let srcPath := Join [cwd; src] in
  let dstPath := Join [build.rootfsPath r; dst] in
  symlink_free w →
  runner.os_Getwd = inr cwd →
  build.rootfsPath r ≠ "" → src ≠ "" → dst ≠ "" →
  dstPath ≠ [] →
  IsNotExist (error_of (os_Stat dstPath w).1) = false →
  (os_Stat srcPath w).1 = Err (Errno ENOENT) →
  ∃ w',
    runner.handleCopy r (dockerfile.CopyInstruction src dst) w
    = (Err (Errorf ("source file " +:+ path_string srcPath
                    +:+ " does not exist")), w')
    ∧ (∀ q, dstPath `prefix_of` q → names w' !! q = None)
    ∧ (∀ q, ¬ dstPath `prefix_of` q → names w' !! q = names w !! q).
Proof.
  intros srcPath dstPath _ Hcwd Hr Hs Hd Hroot Hdst Hsrc.
  rewrite (handleCopy_unfold _ _ _ _ _ Hcwd Hr Hs Hd). cbv zeta.
  fold srcPath. fold dstPath. unfold os_Stat in Hdst, Hsrc. simpl in Hdst, Hsrc.
  rewrite Hdst. simpl.
  rewrite (walk_shrink (names w) _ [] srcPath
             (proj1 (names_after_RemoveAll dstPath w)) Hsrc). simpl.
  eexists. split; [done|].
  unfold os_RemoveAll. destruct dstPath as [|c dstPath'] eqn:E; [done|].
  simpl. split.
  - intros q Hq. apply map_lookup_filter_None. right. intros n _ Hn. by apply Hn.
  - intros q Hq. destruct (names w !! q) as [n|] eqn:En.
    + by apply map_lookup_filter_Some.
    + apply map_lookup_filter_None. by left.
Qed.

Lemma handleCopy_removes_destination_first_witness :
  ∃ w',
    @runner.handleCopy hosts.in_work
      (build.set_rootfsPath "/tmp/gocker/rootfs/node/alpine" (build.NewRunner []))
      (dockerfile.CopyInstruction "dist" "/app") hosts.project
    = (Err (Errorf "source file /work/dist does not exist"), w')
    ∧ names w' !! ["tmp"; "gocker"; "rootfs"; "node"; "alpine"; "app"; "main.js"]
      = None.
Proof.
  destruct (@handleCopy_removes_destination_first hosts.in_work
              (build.set_rootfsPath "/tmp/gocker/rootfs/node/alpine"
                 (build.NewRunner []))
              "dist" "/app" "/work" hosts.project)
    as (w' & Hrun & Hgone & _).
  - apply (bool_decide_unpack _). by vm_compute.
  - done.
  - done.
  - done.
  - done.
  - by vm_compute.
  - by vm_compute.
  - by vm_compute.
  - exists w'. split; [exact Hrun|]. apply Hgone.
    by exists ["main.js"].
Defined.

(** ** Package container *)

(** X16: the init branch does its steps in one order and stops at the
    first that fails: whatever the host answers, what it did is an
    initial part of chroot, chdir to /, mount of /proc, stat of the
    entrypoint, the message, exec of the entrypoint with itself as first
    argument and the environment of the process.  The image is replaced
    only after all of them, and exec is never reached when stat reports
    that the entrypoint does not exist. *)
Theorem startInitProcess_steps_in_order `{container.Host}
    (rootfs entrypoint : string) (args : list string) :
  let run := container.startInitProcess rootfs (entrypoint :: args) in
  run.1 `prefix_of` init_events rootfs entrypoint args
  ∧ (run.2 = container.Replaced → run.1 = init_events rootfs entrypoint args)
  ∧ (run.1 = init_events rootfs entrypoint args ↔
     container.syscall_Chroot rootfs = None
     ∧ container.syscall_Chdir "/" = None
     ∧ container.syscall_Mount = None
     ∧ IsNotExist (container.os_Stat entrypoint) = false).
Proof.
  unfold container.startInitProcess, init_events. simpl.
  destruct (container.syscall_Chroot rootfs).
  { split; [by eexists|]. split; [done|]. split; [done|]. by intros (? & _). }
  destruct (container.syscall_Chdir "/").
  { split; [by eexists|]. split; [done|]. split; [done|]. by intros (_ & ? & _). }
  destruct container.syscall_Mount.
  { split; [by eexists|]. split; [done|]. split; [done|].
    by intros (_ & _ & ? & _). }
  destruct (IsNotExist _).
  { split; [by eexists|]. split; [done|]. split; [done|].
    by intros (_ & _ & _ & ?). }
  destruct (container.syscall_Exec _ _ _); (split; [by exists []|done]).
Qed.

(** X17: the supervisor waits for the child only when the child was
    put under the resource limits: if [Run] waits, the child was
    spawned, the group was created and the child was added to it before,
    and what [Run] returns is what [cmd.Wait] returned; the child is not
    killed. *)
Theorem Run_waits_only_for_a_constrained_child `{container.Host}
    (rootfs : string) (command : list string) (p : Z) :
  container.Getenv container.initEnv ≠ "1" →
  container.Wait p ∈ (container.Run rootfs command).1 →
  container.cmd_Start = container.Spawned p
  ∧ container.cgroup_NewSystemd = None
  ∧ container.cgroup_AddProc (container.uint64 p) = None
  ∧ (∃ start res,
       (container.Run rootfs command).1
       = [start; container.NewSystemd "/" "gocker-container.slice" (-1) res;
          container.AddProc (container.uint64 p); container.Wait p])
  ∧ (container.Run rootfs command).2 = container.Return container.cmd_Wait.
Proof.
  intros Hsup. unfold container.Run, container.attachToCgroup.
  destruct (String.eqb_spec (container.Getenv container.initEnv) "1"); [done|].
  destruct container.cmd_Start as [pid|err]; [|intros Hin; no_such_event Hin].
  destruct container.cgroup_NewSystemd; [intros Hin; no_such_event Hin|].
  destruct (container.cgroup_AddProc (container.uint64 pid)) eqn:Hadd;
    [intros Hin; no_such_event Hin|].
  simpl. intros Hin.
  assert (p = pid) as ->.
  { repeat (apply elem_of_cons in Hin as [Hin|Hin]; [by simplify_eq|]).
    by apply elem_of_nil in Hin. }
  split; [done|]. split; [done|]. split; [done|]. split; [|done].
  by eexists _, _.
Qed.

Lemma Run_waits_only_for_a_constrained_child_witness :
  let H := sample.host "" (container.Spawned 4242) None None ["/bin/sh"] in
  (@container.Run H "/tmp/gocker/rootfs/node/alpine" ["/bin/sh"]).2
  = container.Return None.
Proof.
  intros H.
  apply (@Run_waits_only_for_a_constrained_child H
           "/tmp/gocker/rootfs/node/alpine" ["/bin/sh"] 4242).
  - by vm_compute.
  - vm_compute. do 3 apply list_elem_of_further. apply list_elem_of_here.
Defined.

(** X18: a Dockerfile without ENTRYPOINT passes [Prepare], and the
    container then fails in the init process: [Prepare] returns no
    entrypoint, and with no entrypoint the init branch of [Run] never
    replaces the process image; once chroot, chdir and mount are done it
    panics on the first element of the empty command. *)
Theorem no_ENTRYPOINT_panics_in_init `{Archives} `{image.Registry}
    `{runner.Process} `{container.Host}
    (ins : list dockerfile.Instruction) (w w' : world)
    (rootfsPath : string) (entrypoint : list string) :
  runner.Prepare (build.NewRunner ins) w = (Ok (rootfsPath, entrypoint), w') →
  (∀ entry, dockerfile.EntryPointInstruction entry ∉ ins) →
  container.Getenv container.initEnv = "1" →
  entrypoint = []
  ∧ (container.Run rootfsPath entrypoint).2 ≠ container.Replaced
  ∧ (∀ argv0 argv envv,
       container.Exec argv0 argv envv ∉ (container.Run rootfsPath entrypoint).1)
  ∧ (container.syscall_Chroot rootfsPath = None →
     container.syscall_Chdir "/" = None →
     container.syscall_Mount = None →
     (container.Run rootfsPath entrypoint).2
     = container.Panicked "index out of range [0] with length 0").
Proof.
  unfold runner.Prepare.
  intros (r & w1 & (_ & He & _)%prepare_loop_ok & Hret)%bind_ok Hno Hinit.
  injection Hret as _ <- _. simpl in He.
  assert (build.entrypoint r = []) as ->.
  { rewrite He. clear -Hno. induction ins as [|[i t|s d|e] ins IH]; simpl.
    - done.
    - apply IH. intros e He. apply (Hno e). by right.
    - apply IH. intros e He. apply (Hno e). by right.
    - destruct (Hno e). by left. }
  split; [done|]. unfold container.Run. rewrite Hinit. simpl.
  unfold container.startInitProcess.
  destruct (container.syscall_Chroot rootfsPath);
    [split; [done|]; split; [intros ??? Hin; no_such_event Hin|done]|].
  destruct (container.syscall_Chdir "/");
    [split; [done|]; split; [intros ??? Hin; no_such_event Hin|done]|].
  destruct container.syscall_Mount;
    (split; [done|]; split; [intros ??? Hin; no_such_event Hin|done]).
Qed.

Lemma no_ENTRYPOINT_panics_in_init_witness :
  (@container.Run
     (sample.host "1" (container.NotStarted (Errno ENOENT)) None None [])
     "/tmp/gocker/rootfs/node/alpine" []).2
  = container.Panicked "index out of range [0] with length 0".
Proof.
  destruct (@no_ENTRYPOINT_panics_in_init (sample.archives []) sample.no_riscv
              hosts.in_work
              (sample.host "1" (container.NotStarted (Errno ENOENT)) None None [])
              [dockerfile.FromInstruction "node" "alpine"]
              sample.empty_rootfs
              (@runner.Prepare (sample.archives []) sample.no_riscv hosts.in_work
                 (build.NewRunner [dockerfile.FromInstruction "node" "alpine"])
                 sample.empty_rootfs).2
              "/tmp/gocker/rootfs/node/alpine" [])
    as (_ & _ & _ & Hpanic).
  - by vm_compute.
  - intros entry Hin. apply list_elem_of_singleton in Hin. done.
  - done.
  - by apply Hpanic.
Defined.

(** ** A failed download and the next run *)

Section poisoned.
Lemma mkdir_walk_succeeds_again perm perm' seen todo ns nt :
  (mkdir_walk perm seen todo ns).1 = Ok tt →
  (∀ q n, nt !! q = Some n → is_dir n = false →
          ∃ n', ns !! q = Some n' ∧ is_dir n' = false) →
  (mkdir_walk perm' seen todo nt).1 = Ok tt.
Proof.
  revert seen ns nt. induction todo as [|c todo IH]; intros seen ns nt; simpl.
  - intros Hok Hnd.
    destruct (nt !! seen) as [[]|] eqn:Et; try done.
    + destruct (Hnd _ _ Et eq_refl) as (n' & Hn' & Hd). rewrite Hn' in Hok.
      by destruct n'.
    + destruct (Hnd _ _ Et eq_refl) as (n' & Hn' & Hd). rewrite Hn' in Hok.
      by destruct n'.
  - intros Hok Hnd.
    assert (∀ x, ∀ q n, nt !! q = Some n → is_dir n = false →
              ∃ n', (<[seen := NDir x]> ns) !! q = Some n' ∧ is_dir n' = false)
      as Hnd1.
    { intros x q n Hq Hn. destruct (Hnd _ _ Hq Hn) as (n' & Hn' & Hd).
      exists n'. split; [|done]. rewrite lookup_insert_ne; [done|].
      intros <-. rewrite Hn' in Hok. by destruct n'. }
    assert (∀ x y, ∀ q n, (<[seen := NDir y]> nt) !! q = Some n →
              is_dir n = false →
              ∃ n', (<[seen := NDir x]> ns) !! q = Some n' ∧ is_dir n' = false)
      as Hnd2.
    { intros x y q n Hq Hn. destruct (decide (q = seen)) as [->|Hne].
      - rewrite lookup_insert_eq in Hq. by simplify_eq.
      - rewrite lookup_insert_ne in Hq by done.
        destruct (Hnd _ _ Hq Hn) as (n' & Hn' & Hd).
        exists n'. by rewrite lookup_insert_ne. }
    assert (∀ y, ∀ q n, (<[seen := NDir y]> nt) !! q = Some n →
              is_dir n = false →
              ∃ n', ns !! q = Some n' ∧ is_dir n' = false) as Hnd3.
    { intros y q n Hq Hn. destruct (decide (q = seen)) as [->|Hne].
      - rewrite lookup_insert_eq in Hq. by simplify_eq.
      - rewrite lookup_insert_ne in Hq by done. by eapply Hnd. }
    destruct (ns !! seen) as [[]|] eqn:Es; try done;
      destruct (nt !! seen) as [[]|] eqn:Et.
    + by eapply IH.
    + destruct (Hnd _ _ Et eq_refl) as (n' & Hn' & Hd). by simplify_eq.
    + destruct (Hnd _ _ Et eq_refl) as (n' & Hn' & Hd). by simplify_eq.
    + eapply IH; [exact Hok|]. apply Hnd3.
    + eapply IH; [exact Hok|]. apply Hnd1.
    + destruct (Hnd _ _ Et eq_refl) as (n' & Hn' & Hd). by simplify_eq.
    + destruct (Hnd _ _ Et eq_refl) as (n' & Hn' & Hd). by simplify_eq.
    + eapply IH; [exact Hok|]. apply Hnd2.
Qed.

Lemma walk_mono (ns ns' : gmap path node) seen todo n :
  ns ⊆ ns' → walk ns seen todo = Ok n → walk ns' seen todo = Ok n.
Proof.
  intros Hsub. revert seen. induction todo as [|c todo IH]; intros seen; simpl.
  - destruct (ns !! seen) as [x|] eqn:E; [|done].
    by rewrite (lookup_weaken _ _ _ _ E Hsub).
  - destruct (ns !! seen) as [x|] eqn:E; [|done].
    rewrite (lookup_weaken _ _ _ _ E Hsub). destruct x; [apply IH|done..].
Qed.

Lemma walk_after_mkdir perm seen todo ns ns' :
  mkdir_walk perm seen todo ns = (Ok tt, ns') →
  ∃ p, walk ns' seen todo = Ok (NDir p).
Proof.
  revert seen ns. induction todo as [|c todo IH]; intros seen ns; simpl.
  - destruct (ns !! seen) as [[p| |]|] eqn:E; intros [= <-]; try done.
    + exists p. by rewrite E.
    + exists perm. by rewrite lookup_insert_eq.
  - destruct (ns !! seen) as [[p| |]|] eqn:E; try done.
    + intros Hmk. destruct (IH _ _ Hmk) as [p' Hw]. exists p'.
      pose proof (mkdir_walk_mono _ _ _ _ _ _ Hmk) as Hsub.
      by rewrite (lookup_weaken _ _ _ _ E Hsub).
    + intros Hmk. destruct (IH _ _ Hmk) as [p' Hw]. exists p'.
      pose proof (mkdir_walk_mono _ _ _ _ _ _ Hmk) as Hsub.
      by rewrite (lookup_weaken _ _ _ _ (lookup_insert_eq ns seen _) Hsub).
Qed.
End poisoned.

Section poisoned_cache.
Import image.
Context `{Archives} `{Registry}.

Lemma http_send_names req w r w' :
  http_send req w = (r, w') → names w' = names w.
Proof. by intros [= _ <-]. Qed.

Lemma authenticate_names imageName w r w' :
  authenticate imageName w = (r, w') → names w' = names w.
Proof.
  unfold authenticate, bind, http_Get, http_send, lift, ret, fail.
  destruct (NewRequest_ok _); [|by intros [= _ <-]].
  destruct (http_Do _); [|by intros [= _ <-]..].
  by destruct (json_AuthResponse _); intros [= _ <-].
Qed.

Lemma selectPlatformDigest_names imageName tag token w r w' :
  selectPlatformDigest imageName tag token w = (r, w') → names w' = names w.
Proof.
  unfold selectPlatformDigest, bind, http_send, lift, ret, fail, panic.
  destruct (NewRequest_ok _); [|by intros [= _ <-]].
  destruct (http_Do _); [|by intros [= _ <-]..].
  destruct (json_ManifestList _); [|by intros [= _ <-]..].
  by destruct (find_platform _); intros [= _ <-].
Qed.

Lemma fetchManifest_names imageName digest token w r w' :
  fetchManifest imageName digest token w = (r, w') → names w' = names w.
Proof.
  unfold fetchManifest, bind, http_send, lift, ret, fail.
  destruct (NewRequest_ok _); [|by intros [= _ <-]].
  destruct (http_Do _); [|by intros [= _ <-]..].
  by destruct (json_Manifest _); intros [= _ <-].
Qed.

(** [DownloadImage] removes nothing, however it ends. *)
Lemma DownloadImage_names imageName tag dest w r w' :
  DownloadImage imageName tag dest w = (r, w') → names w ⊆ names w'.
Proof.
  unfold DownloadImage. unfold bind at 1.
  destruct (authenticate imageName w) as [r1 w1] eqn:E1.
  apply authenticate_names in E1.
  destruct r1 as [token| |]; [|by intros [= _ <-]; rewrite E1..].
  unfold bind at 1, print at 1. unfold bind at 1.
  destruct (selectPlatformDigest _ _ _ _) as [r2 w2] eqn:E2.
  apply selectPlatformDigest_names in E2. simpl in E2.
  destruct r2 as [digest| |]; [|by intros [= _ <-]; rewrite E2, E1..].
  unfold bind at 1, print at 1. unfold bind at 1.
  destruct (fetchManifest _ _ _ _) as [r3 w3] eqn:E3.
  apply fetchManifest_names in E3. simpl in E3.
  destruct r3 as [manifest| |]; [|by intros [= _ <-]; rewrite E3, E2, E1..].
  unfold bind at 1, print at 1. unfold bind at 1.
  destruct (download_loop _ _ _ _ _ _ _) as [r4 w4] eqn:E4.
  apply download_loop_requests in E4 as (Hsub & _). simpl in Hsub.
  rewrite E3, E2, E1 in Hsub.
  destruct r4 as [[]| |]; [|by intros [= _ <-]..].
  unfold bind, print, ret. by intros [= _ <-].
Qed.

Lemma handleFrom_reuses r imageName tag w :
  IsNotExist (error_of (walk (names w) [] (Join [rootfs_of imageName tag])))
    = false →
  reuses r imageName tag w.
Proof.
  intros Hthere. eexists. split.
  { unfold build.handleFrom, bind, print. fold (rootfs_of imageName tag).
    unfold os_Stat. simpl. by rewrite Hthere. }
  done.
Qed.
End poisoned_cache.

Section failed_download.
Context `{Archives} `{image.Registry}.

Lemma ignore_mkdir p perm w :
  ignore_err (os_MkdirAll p perm) w
  = (Ok tt, set_names (mkdir_walk (Z.ldiff perm (umask w)) [] p (names w)).2 w).
Proof.
  unfold ignore_err, os_MkdirAll.
  destruct (mkdir_walk _ _ _ _) as [[[]|e|msg] ns] eqn:E; try done.
  by destruct (mkdir_walk_no_panic _ _ _ _ _ _ E).
Qed.

Lemma walk_lookup (ns : gmap path node) seen todo n :
  walk ns seen todo = Ok n → ns !! (seen ++ todo) = Some n.
Proof.
  revert seen. induction todo as [|c todo IH]; intros seen; simpl.
  - rewrite app_nil_r. by destruct (ns !! seen); intros [= ->].
  - destruct (ns !! seen) as [[]|]; try done.
    intros Hc. apply IH in Hc. by rewrite <- app_assoc in Hc.
Qed.

(** The branch of [handleFrom] that downloads: both directories are
    made, whatever comes of it, and the image is downloaded. *)
Lemma handleFrom_downloads r imageName tag w :
  walk (names w) [] (Join [rootfs_of imageName tag]) = Err (Errno ENOENT) →
  let downloadPath := "/tmp/gocker/layers/" +:+ imageName +:+ "/" +:+ tag in
  let w0 := set_stdout
              (stdout w ++ ["Building root filesystem for image " +:+ imageName
                            +:+ " tag:" +:+ tag +:+ "..."]) w in
  let wA := set_names
              (mkdir_walk (Z.ldiff 493 (umask w)) [] (Join [downloadPath])
                 (names w)).2 w0 in
  let wB := set_names
              (mkdir_walk (Z.ldiff 493 (umask w)) []
                 (Join [rootfs_of imageName tag]) (names wA)).2 wA in
  build.handleFrom r (dockerfile.FromInstruction imageName tag) w
  = (do* wrap ("failed to download image " +:+ imageName +:+ ":" +:+ tag)
              (image.DownloadImage ("library/" +:+ imageName) tag downloadPath) in
     do* wrap "failed to build root filesystem"
              (filesystem.BuildFromLayers downloadPath
                 (rootfs_of imageName tag)) in
     ret (build.set_rootfsPath (rootfs_of imageName tag) r)) wB.
Proof.
  intros Hstat downloadPath w0 wA wB.
  unfold build.handleFrom. fold (rootfs_of imageName tag). fold downloadPath.
  unfold bind at 1, print at 1. fold w0.
  unfold os_Stat. cbn [names]. change (names w0) with (names w).
  rewrite Hstat. cbn [error_of IsNotExist negb].
  unfold bind at 1. rewrite ignore_mkdir. fold wA.
  unfold bind at 1. by rewrite ignore_mkdir.
Qed.
End failed_download.

(** X19: a download that fails leaves the directory of the root file
    system behind, and with it a cache entry: when [handleFrom] finds no
    root file system, can make its directory, and then returns the error
    of a failed download, the directory exists afterwards, so that the
    next [handleFrom] for the same image and tag requests and extracts
    nothing and returns nil with this path as the root file system. *)
Theorem failed_download_is_reused_by_the_next_run `{Archives} `{image.Registry}
    (r r2 : build.Runner) (imageName tag : string) (w w1 : world) (e : error) :
  let rootfs := Join [rootfs_of imageName tag] in
  (os_Stat rootfs w).1 = Err (Errno ENOENT) →
  (os_MkdirAll rootfs 493 w).1 = Ok tt →
  build.handleFrom r (dockerfile.FromInstruction imageName tag) w
  = (Err (Wrapf ("failed to download image " +:+ imageName +:+ ":" +:+ tag) e),
     w1) →
  is_dir_at w1 rootfs ∧ reuses r2 imageName tag w1.
Proof.
  intros rootfs Hstat Hmk.
  unfold os_Stat in Hstat. cbn [fst] in Hstat.
  rewrite (handleFrom_downloads _ _ _ _ Hstat). cbv zeta.
  destruct (mkdir_walk _ [] (Join [_]) (names w)) as [ra nsA] eqn:EA.
  cbn [snd names set_names set_stdout].
  assert (∀ q n, nsA !! q = Some n → is_dir n = false →
            ∃ n', names w !! q = Some n' ∧ is_dir n' = false) as HA.
  { intros q n Hq Hn.
    destruct (mkdir_walk_new _ _ _ _ _ _ _ _ EA Hq) as [?|[_ ->]]; [|done].
    by exists n. }
  unfold os_MkdirAll in Hmk.
  destruct (mkdir_walk _ [] rootfs (names w)) as [rm nsm] eqn:Em.
  cbn [fst] in Hmk. subst rm.
  assert ((mkdir_walk (Z.ldiff 493 (umask w)) [] rootfs (names w)).1 = Ok tt)
    as Hm1 by (by rewrite Em).
  pose proof (mkdir_walk_succeeds_again _ (Z.ldiff 493 (umask w)) _ _ _ nsA
                Hm1 HA) as HB.
  fold rootfs.
  destruct (mkdir_walk _ [] rootfs nsA) as [rb nsB] eqn:EB.
  cbn [fst snd] in *. subst rb.
  destruct (walk_after_mkdir _ _ _ _ _ EB) as [perm Hwalk].
  unfold bind at 1, wrap at 1.
  destruct (image.DownloadImage _ _ _ _) as [rd wd] eqn:ED.
  apply DownloadImage_names in ED. cbn [names] in ED.
  pose proof (walk_mono _ _ _ _ _ ED Hwalk) as Hwd.
  destruct rd as [[]|ed|msgd].
  - unfold bind at 1, wrap at 1.
    by destruct (filesystem.BuildFromLayers _ _ _) as [[[]| |] ?].
  - intros [= _ <-]. split.
    + exists perm. by apply (walk_lookup _ [] rootfs).
    + apply handleFrom_reuses. fold rootfs. by rewrite Hwd.
  - done.
Qed.

Lemma failed_download_is_reused_by_the_next_run_witness :
  let w1 := (@build.handleFrom (sample.archives []) sample.no_riscv
               (build.NewRunner [])
               (dockerfile.FromInstruction "node" "alpine")
               sample.empty_root).2 in
  is_dir_at w1 ["tmp"; "gocker"; "rootfs"; "node"; "alpine"]
  ∧ @reuses (sample.archives []) sample.no_riscv (build.NewRunner [])
      "node" "alpine" w1.
Proof.
  intros w1.
  apply (@failed_download_is_reused_by_the_next_run (sample.archives [])
           sample.no_riscv (build.NewRunner []) (build.NewRunner [])
           "node" "alpine" sample.empty_root w1
           (Errorf "no manifest found for platform linux/riscv64")).
  - by vm_compute.
  - by vm_compute.
  - by vm_compute.
Defined.

(** ** Where extraction writes *)

Section confined.
Import filesystem.

Lemma fold_clean_dotdot_free cs acc :
  ".." ∉ cs → ∃ k, fold_left clean_step cs acc = acc ++ k.
Proof.
  revert acc. induction cs as [|c cs IH]; intros acc Hno; simpl.
  - exists []. by rewrite app_nil_r.
  - apply not_elem_of_cons in Hno as [Hc Hno].
    unfold clean_step at 2.
    destruct (_ || _); [by apply IH|].
    destruct (String.eqb_spec c ".."); [done|].
    destruct (IH (acc ++ [c]) Hno) as [k ->].
    exists (c :: k). by rewrite <- app_assoc.
Qed.

(** The destination of an entry whose name has no ".." is the target
    root or lies below it. *)
Lemma Join_under_root root name :
  dotdot_free name → Join [root] `prefix_of` Join [root; name].
Proof.
  intros Hno. rewrite Join_root_name.
  destruct (fold_clean_dotdot_free _ (Join [root]) Hno) as [k ->].
  by exists k.
Qed.

Lemma mkdir_step (perm : Z) (p : path) (ns ns' : gmap path node)
    (r : outcome unit) (q : path) :
  mkdir_walk perm [] p ns = (r, ns') →
  ns' !! q = ns !! q
  ∨ (ns !! q = None ∧ (∃ x, ns' !! q = Some (NDir x)) ∧ q `prefix_of` p).
Proof.
  intros Hmk. pose proof (mkdir_walk_mono _ _ _ _ _ _ Hmk) as Hsub.
  destruct (ns !! q) as [n|] eqn:E.
  - left. by eapply lookup_weaken.
  - destruct (ns' !! q) as [n|] eqn:E'; [|by left]. right.
    split; [done|].
    destruct (mkdir_walk_new _ _ _ _ _ _ _ _ Hmk E') as [?|[_ ->]];
      [congruence|].
    split; [by eauto|].
    destruct (mkdir_walk_keys _ _ _ _ _ _ _ _ Hmk E' E) as [k ->].
    apply prefix_take.
Qed.

Lemma prefix_of_Dir (q p : path) : q `prefix_of` Dir p → q `prefix_of` p.
Proof.
  intros [k Hk]. unfold Dir in Hk.
  destruct (decide (p = [])) as [->|Hne]; [by exists k|].
  rewrite (app_removelast_last "" Hne), Hk. rewrite <- app_assoc. by eexists.
Qed.

(** A step of [os.MkdirAll] for the parent of the destination, followed
    by changes at the destination only. *)
Lemma step_after_mkdir perm (target : path) w r ns w' (q : path) :
  mkdir_walk perm [] (Dir target) (names w) = (r, ns) →
  (names w' !! q = ns !! q ∨ q = target) →
  step_at w w' target q.
Proof.
  intros Hmk [Hq| ->]; [|by right; left].
  destruct (mkdir_step _ _ _ _ _ q Hmk) as [Hs|(Hnone & [x Hx] & Hpre)].
  - left. congruence.
  - right. right. split; [done|]. split; [exists x; congruence|].
    by apply prefix_of_Dir.
Qed.

Lemma os_Remove_at (p : path) w r w' (q : path) :
  os_Remove p w = (r, w') → names w' !! q = names w !! q ∨ q = p.
Proof.
  intros [_ [->| ->]]%os_Remove_names; [by left|]. simpl.
  destruct (decide (q = p)) as [->|Hne]; [by right|].
  left. by rewrite lookup_delete_ne.
Qed.

Lemma os_Symlink_at old (new : path) w r w' (q : path) :
  os_Symlink old new w = (r, w') → names w' !! q = names w !! q ∨ q = new.
Proof.
  unfold os_Symlink. destruct old; [by intros [= _ <-]; left|].
  destruct (parent_check w new); [by intros [= _ <-]; left|].
  destruct (names w !! new); intros [= _ <-]; [by left|]. simpl.
  destruct (decide (q = new)) as [->|Hne]; [by right|].
  left. by rewrite lookup_insert_ne.
Qed.

Lemma os_Link_at (old new : path) w r w' (q : path) :
  os_Link old new w = (r, w') → names w' !! q = names w !! q ∨ q = new.
Proof.
  unfold os_Link.
  assert (∀ n, (match parent_check w new with
                | Some e => (Err e, w)
                | None =>
                    match names w !! new with
                    | Some _ => (Err (Errno EEXIST), w)
                    | None => (Ok tt, set_names (<[new:=n]> (names w)) w)
                    end
                end) = (r, w') →
               names w' !! q = names w !! q ∨ q = new) as Hin.
  { intros n. destruct (parent_check w new); [by intros [= _ <-]; left|].
    destruct (names w !! new); intros [= _ <-]; [by left|]. simpl.
    destruct (decide (q = new)) as [->|Hne]; [by right|].
    left. by rewrite lookup_insert_ne. }
  destruct (names w !! old) as [[]|]; try (by intros [= _ <-]; left);
    apply Hin.
Qed.

Lemma handler_step flag h hdr r root w res w' (q : path) :
  handlers flag = Some h → h hdr r root w = (res, w') →
  step_at w w' (Join [root; tar.Name hdr]) q.
Proof.
  unfold handlers. repeat case_match; intros [= <-].
  - rewrite handleDir_unfold.
    destruct (mkdir_walk _ _ _ _) as [r0 ns] eqn:Emk. intros [= _ <-].
    destruct (mkdir_step _ _ _ _ _ q Emk) as [?|(? & [x ?] & ?)];
      [by left|]. right. right. split; [done|]. split; [by exists x|done].
  - rewrite handleReg_unfold. cbv zeta.
    destruct (mkdir_walk _ _ _ _) as [r0 ns] eqn:Emk.
    intros Hrun. apply (step_after_mkdir _ _ _ _ _ _ _ Emk).
    destruct r0 as [[]|e|msg]; [|by injection Hrun as _ <-; left..].
    destruct (ns !! Join [root; tar.Name hdr]) as [[]|] eqn:Et;
      injection Hrun as _ <-; simpl; try (by left).
    destruct (decide (q = Join [root; tar.Name hdr])) as [->|Hne];
      [by right|]. left. by rewrite lookup_insert_ne.
  - unfold handleSymlink, bind, ignore_err, os_MkdirAll.
    destruct (mkdir_walk _ _ _ _) as [r0 ns] eqn:Emk.
    intros Hrun. apply (step_after_mkdir _ _ _ _ _ _ _ Emk).
    destruct r0 as [[]|e|msg]; [|by injection Hrun as _ <-; left..].
    destruct (os_Remove _ _) as [r1 w1] eqn:Erm.
    pose proof (os_Remove_at _ _ _ _ q Erm) as Hrm. simpl in Hrm.
    destruct r1 as [[]|e|msg];
      [| |by injection Hrun as _ <-].
    + apply (os_Symlink_at _ _ _ _ _ q) in Hrun.
      destruct Hrun as [->|?]; [done|by right].
    + apply (os_Symlink_at _ _ _ _ _ q) in Hrun.
      destruct Hrun as [->|?]; [done|by right].
  - unfold handleLink, bind, ignore_err, os_MkdirAll.
    destruct (mkdir_walk _ _ _ _) as [r0 ns] eqn:Emk.
    intros Hrun. apply (step_after_mkdir _ _ _ _ _ _ _ Emk).
    destruct r0 as [[]|e|msg]; [|by injection Hrun as _ <-; left..].
    destruct (os_Remove _ _) as [r1 w1] eqn:Erm.
    pose proof (os_Remove_at _ _ _ _ q Erm) as Hrm. simpl in Hrm.
    destruct r1 as [[]|e|msg];
      [| |by injection Hrun as _ <-].
    + apply (os_Link_at _ _ _ _ _ q) in Hrun.
      destruct Hrun as [->|?]; [done|by right].
    + apply (os_Link_at _ _ _ _ _ q) in Hrun.
      destruct Hrun as [->|?]; [done|by right].
Qed.
End confined.

Section confined_archive.
Import filesystem.

Lemma handle_entries_outside es trailer root w res w' (q : path) :
  handle_entries es trailer root w = (res, w') →
  (∀ e, e ∈ es → dotdot_free (tar.Name (tar.hdr e))) →
  ¬ Join [root] `prefix_of` q →
  names w' !! q = names w !! q
  ∨ (names w !! q = None ∧ is_dir_at w' q ∧ q `prefix_of` Join [root]).
Proof.
  revert w. induction es as [|e es IH]; intros w Hrun Hnames Hout.
  - left. simpl in Hrun. by destruct trailer; injection Hrun as _ <-.
  - cbn [handle_entries] in Hrun.
    destruct (handlers (tar.Typeflag (tar.hdr e))) as [h|] eqn:Hh;
      [|left; by injection Hrun as _ <-].
    unfold bind at 1, wrap in Hrun.
    destruct (h (tar.hdr e) (tar.body e) root w) as [r1 w1] eqn:E1.
    pose proof (handler_step _ _ _ _ _ _ _ _ q Hh E1) as Hstep.
    assert (Join [root] `prefix_of` Join [root; tar.Name (tar.hdr e)]) as Hunder.
    { apply Join_under_root, Hnames. by left. }
    assert (names w1 !! q = names w !! q
            ∨ (names w !! q = None ∧ is_dir_at w1 q
               ∧ q `prefix_of` Join [root])) as Hfirst.
    { destruct Hstep as [?|[->|(Hnone & Hdir & Hpre)]]; [by left|done|].
      right. split; [done|]. split; [done|].
      by destruct (prefix_weak_total _ _ _ Hpre Hunder). }
    destruct r1 as [[]|err|msg]; [|by injection Hrun as _ <-..].
    destruct (IH _ Hrun) as [Hsame|(Hnone & Hdir & Hpre)]; [|done| |].
    + intros e' He'. apply Hnames. by right.
    + destruct Hfirst as [?|(? & [x Hx] & ?)]; [left; congruence|].
      right. split; [done|]. split; [exists x; congruence|done].
    + destruct Hfirst as [Heq|(? & [x Hx] & ?)]; [|congruence].
      right. split; [congruence|done].
Qed.
End confined_archive.

Section apart.
Import filesystem.

(** One more name for a file, at a place below the root, for a new file
    or for a file that has a name below the root. *)
Lemma kept_step (root : path) w w' (target : path) :
  handed_out w → kept_apart root w →
  root `prefix_of` target → (next_ino w ≤ next_ino w')%nat →
  (∀ p i, names w' !! p = Some (NFile i) →
     names w !! p = Some (NFile i)
     ∨ (p = target
        ∧ ((i = next_ino w ∧ (next_ino w < next_ino w')%nat)
           ∨ ∃ o, root `prefix_of` o ∧ names w !! o = Some (NFile i)))) →
  handed_out w' ∧ kept_apart root w'.
Proof.
  intros Hout Hapart Hunder Hnext Hfiles. split.
  - intros p i Hp.
    destruct (Hfiles _ _ Hp) as [Hold|[_ [[-> ?]|(o & _ & Ho)]]]; [|done|].
    + specialize (Hout _ _ Hold). lia.
    + specialize (Hout _ _ Ho). lia.
  - intros p q i Hp Hq Hpre.
    destruct (Hfiles _ _ Hq) as [Hqold|[-> _]]; [|done].
    destruct (Hfiles _ _ Hp) as [Hpold|[_ [[-> ?]|(o & Hopre & Ho)]]].
    + by apply (Hapart p q i).
    + specialize (Hout _ _ Hqold). lia.
    + by apply (Hapart o q i).
Qed.

Lemma os_Link_names (old new : path) w r w' :
  os_Link old new w = (r, w') →
  inodes w' = inodes w ∧ next_ino w' = next_ino w
  ∧ (names w' = names w
     ∨ ∃ n, names w !! old = Some n ∧ names w' = <[new := n]> (names w)).
Proof.
  unfold os_Link.
  assert (∀ n, names w !! old = Some n →
               (match parent_check w new with
                | Some e => (Err e, w)
                | None =>
                    match names w !! new with
                    | Some _ => (Err (Errno EEXIST), w)
                    | None => (Ok tt, set_names (<[new:=n]> (names w)) w)
                    end
                end) = (r, w') →
               inodes w' = inodes w ∧ next_ino w' = next_ino w
               ∧ (names w' = names w
                  ∨ ∃ n, names w !! old = Some n
                         ∧ names w' = <[new := n]> (names w))) as Hin.
  { intros n Hn. destruct (parent_check w new); [by intros [= _ <-]; eauto|].
    destruct (names w !! new); intros [= _ <-]; [by eauto|]. simpl.
    split; [done|]. split; [done|]. right. by exists n. }
  destruct (names w !! old) as [[]|] eqn:Eold;
    try (by intros [= _ <-]; eauto); by apply Hin.
Qed.

(** What one entry does to the files: the files of the root stay apart
    from the others, and no file outside the root is written to. *)
Lemma handler_apart flag h hdr r root w res w' :
  handlers flag = Some h → flag ≠ tar.TypeSymlink →
  h hdr r root w = (res, w') →
  dotdot_free (tar.Name hdr) →
  (flag = tar.TypeLink → dotdot_free (tar.Linkname hdr)) →
  handed_out w → kept_apart (Join [root]) w →
  (handed_out w' ∧ kept_apart (Join [root]) w')
  ∧ ∀ (q : path) (j : nat),
      ¬ Join [root] `prefix_of` q → names w !! q = Some (NFile j) →
      inodes w' !! j = inodes w !! j.
Proof.
  intros Hh Hflag Hrun Hname Hlink Hout Hapart.
  pose proof (Join_under_root root _ Hname) as Hunder.
  assert (∀ ns r0 perm todo w0,
            mkdir_walk perm [] todo (names w) = (r0, ns) →
            names w0 = ns → inodes w0 = inodes w → next_ino w0 = next_ino w →
            (handed_out w0 ∧ kept_apart (Join [root]) w0)
            ∧ ∀ (q : path) (j : nat),
                ¬ Join [root] `prefix_of` q → names w !! q = Some (NFile j) →
                inodes w0 !! j = inodes w !! j) as Hdirs.
  { intros ns r0 perm todo w0 Hmk Hns Hino Hnext. split.
    - apply (kept_step _ w w0 _ Hout Hapart Hunder); [lia|].
      intros p i Hp. left. rewrite Hns in Hp.
      by apply (mkdir_walk_file _ _ _ _ _ _ _ _ Hmk).
    - intros q j _ _. by rewrite Hino. }
  revert Hh Hrun. unfold handlers. repeat case_match; intros [= <-].
  - rewrite handleDir_unfold.
    destruct (mkdir_walk _ _ _ _) as [r0 ns] eqn:Emk. intros [= _ <-].
    by apply (Hdirs _ _ _ _ _ Emk).
  - rewrite handleReg_unfold. cbv zeta.
    destruct (mkdir_walk _ _ _ _) as [r0 ns] eqn:Emk.
    destruct r0 as [[]|e|msg];
      [|by intros [= _ <-]; apply (Hdirs _ _ _ _ _ Emk)..].
    destruct (ns !! Join [root; tar.Name hdr]) as [[perm|i|l]|] eqn:Et;
      intros [= _ <-];
      try (by apply (Hdirs _ _ _ _ _ Emk)).
    + apply (mkdir_walk_file _ _ _ _ _ _ _ _ Emk) in Et. split.
      * apply (kept_step _ w _ _ Hout Hapart Hunder); [simpl; lia|].
        intros p i' Hp. left. simpl in Hp.
        by apply (mkdir_walk_file _ _ _ _ _ _ _ _ Emk).
      * intros q j Hq Hj. cbn [inodes].
        destruct (decide (i = j)) as [->|Hne]; [|by rewrite lookup_insert_ne].
        destruct Hq. by apply (Hapart _ _ _ Et Hj).
    + split.
      * apply (kept_step _ w _ _ Hout Hapart Hunder); [simpl; lia|].
        intros p i' Hp. cbn [names] in Hp.
        destruct (decide (p = Join [root; tar.Name hdr])) as [->|Hne].
        -- rewrite lookup_insert_eq in Hp. injection Hp as <-.
           right. split; [done|]. left. simpl. split; [done|lia].
        -- rewrite lookup_insert_ne in Hp by done. left.
           by apply (mkdir_walk_file _ _ _ _ _ _ _ _ Emk).
      * intros q j Hq Hj. cbn [inodes].
        specialize (Hout _ _ Hj). rewrite lookup_insert_ne; [done|lia].
  - match goal with
    | Heq : Ascii.eqb flag tar.TypeSymlink = true |- _ =>
        by apply Ascii.eqb_eq in Heq
    end.
  - assert (dotdot_free (tar.Linkname hdr)) as Hlname.
    { apply Hlink.
      match goal with
      | Heq : Ascii.eqb flag tar.TypeLink = true |- _ =>
          by apply Ascii.eqb_eq in Heq
      end. }
    pose proof (Join_under_root root _ Hlname) as Hlunder.
    unfold handleLink, bind, ignore_err, os_MkdirAll.
    destruct (mkdir_walk _ _ _ _) as [r0 ns] eqn:Emk.
    destruct r0 as [[]|e|msg];
      [|by intros [= _ <-]; apply (Hdirs _ _ _ _ _ Emk)..].
    destruct (os_Remove _ _) as [r1 w1] eqn:Erm.
    apply os_Remove_names in Erm as [Hnp Hw1].
    assert (inodes w1 = inodes w ∧ next_ino w1 = next_ino w
            ∧ ∀ (p : path) n, names w1 !! p = Some n → ns !! p = Some n)
      as (Hi1 & Hn1 & Hsub1).
    { destruct Hw1 as [->| ->]; simpl; (split; [done|]; split; [done|]);
        [done|]. intros p n Hp. by apply lookup_delete_Some in Hp as [_ ?]. }
    intros Hrun.
    assert (os_Link (Join [root; tar.Linkname hdr]) (Join [root; tar.Name hdr])
              w1 = (res, w')) as Hlk.
    { by destruct r1 as [[]|e|msg]; [| |destruct (Hnp msg)]. }
    clear Hrun.
    apply os_Link_names in Hlk as (Hi2 & Hn2 & Hnames). split.
    + apply (kept_step _ w _ _ Hout Hapart Hunder); [lia|].
      intros p i Hp.
      destruct Hnames as [Hsame|(n & Hold & Hnew)].
      * left. rewrite Hsame in Hp.
        by apply (mkdir_walk_file _ _ _ _ _ _ _ _ Emk), Hsub1.
      * rewrite Hnew in Hp.
        destruct (decide (p = Join [root; tar.Name hdr])) as [->|Hne].
        -- rewrite lookup_insert_eq in Hp. injection Hp as ->.
           right. split; [done|]. right.
           exists (Join [root; tar.Linkname hdr]). split; [done|].
           by apply (mkdir_walk_file _ _ _ _ _ _ _ _ Emk), Hsub1.
        -- rewrite lookup_insert_ne in Hp by done. left.
           by apply (mkdir_walk_file _ _ _ _ _ _ _ _ Emk), Hsub1.
    + intros q j _ _. by rewrite Hi2, Hi1.
Qed.
End apart.

Section apart_archive.
Import filesystem.

Lemma handle_entries_apart es trailer root w res w' (q : path) (j : nat) :
  handle_entries es trailer root w = (res, w') →
  (∀ e, e ∈ es → tar.Typeflag (tar.hdr e) ≠ tar.TypeSymlink) →
  (∀ e, e ∈ es → dotdot_free (tar.Name (tar.hdr e))) →
  (∀ e, e ∈ es → tar.Typeflag (tar.hdr e) = tar.TypeLink →
        dotdot_free (tar.Linkname (tar.hdr e))) →
  handed_out w → kept_apart (Join [root]) w →
  ¬ Join [root] `prefix_of` q → names w !! q = Some (NFile j) →
  names w' !! q = Some (NFile j) ∧ inodes w' !! j = inodes w !! j.
Proof.
  revert w. induction es as [|e es IH];
    intros w Hrun Hkind Hnames Hlinks Hout Hapart Hq Hj.
  - simpl in Hrun. by destruct trailer; injection Hrun as _ <-.
  - cbn [handle_entries] in Hrun.
    destruct (handlers (tar.Typeflag (tar.hdr e))) as [h|] eqn:Hh;
      [|by injection Hrun as _ <-].
    unfold bind at 1, wrap in Hrun.
    destruct (h (tar.hdr e) (tar.body e) root w) as [r1 w1] eqn:E1.
    pose proof (handler_step _ _ _ _ _ _ _ _ q Hh E1) as Hstep.
    assert (Join [root] `prefix_of` Join [root; tar.Name (tar.hdr e)]) as Hunder.
    { apply Join_under_root, Hnames. by left. }
    destruct (handler_apart _ _ _ _ _ _ _ _ Hh (Hkind e ltac:(by left)) E1
                (Hnames e ltac:(by left)) (Hlinks e ltac:(by left))
                Hout Hapart) as ([Hout1 Hapart1] & Hino1).
    assert (names w1 !! q = Some (NFile j)) as Hj1.
    { destruct Hstep as [->|[->|(Hnone & _)]]; [done|done|congruence]. }
    specialize (Hino1 _ _ Hq Hj).
    destruct r1 as [[]|err|msg]; [|by injection Hrun as _ <-..].
    destruct (IH _ Hrun) as [Hn Hi]; try done.
    + intros e' He'. apply Hkind. by right.
    + intros e' He'. apply Hnames. by right.
    + intros e' He'. apply Hlinks. by right.
    + split; [done|]. by rewrite Hi.
Qed.
End apart_archive.

(** X20: in a file system without symbolic links in which every inode in
    use was handed out and no file of the target root has a name outside
    it, an archive without symbolic-link entries, without ".." in an
    entry name and without ".." in the link name of a hard-link entry is
    extracted into the target root and nowhere else: outside the target
    root no entry is replaced or removed and no file changes its bytes or
    its mode, and the only entries that appear there are directories on
    the way to the target root that were missing. *)
Theorem extraction_stays_under_targetRoot (tarReader : tar.Reader)
    (root : string) (w w' : world) (res : outcome unit) (q : path) :
  symlink_free w → handed_out w → kept_apart (Join [root]) w →
  (∀ e, e ∈ tar.entries tarReader →
        tar.Typeflag (tar.hdr e) ≠ tar.TypeSymlink) →
  (∀ e, e ∈ tar.entries tarReader → dotdot_free (tar.Name (tar.hdr e))) →
  (∀ e, e ∈ tar.entries tarReader →
        tar.Typeflag (tar.hdr e) = tar.TypeLink →
        dotdot_free (tar.Linkname (tar.hdr e))) →
  filesystem.handleTarHeader tarReader root w = (res, w') →
  ¬ Join [root] `prefix_of` q →
  (names w' !! q = names w !! q ∧ file_at w' q = file_at w q)
  ∨ (names w !! q = None ∧ is_dir_at w' q ∧ q `prefix_of` Join [root]).
Proof.
  intros _ Hout Hapart Hkind Hnames Hlinks Hrun Hq.
  destruct (handle_entries_outside _ _ _ _ _ _ q Hrun Hnames Hq)
    as [Hsame|Hnew]; [left|by right].
  split; [done|]. unfold file_at. rewrite Hsame.
  destruct (names w !! q) as [[perm|j|l]|] eqn:Ej; try done.
  by destruct (handle_entries_apart _ _ _ _ _ _ q j Hrun Hkind Hnames Hlinks
                 Hout Hapart Hq Ej) as [_ ->].
Qed.

Lemma extraction_stays_under_targetRoot_witness :
  let w' := (filesystem.handleTarHeader sample.layerL "/srv/rootfs"
               hosts.project).2 in
  ((names w' !! ["work"; "app.js"] = names hosts.project !! ["work"; "app.js"]
    ∧ file_at w' ["work"; "app.js"] = file_at hosts.project ["work"; "app.js"])
   ∨ (names hosts.project !! ["work"; "app.js"] = None
      ∧ is_dir_at w' ["work"; "app.js"]
      ∧ ["work"; "app.js"] `prefix_of` Join ["/srv/rootfs"]))
  ∧ file_at w' ["srv"; "rootfs"; "bin"; "sh"] = Some (493%Z, "ELF").
Proof.
  intros w'. split; [|by vm_compute].
  apply (extraction_stays_under_targetRoot sample.layerL "/srv/rootfs"
           hosts.project w'
           (filesystem.handleTarHeader sample.layerL "/srv/rootfs"
              hosts.project).1).
  - apply (bool_decide_unpack _). by vm_compute.
  - apply (bool_decide_unpack _). by vm_compute.
  - apply (bool_decide_unpack _). by vm_compute.
  - intros e He. simpl in He.
    repeat (apply elem_of_cons in He as [->|He]; [by vm_compute|]).
    by apply elem_of_nil in He.
  - intros e He. apply (bool_decide_unpack _). simpl in He.
    repeat (apply elem_of_cons in He as [->|He]; [by vm_compute|]).
    by apply elem_of_nil in He.
  - intros e He _. apply (bool_decide_unpack _). simpl in He.
    repeat (apply elem_of_cons in He as [->|He]; [by vm_compute|]).
    by apply elem_of_nil in He.
  - by destruct (filesystem.handleTarHeader _ _ _).
  - apply (bool_decide_unpack _). by vm_compute.
Defined.

(** ** The file names of digests *)

Section base64.
Import image.

Lemma all_ascii_complete a : In a all_ascii.
Proof.
  unfold all_ascii. rewrite <- (ascii_nat_embedding a).
  apply in_map, in_seq. pose proof (nat_ascii_bounded a). lia.
Qed.

Lemma for_all_bytes_spec P : for_all_bytes P = true → ∀ a, P a = true.
Proof.
  unfold for_all_bytes. rewrite forallb_forall. intros HP a.
  apply HP, all_ascii_complete.
Qed.

Lemma for_all_byte_pairs_spec P :
  for_all_byte_pairs P = true → ∀ a b, P a b = true.
Proof.
  unfold for_all_byte_pairs. rewrite forallb_forall. intros HP a b.
  specialize (HP a (all_ascii_complete a)). rewrite forallb_forall in HP.
  apply HP, all_ascii_complete.
Qed.

(** The indices are below 64. *)
Lemma sextet1_lt a : (sextet1 a < 64)%N.
Proof.
  apply N.ltb_lt.
  apply (for_all_bytes_spec (λ a, (sextet1 a <? 64)%N)). by vm_compute.
Qed.

Lemma sextet2_lt a b : (sextet2 a b < 64)%N.
Proof.
  apply N.ltb_lt.
  apply (for_all_byte_pairs_spec (λ a b, (sextet2 a b <? 64)%N)).
  by vm_compute.
Qed.

Lemma sextet3_lt b c : (sextet3 b c < 64)%N.
Proof.
  apply N.ltb_lt.
  apply (for_all_byte_pairs_spec (λ b c, (sextet3 b c <? 64)%N)).
  by vm_compute.
Qed.

Lemma sextet4_lt c : (sextet4 c < 64)%N.
Proof.
  apply N.ltb_lt.
  apply (for_all_bytes_spec (λ c, (sextet4 c <? 64)%N)). by vm_compute.
Qed.

(** The bytes, back from the indices. *)
Lemma byte1_of_sextets a b :
  N_of_ascii a = N.lor (N.shiftl (sextet1 a) 2) (N.shiftr (sextet2 a b) 4).
Proof.
  apply N.eqb_eq.
  apply (for_all_byte_pairs_spec
           (λ a b, (N_of_ascii a
                    =? N.lor (N.shiftl (sextet1 a) 2)
                         (N.shiftr (sextet2 a b) 4))%N)).
  by vm_compute.
Qed.

Lemma byte2_high a b : N.land (sextet2 a b) 15 = N.shiftr (N_of_ascii b) 4.
Proof.
  apply N.eqb_eq.
  apply (for_all_byte_pairs_spec
           (λ a b, (N.land (sextet2 a b) 15 =? N.shiftr (N_of_ascii b) 4)%N)).
  by vm_compute.
Qed.

Lemma byte2_low b c : N.shiftr (sextet3 b c) 2 = N.land (N_of_ascii b) 15.
Proof.
  apply N.eqb_eq.
  apply (for_all_byte_pairs_spec
           (λ b c, (N.shiftr (sextet3 b c) 2 =? N.land (N_of_ascii b) 15)%N)).
  by vm_compute.
Qed.

Lemma byte2_of_halves b :
  N_of_ascii b
  = N.lor (N.shiftl (N.shiftr (N_of_ascii b) 4) 4) (N.land (N_of_ascii b) 15).
Proof.
  apply N.eqb_eq.
  apply (for_all_bytes_spec
           (λ b, (N_of_ascii b
                  =? N.lor (N.shiftl (N.shiftr (N_of_ascii b) 4) 4)
                       (N.land (N_of_ascii b) 15))%N)).
  by vm_compute.
Qed.

Lemma byte3_of_sextets b c :
  N_of_ascii c = N.lor (N.shiftl (N.land (sextet3 b c) 3) 6) (sextet4 c).
Proof.
  apply N.eqb_eq.
  apply (for_all_byte_pairs_spec
           (λ b c, (N_of_ascii c
                    =? N.lor (N.shiftl (N.land (sextet3 b c) 3) 6)
                         (sextet4 c))%N)).
  by vm_compute.
Qed.
End base64.

Section base64_digits.
Import image.

Lemma get_chars s k : String.get k s = chars s !! k.
Proof.
  revert k. induction s as [|c s IH]; intros [|k]; simpl; done.
Qed.

Lemma b64_digit_lookup n :
  (n < 64)%N → chars b64_alphabet !! N.to_nat n = Some (b64_digit n).
Proof.
  intros Hn. unfold b64_digit. rewrite get_chars.
  destruct (chars b64_alphabet !! N.to_nat n) as [c|] eqn:E; [done|].
  apply lookup_ge_None in E. change (List.length (chars b64_alphabet)) with 64%nat in E.
  lia.
Qed.

Lemma b64_digit_inj n m :
  (n < 64)%N → (m < 64)%N → b64_digit n = b64_digit m → n = m.
Proof.
  intros Hn Hm Heq.
  pose proof (b64_digit_lookup n Hn) as Ln.
  pose proof (b64_digit_lookup m Hm) as Lm. rewrite <- Heq in Lm.
  assert (NoDup (chars b64_alphabet)) as Hnd.
  { apply (bool_decide_unpack _). by vm_compute. }
  apply N2Nat.inj. by eapply NoDup_lookup.
Qed.

Lemma b64_digit_not_pad n : (n < 64)%N → b64_digit n ≠ "="%char.
Proof.
  intros Hn Heq. pose proof (b64_digit_lookup n Hn) as Ln. rewrite Heq in Ln.
  apply list_elem_of_lookup_2 in Ln. revert Ln.
  apply (bool_decide_unpack _). by vm_compute.
Qed.

(** The first three bytes, from the four indices of a group. *)
Lemma sextets_inj a b c a' b' c' :
  sextet1 a = sextet1 a' → sextet2 a b = sextet2 a' b' →
  sextet3 b c = sextet3 b' c' → sextet4 c = sextet4 c' →
  a = a' ∧ b = b' ∧ c = c'.
Proof.
  intros H1 H2 H3 H4.
  assert (N_of_ascii a = N_of_ascii a') as Ha.
  { rewrite (byte1_of_sextets a b), (byte1_of_sextets a' b'). congruence. }
  assert (N_of_ascii b = N_of_ascii b') as Hb.
  { rewrite (byte2_of_halves b), (byte2_of_halves b').
    rewrite <- (byte2_high a b), <- (byte2_high a' b').
    rewrite <- (byte2_low b c), <- (byte2_low b' c'). congruence. }
  assert (N_of_ascii c = N_of_ascii c') as Hc.
  { rewrite (byte3_of_sextets b c), (byte3_of_sextets b' c'). congruence. }
  rewrite <- (ascii_N_embedding a), <- (ascii_N_embedding a'),
    <- (ascii_N_embedding b), <- (ascii_N_embedding b'),
    <- (ascii_N_embedding c), <- (ascii_N_embedding c').
  by rewrite Ha, Hb, Hc.
Qed.

(** [b64_encode], group by group. *)
Lemma b64_encode_1 a :
  b64_encode (String a "")
  = String (b64_digit (sextet1 a))
      (String (b64_digit (sextet2 a "000")) "==").
Proof.
  cbn [b64_encode]. unfold sextet1, sextet2.
  change (N.shiftr (N_of_ascii "000") 4) with 0%N. by rewrite N.lor_0_r.
Qed.

Lemma b64_encode_2 a b :
  b64_encode (String a (String b ""))
  = String (b64_digit (sextet1 a))
      (String (b64_digit (sextet2 a b))
         (String (b64_digit (sextet3 b "000")) "=")).
Proof.
  cbn [b64_encode]. unfold sextet1, sextet2, sextet3.
  change (N.shiftr (N_of_ascii "000") 6) with 0%N. by rewrite N.lor_0_r.
Qed.

Lemma b64_encode_3 a b c rest :
  b64_encode (String a (String b (String c rest)))
  = String (b64_digit (sextet1 a))
      (String (b64_digit (sextet2 a b))
         (String (b64_digit (sextet3 b c))
            (String (b64_digit (sextet4 c)) (b64_encode rest)))).
Proof. done. Qed.

Lemma b64_encode_inj s t : b64_encode s = b64_encode t → s = t.
Proof.
  assert (∀ n s t, (String.length s ≤ n)%nat →
            b64_encode s = b64_encode t → s = t) as Hall;
    [|by apply (Hall (String.length s))].
  clear s t. intros n. induction n as [n IH] using lt_wf_ind. intros s t Hn.
  pose proof sextet1_lt as L1. pose proof sextet2_lt as L2.
  pose proof sextet3_lt as L3. pose proof sextet4_lt as L4.
  destruct s as [|a [|b [|c rest]]], t as [|a' [|b' [|c' rest']]];
    rewrite ?b64_encode_1, ?b64_encode_2, ?b64_encode_3; try done.
  - intros [= H1 H2].
    apply b64_digit_inj in H1, H2; try done.
    by destruct (sextets_inj a "000" "000" a' "000" "000") as (-> & _).
  - intros [= _ _ H3]. symmetry in H3. by apply b64_digit_not_pad in H3.
  - intros [= _ _ H3]. symmetry in H3. by apply b64_digit_not_pad in H3.
  - intros [= _ _ H3]. by apply b64_digit_not_pad in H3.
  - intros [= H1 H2 H3].
    apply b64_digit_inj in H1, H2, H3; try done.
    by destruct (sextets_inj a b "000" a' b' "000") as (-> & -> & _).
  - intros [= _ _ _ H4]. symmetry in H4. by apply b64_digit_not_pad in H4.
  - intros [= _ _ H3]. by apply b64_digit_not_pad in H3.
  - intros [= _ _ _ H4]. by apply b64_digit_not_pad in H4.
  - intros [= H1 H2 H3 H4 Hrest].
    apply b64_digit_inj in H1, H2, H3, H4; try done.
    destruct (sextets_inj a b c a' b' c') as (-> & -> & ->); try done.
    f_equal. f_equal. f_equal.
    apply (IH (String.length rest)); [simpl in Hn; lia|done|done].
Qed.
End base64_digits.

Lemma append_inj_r (s1 s2 t : string) : s1 +:+ t = s2 +:+ t → s1 = s2.
Proof.
  revert s2. induction s1 as [|c s1 IH]; intros [|d s2] Heq; try done.
  - apply (f_equal String.length) in Heq.
    change ("" +:+ t) with t in Heq. rewrite length_append in Heq.
    simpl in Heq. lia.
  - apply (f_equal String.length) in Heq.
    change ("" +:+ t) with t in Heq. rewrite length_append in Heq.
    simpl in Heq. lia.
  - change (String c (s1 +:+ t) = String d (s2 +:+ t)) in Heq.
    injection Heq as -> Heq. by rewrite (IH _ Heq).
Qed.

(** X21: distinct digests get distinct file names: the URL-safe base64
    text of a digest determines the digest, so two layers of an image
    never share a file in the download directory, and the paths of their
    files differ. *)
Theorem digestToFilename_is_injective (dest d1 d2 : string) :
  (image.digestToFilename d1 = image.digestToFilename d2 → d1 = d2)
  ∧ (Join [dest; image.digestToFilename d1]
     = Join [dest; image.digestToFilename d2] → d1 = d2).
Proof.
  assert (image.digestToFilename d1 = image.digestToFilename d2 → d1 = d2)
    as Hinj.
  { unfold image.digestToFilename. intros Heq.
    by apply b64_encode_inj, (append_inj_r _ _ image.fileExt). }
  split; [exact Hinj|].
  rewrite (proj1 (digest_file_placement dest d1)),
    (proj1 (digest_file_placement dest d2)).
  intros Heq. apply app_inv_head in Heq. injection Heq as Heq. by apply Hinj.
Qed.
